(** * EEG101 Community Framework: the DOCX round-trip scripts

    A shallow embedding of [export_docx.py], [import_docx.py] and of
    the functions of [export_to_sheets.py] that build the exported
    table, with the properties the specification states about them and
    further properties of the code.

    Python [str] values are modelled as [list ascii]; every character is
    one code point in the range U+0000..U+00FF, and the character
    classes below are CPython's Unicode classes on that range.           *)

From Stdlib Require Import Ascii String ZArith Lia.
From stdpp Require Import base list gmap strings.

Local Open Scope char_scope.
Local Open Scope list_scope.

(** The line feed and the double quote. *)
Definition nl : ascii := "010".
Definition dq : ascii := "034".

(** A string literal as a [list ascii]. *)
Definition str (s : string) : list ascii := list_ascii_of_string s.

Abbreviation pystr := (list ascii).

(* ===================================================================== *)
(** ** Characters                                                         *)
(* ===================================================================== *)

Module Char.

Definition code (c : ascii) : N := N_of_ascii c.

Definition between (lo hi : N) (c : ascii) : bool :=
  ((lo <=? code c) && (code c <=? hi))%N.

(** [str.isspace] and the pattern class [\s]: TAB..CR, FS..US, space,
    NEL and the no-break space. *)
Definition is_space (c : ascii) : bool :=
  between 9 13 c || between 28 32 c || (code c =? 133)%N || (code c =? 160)%N.

(** The pattern class [\w]: alphanumeric code points and the underscore. *)
Definition is_word (c : ascii) : bool :=
  between 48 57 c || between 65 90 c || (code c =? 95)%N || between 97 122 c
  || (code c =? 170)%N || between 178 179 c || (code c =? 181)%N
  || between 185 186 c || between 188 190 c
  || between 192 214 c || between 216 246 c || between 248 255 c.

(** [str.lower] on one character. *)
Definition lower (c : ascii) : ascii :=
  if between 65 90 c || between 192 214 c || between 216 222 c
  then ascii_of_N (code c + 32) else c.

Definition eqb (a b : ascii) : bool := Ascii.eqb a b.

Definition only (a c : ascii) : bool := eqb a c.
Definition except (a c : ascii) : bool := negb (eqb a c).

(** The pattern class [[\w\.-]]. *)
Definition is_anchor_char (c : ascii) : bool :=
  is_word c || eqb "." c || eqb "-" c.

(** The pattern atom [.], which excludes the line feed. *)
Definition is_dot (c : ascii) : bool := except "010" c.

(** Simplification unfolds a class only on a character that is given. *)
#[global] Arguments Ascii.eqb !a !b.
#[global] Arguments eqb !a !b.
#[global] Arguments only !a !c.
#[global] Arguments except !a !c.
#[global] Arguments is_space !c.
#[global] Arguments is_word !c.
#[global] Arguments is_anchor_char !c.
#[global] Arguments is_dot !c.
#[global] Arguments lower !c.

End Char.

(* ===================================================================== *)
(** ** The [str] methods the scripts use                                  *)
(* ===================================================================== *)

Module Str.

Fixpoint eqb (a b : pystr) : bool :=
  match a, b with
  | [], [] => true
  | x :: a', y :: b' => Char.eqb x y && eqb a' b'
  | _, _ => false
  end.

(** [s.startswith(p)] *)
Fixpoint startswith (p s : pystr) : bool :=
  match p, s with
  | [], _ => true
  | x :: p', y :: s' => Char.eqb x y && startswith p' s'
  | _ :: _, [] => false
  end.

(** [s.endswith(p)] *)
Definition endswith (p s : pystr) : bool :=
  startswith (rev p) (rev s).

(** [p in s] *)
Fixpoint contains (p s : pystr) : bool :=
  startswith p s ||
  match s with
  | [] => false
  | _ :: t => contains p t
  end.

Fixpoint drop_while (f : ascii -> bool) (s : pystr) : pystr :=
  match s with
  | [] => []
  | c :: t => if f c then drop_while f t else s
  end.

(** [s.lstrip()], [s.rstrip()], [s.strip()] *)
Definition lstrip (s : pystr) : pystr := drop_while Char.is_space s.
Definition rstrip (s : pystr) : pystr := rev (drop_while Char.is_space (rev s)).
Definition strip (s : pystr) : pystr := rstrip (lstrip s).

(** [s.lstrip(' ')] *)
Definition lstrip_spaces (s : pystr) : pystr := drop_while (Char.only " ") s.

(** [s.lower()] *)
Definition lower (s : pystr) : pystr := map Char.lower s.

(** [s.replace(a, b)] for one-character [a] and [b]. *)
Definition replace_char (a b : ascii) (s : pystr) : pystr :=
  map (fun c => if Char.eqb a c then b else c) s.

(** [s.replace(old, new)]: occurrences are replaced left to right and do
    not overlap; [skip] counts the characters of a replaced occurrence
    that are still to be passed over. *)
Fixpoint replace_from (old new : pystr) (skip : nat) (s : pystr) : pystr :=
  match s with
  | [] => []
  | c :: t =>
      match skip with
      | S n => replace_from old new n t
      | O => if startswith old s
             then new ++ replace_from old new (length old - 1) t
             else c :: replace_from old new 0 t
      end
  end.

Definition replace (old new s : pystr) : pystr :=
  match old with
  | [] => new ++ flat_map (fun c => c :: new) s
  | _ => replace_from old new 0 s
  end.

(** [s.split(sep)] for a one-character separator: never the empty list. *)
Fixpoint split (sep : ascii) (s : pystr) : list pystr :=
  match s with
  | [] => [[]]
  | c :: t =>
      if Char.eqb sep c then [] :: split sep t
      else match split sep t with
           | [] => [[c]]
           | w :: ws => (c :: w) :: ws
           end
  end.

(** [sep.join(parts)] *)
Fixpoint join (sep : pystr) (parts : list pystr) : pystr :=
  match parts with
  | [] => []
  | [p] => p
  | p :: ps => p ++ sep ++ join sep ps
  end.

(** [s.rfind(p)]: the highest index at which [p] occurs, if any. *)
Fixpoint rfind (p s : pystr) : option nat :=
  match s with
  | [] => if startswith p [] then Some 0 else None
  | _ :: t =>
      match rfind p t with
      | Some i => Some (S i)
      | None => if startswith p s then Some 0 else None
      end
  end.

(** [' ' * n] for an integer [n]: empty when [n] is not positive. *)
Definition spaces (n : Z) : pystr := repeat " " (Z.to_nat n).

(** [s[k:]] for an integer [k]: a negative [k] counts from the end. *)
Definition slice_from (k : Z) (s : pystr) : pystr :=
  if (0 <=? k)%Z then drop (Z.to_nat k) s
  else drop (Z.to_nat (Z.of_nat (length s) + k)) s.

(** [s[:-1]] *)
Definition drop_last (s : pystr) : pystr := take (length s - 1) s.

End Str.

(* ===================================================================== *)
(** ** Patterns of the [re] module                                        *)
(* ===================================================================== *)

(** The fragment of pattern syntax the scripts use, matched the way the
    [re] module does: by backtracking, the first alternative tried first.
    A quantifier applies to one character class; [p+] is [p] followed by
    [p*].  A pattern that starts with the anchor [^] is only ever used
    with [match], which tries the first position alone.                  *)

Module Re.

Inductive re : Type :=
| Eps
| Lit (c : ascii)                      (* a literal character            *)
| Chr (p : ascii -> bool)              (* one character of a class       *)
| Seq (a b : re)
| Rep (greedy : bool) (p : ascii -> bool)  (* [p*] and [p*?]             *)
| Grp (n : nat) (r : re)               (* capturing group number [n]     *)
| Opt (r : re)                         (* [(r)?]                         *)
| Eol.                                 (* [$]                            *)

(** A literal string. *)
Fixpoint lits (s : pystr) : re :=
  match s with
  | [] => Eps
  | c :: t => Seq (Lit c) (lits t)
  end.

(** [p+] *)
Definition plus (p : ascii -> bool) : re := Seq (Chr p) (Rep true p).

(** A sequence of patterns. *)
Fixpoint cat (rs : list re) : re :=
  match rs with
  | [] => Eps
  | r :: rs' => Seq r (cat rs')
  end.

(** The groups set so far, the latest first. *)
Definition caps := list (nat * pystr).

Section Matcher.
Context {A : Type}.

(** [p*]: one more character first, the continuation here otherwise. *)
Fixpoint rep_greedy (p : ascii -> bool) (k : pystr -> option A)
         (s : pystr) : option A :=
  match s with
  | c :: t =>
      if p c then
        match rep_greedy p k t with
        | Some x => Some x
        | None => k s
        end
      else k s
  | [] => k s
  end.

(** [p*?]: the continuation here first, one more character otherwise. *)
Fixpoint rep_lazy (p : ascii -> bool) (k : pystr -> option A)
         (s : pystr) : option A :=
  match k s with
  | Some x => Some x
  | None =>
      match s with
      | c :: t => if p c then rep_lazy p k t else None
      | [] => None
      end
  end.

(** [run r s cs k]: match [r] at the head of [s] with the groups [cs]
    set, then go on with [k] on what is left; [None] makes the
    matcher backtrack. *)
Fixpoint run (r : re) (s : pystr) (cs : caps)
         (k : pystr -> caps -> option A) : option A :=
  match r with
  | Eps => k s cs
  | Lit c =>
      match s with
      | c' :: t => if Char.eqb c c' then k t cs else None
      | [] => None
      end
  | Chr p =>
      match s with
      | c' :: t => if p c' then k t cs else None
      | [] => None
      end
  | Seq a b => run a s cs (fun s' cs' => run b s' cs' k)
  | Rep true p => rep_greedy p (fun s' => k s' cs) s
  | Rep false p => rep_lazy p (fun s' => k s' cs) s
  | Grp n r' =>
      run r' s cs
          (fun s' cs' => k s' ((n, take (length s - length s') s) :: cs'))
  | Opt r' =>
      match run r' s cs k with
      | Some x => Some x
      | None => k s cs
      end
  | Eol =>
      match s with
      | [] => k s cs
      | ["010"] => k s cs
      | _ => None
      end
  end.
End Matcher.

(** A match object: the matched text, the groups, and the text after
    the match. *)
Record rmatch : Type := mkMatch {
  m_text : pystr;
  m_caps : caps;
  m_rest : pystr
}.

(** [m.group(n)] for [n >= 1]: [None] when the group took no part. *)
Fixpoint lookup_group (n : nat) (cs : caps) : option pystr :=
  match cs with
  | [] => None
  | (i, w) :: cs' => if Nat.eqb i n then Some w else lookup_group n cs'
  end.

Definition group (n : nat) (m : rmatch) : option pystr :=
  lookup_group n (m_caps m).

(** [m.group(n)] of a group that takes part in every match. *)
Definition group' (n : nat) (m : rmatch) : pystr :=
  default [] (group n m).

(** Truth value of a match result in a condition. *)
Definition matched (o : option rmatch) : bool :=
  match o with
  | Some _ => true
  | None => false
  end.

(** [pattern.match(s)]: a match at the first position. *)
Definition match_at (r : re) (s : pystr) : option rmatch :=
  run r s []
      (fun s' cs => Some (mkMatch (take (length s - length s') s) cs s')).

(** [pattern.search(s)]: the first position with a match. *)
Fixpoint search (r : re) (s : pystr) : option rmatch :=
  match match_at r s with
  | Some m => Some m
  | None =>
      match s with
      | [] => None
      | _ :: t => search r t
      end
  end.

(** [pattern.sub(repl, s)]: the matches are found left to right and do
    not overlap; [skip] counts the characters of the last match that are
    still to be passed over.  After an empty match the scan moves on by
    one character. *)
Fixpoint sub_from (r : re) (repl : rmatch -> pystr) (skip : nat)
         (s : pystr) : pystr :=
  match skip with
  | S n =>
      match s with
      | [] => []
      | _ :: t => sub_from r repl n t
      end
  | O =>
      match match_at r s with
      | Some m =>
          repl m ++
          match s with
          | [] => []
          | c :: t =>
              match length (m_text m) with
              | O => c :: sub_from r repl 0 t
              | S n => sub_from r repl n t
              end
          end
      | None =>
          match s with
          | [] => []
          | c :: t => c :: sub_from r repl 0 t
          end
      end
  end.

Definition sub (r : re) (repl : rmatch -> pystr) (s : pystr) : pystr :=
  sub_from r repl 0 s.

(** [pattern.findall(s)] for a pattern with one group: the texts of
    group 1 of the successive matches. *)
Fixpoint findall_from (r : re) (skip : nat) (s : pystr) : list pystr :=
  match skip with
  | S n =>
      match s with
      | [] => []
      | _ :: t => findall_from r n t
      end
  | O =>
      match match_at r s with
      | Some m =>
          group' 1 m ::
          match s with
          | [] => []
          | _ :: t => findall_from r (length (m_text m) - 1) t
          end
      | None =>
          match s with
          | [] => []
          | _ :: t => findall_from r 0 t
          end
      end
  end.

Definition findall (r : re) (s : pystr) : list pystr := findall_from r 0 s.

(** [needs c r]: every text [r] matches contains the character [c],
    because [r] has [c] as a literal outside every repeat and option. *)
Fixpoint needs (c : ascii) (r : re) : bool :=
  match r with
  | Lit c' => Char.eqb c c'
  | Seq a b => needs c a || needs c b
  | Grp _ r' => needs c r'
  | _ => false
  end.

End Re.

(** Truth value of an optional string in a condition: [None] and the
    empty string are false. *)
Definition truthy (o : option pystr) : bool :=
  match o with
  | Some (_ :: _) => true
  | _ => false
  end.

(** [x in xs] for a list of strings. *)
Definition str_in (x : pystr) (xs : list pystr) : bool :=
  existsb (Str.eqb x) xs.

(* ===================================================================== *)
(** ** export_docx.py                                                     *)
(* ===================================================================== *)

Module ExportDocx.

Definition FILES : list pystr :=
  [ str "introduction.md"; str "validity.md"; str "democratization.md";
    str "responsibility.md"; str "conclusion.md"; str "references.md" ].

(** [\[([^\]]+)\]\(([^)]+)\)(\s*\{ *#[^}]+\})?] *)
Definition link_pattern : Re.re :=
  Re.cat
    [ Re.Lit "["; Re.Grp 1 (Re.plus (Char.except "]")); Re.Lit "]";
      Re.Lit "("; Re.Grp 2 (Re.plus (Char.except ")")); Re.Lit ")";
      Re.Opt (Re.Grp 3 (Re.cat
        [ Re.Rep true Char.is_space; Re.Lit "{"; Re.Rep true (Char.only " ");
          Re.Lit "#"; Re.plus (Char.except "}"); Re.Lit "}" ])) ].

Section WithRegistry.
(** The module-level list [FILES], read when a link is rewritten. *)
Variable files : list pystr.

Definition replace_link (current_file : pystr) (m : Re.rmatch) : pystr :=
  let text := Re.group' 1 m in
  let url := Re.group' 2 m in
  let attr := Re.group 3 m in
  let text :=
    if truthy attr then text ++ str " " ++ Str.strip (default [] attr)
    else text in
  let fallthrough :=
    if truthy attr then str "[" ++ text ++ str "](" ++ url ++ str ")"
    else Re.m_text m in
  if Str.contains (str ".md") url && negb (Str.startswith (str "http") url)
  then
    let parts := Str.split "#" url in
    let filename := default [] (head parts) in
    let anchor := parts !! 1%nat in
    if str_in filename files then
      if Str.eqb filename current_file then
        if truthy anchor then
          str "[" ++ text ++ str "](#" ++ default [] anchor ++ str ")"
        else
          let file_anchor := Str.lower (Str.replace_char "." "-" filename) in
          str "[" ++ text ++ str "](#" ++ file_anchor ++ str ")"
      else
        let safe_filename := Str.replace_char "." "_" filename in
        if truthy anchor then
          str "[" ++ text ++ str "](#" ++ safe_filename ++ str "__"
              ++ default [] anchor ++ str ")"
        else
          str "[" ++ text ++ str "](#" ++ safe_filename ++ str ")"
    else fallthrough
  else fallthrough.

Definition process_links (content current_file : pystr) : pystr :=
  Re.sub link_pattern (replace_link current_file) content.
End WithRegistry.

(** The pattern [<input[^>]+id=Q(cb-[^Q]+)Q[^>]*>], where Q stands for
    the double quote. *)
Definition cb_input_pattern : Re.re :=
  Re.cat
    [ Re.lits (str "<input"); Re.plus (Char.except ">");
      Re.lits (str "id="); Re.Lit dq;
      Re.Grp 1 (Re.Seq (Re.lits (str "cb-")) (Re.plus (Char.except dq)));
      Re.Lit dq; Re.Rep true (Char.except ">"); Re.Lit ">" ].

(** The pattern [<input[^>]+name=Q(pledge_[^Q]+)Q[^>]*>], where Q stands
    for the double quote. *)
Definition pledge_input_pattern : Re.re :=
  Re.cat
    [ Re.lits (str "<input"); Re.plus (Char.except ">");
      Re.lits (str "name="); Re.Lit dq;
      Re.Grp 1 (Re.Seq (Re.lits (str "pledge_")) (Re.plus (Char.except dq)));
      Re.Lit dq; Re.Rep true (Char.except ">"); Re.Lit ">" ].

(** The replacement template [[\1]]. *)
Definition bracket_group1 (m : Re.rmatch) : pystr :=
  str "[" ++ Re.group' 1 m ++ str "]".

Definition process_checkboxes (content : pystr) : pystr :=
  let content := Re.sub cb_input_pattern bracket_group1 content in
  let content := Re.sub pledge_input_pattern bracket_group1 content in
  content.

Definition escape_html (content : pystr) : pystr :=
  let content := Str.replace (str "<") (str "&lt;") content in
  let content := Str.replace (str ">") (str "&gt;") content in
  content.

(** [^\s*///\s+\w+] *)
Definition block_start_pattern : Re.re :=
  Re.cat [ Re.Rep true Char.is_space; Re.lits (str "///");
           Re.plus Char.is_space; Re.plus Char.is_word ].

(** [^\s*///\s*$] *)
Definition block_end_pattern : Re.re :=
  Re.cat [ Re.Rep true Char.is_space; Re.lits (str "///");
           Re.Rep true Char.is_space; Re.Eol ].

(** The loop state of [unindent_blocks]. *)
Record flat_state : Type := mkFlat {
  new_lines : list pystr;
  stack_depth : Z
}.

Definition flat_init : flat_state := mkFlat [] 0.

(** Whether a processed content line gets a blank line after it. *)
Definition needs_separator (processed_line : pystr) : bool :=
  let stripped_line := Str.strip processed_line in
  Str.startswith (str "type:") stripped_line
  || Str.startswith (str "open:") stripped_line
  || Str.startswith (str "<input") stripped_line
  || Str.startswith (str "[cb-") stripped_line
  || Str.startswith (str "[pledge_") stripped_line.

(** The content branch: the line with the indentation of its depth
    removed. *)
Definition process_line (stack_depth : Z) (line : pystr) : pystr :=
  let current_indent :=
    (Z.of_nat (length line) - Z.of_nat (length (Str.lstrip_spaces line)))%Z in
  let indent_to_remove := (stack_depth * 4)%Z in
  if (indent_to_remove <=? current_indent)%Z
  then Str.slice_from indent_to_remove line
  else if Str.eqb (Str.strip line) [] then []
  else Str.lstrip line.

(** One iteration of the loop over the lines. *)
Definition unindent_step (st : flat_state) (line : pystr) : flat_state :=
  let is_start := Re.match_at block_start_pattern line in
  let is_end := Re.match_at block_end_pattern line in
  if Re.matched is_start then
    mkFlat (new_lines st ++ [Str.strip line; []]) (stack_depth st + 1)
  else if Re.matched is_end then
    let d := (stack_depth st - 1)%Z in
    let d := if (d <? 0)%Z then 0%Z else d in
    mkFlat (new_lines st ++ [Str.strip line; []]) d
  else
    let processed_line := process_line (stack_depth st) line in
    if needs_separator processed_line
    then mkFlat (new_lines st ++ [processed_line; []]) (stack_depth st)
    else mkFlat (new_lines st ++ [processed_line]) (stack_depth st).

Definition unindent_run (lines : list pystr) : flat_state :=
  fold_left unindent_step lines flat_init.

Definition unindent_blocks (content : pystr) : pystr :=
  let lines := Str.split nl content in
  Str.join [nl] (new_lines (unindent_run lines)).

(** The body of the loop of [main] for one file: the marker line and
    the transformed content. *)
Definition export_unit (files : list pystr) (filename content : pystr) : pystr :=
  let file_anchor := Str.lower (Str.replace_char "." "-" filename) in
  let header :=
    [nl; nl] ++ str "**=== FILE: " ++ filename ++ str " ===** {#"
             ++ file_anchor ++ str "}" ++ [nl; nl] in
  let content := process_links files content filename in
  let content := process_checkboxes content in
  let content := unindent_blocks content in
  let content := escape_html content in
  let content := process_checkboxes content in
  header ++ content.

End ExportDocx.

(* ===================================================================== *)
(** ** import_docx.py                                                     *)
(* ===================================================================== *)

(** Exceptions the modelled code can raise. *)
Inductive exn : Type :=
| IndexError           (* an index into an empty list            *)
| ConverterError       (* raised by the external converter       *)
| OSError (path : pystr). (* raised when a file cannot be written *)

Inductive result (A : Type) : Type :=
| Ok (a : A)
| Raise (e : exn).
Arguments Ok {A} a.
Arguments Raise {A} e.

#[global] Instance result_ret : MRet result := fun A a => Ok a.
#[global] Instance result_bind : MBind result := fun A B f x =>
  match x with
  | Ok a => f a
  | Raise e => Raise e
  end.

(** A [dict] keyed by strings, in insertion order: assigning to a key that
    is present keeps its place. *)
Fixpoint dict_set {V : Type} (k : pystr) (v : V) (d : list (pystr * V))
  : list (pystr * V) :=
  match d with
  | [] => [(k, v)]
  | (k', v') :: d' =>
      if Str.eqb k k' then (k, v) :: d' else (k', v') :: dict_set k v d'
  end.

Module ImportDocx.

Definition FILES : list pystr :=
  [ str "introduction.md"; str "validity.md"; str "democratization.md";
    str "responsibility.md"; str "conclusion.md"; str "references.md" ].

(** [\*\*=== FILE: ([\w\.-]+) ===\*\*] *)
Definition file_marker_pattern : Re.re :=
  Re.cat [ Re.lits (str "**=== FILE: ");
           Re.Grp 1 (Re.plus Char.is_anchor_char);
           Re.lits (str " ===**") ].

(** [\{#([\w\.-]+)\}] *)
Definition anchor_pattern : Re.re :=
  Re.cat [ Re.lits (str "{#"); Re.Grp 1 (Re.plus Char.is_anchor_char);
           Re.Lit "}" ].

(** The loop of [build_anchor_map]: the file of the last marker seen and
    the map built so far. *)
Definition anchor_step (st : option pystr * gmap pystr pystr) (line : pystr)
  : option pystr * gmap pystr pystr :=
  let '(current_file, anchor_map) := st in
  match Re.search file_marker_pattern line with
  | Some m_file => (Some (Re.group' 1 m_file), anchor_map)
  | None =>
      if truthy current_file then
        let anchors := Re.findall anchor_pattern line in
        (current_file,
         fold_left (fun am anchor => <[anchor := default [] current_file]> am)
                   anchors anchor_map)
      else st
  end.

Definition build_anchor_map (content : pystr) : gmap pystr pystr :=
  snd (fold_left anchor_step (Str.split nl content) (None, ∅)).

(** [^\s*///\s+(\w+)(.{0,})], the last group being the source's
    dot-star group. *)
Definition block_start_pattern : Re.re :=
  Re.cat [ Re.Rep true Char.is_space; Re.lits (str "///");
           Re.plus Char.is_space; Re.Grp 1 (Re.plus Char.is_word);
           Re.Grp 2 (Re.Rep true Char.is_dot) ].

(** [^\s*///\s*$] *)
Definition block_end_pattern : Re.re :=
  Re.cat [ Re.Rep true Char.is_space; Re.lits (str "///");
           Re.Rep true Char.is_space; Re.Eol ].

(** [\s///\s*$] *)
Definition trailing_end_pattern : Re.re :=
  Re.cat [ Re.Chr Char.is_space; Re.lits (str "///");
           Re.Rep true Char.is_space; Re.Eol ].

(** The pre-pass on one line: a block end joined onto the preceding
    content is put on a line of its own. *)
Definition split_line (line : pystr) : list pystr :=
  let stripped := Str.strip line in
  if Str.endswith (str "///") stripped && negb (Str.eqb stripped (str "///"))
  then
    if Re.matched (Re.search trailing_end_pattern line) then
      match Str.rfind (str "///") line with
      | Some idx => [take idx line; drop idx line]
      | None => (* [rfind] gives -1: [line[:-1]] and [line[-1:]] *)
          [Str.drop_last line; Str.slice_from (-1) line]
      end
    else [line]
  else [line].

Definition split_lines (content : pystr) : list pystr :=
  flat_map split_line (Str.split nl content).

(** **** [clean_buffer] *)

Definition is_blank (line : pystr) : bool := Str.eqb (Str.strip line) [].

(** [find_next_non_blank]: how many blank lines come first, and the
    line found after them. *)
Fixpoint find_next_non_blank (lines : list pystr) : option (nat * pystr) :=
  match lines with
  | [] => None
  | l :: ls =>
      if is_blank l then
        match find_next_non_blank ls with
        | Some (n, x) => Some (S n, x)
        | None => None
        end
      else Some (O, l)
  end.

(** The [while] loop of [clean_buffer] over the lines from index [i]
    on; [skip] counts the lines the index has already been moved past. *)
Fixpoint clean_from (skip : nat) (lines : list pystr) : list pystr :=
  match lines with
  | [] => []
  | line :: rest =>
      match skip with
      | S n => clean_from n rest
      | O =>
          let default_case := line :: clean_from 0 rest in
          match find_next_non_blank rest with
          | None => default_case
          | Some (blanks, next_line) =>
              if Str.contains (str "/// details") line
                 && Str.contains (str "type:") next_line
              then line :: clean_from blanks rest
              else if Str.contains (str "type:") line
                      && Str.contains (str "open:") next_line
              then line :: next_line :: clean_from (S blanks) rest
              else if (Str.contains (str "type:") line
                       || Str.contains (str "open:") line)
                      && negb (Str.eqb (Str.strip next_line) [])
                      && negb (Str.startswith (str "open:") (Str.strip next_line))
                      && negb (Str.startswith (str "///") (Str.strip next_line))
              then line :: [] :: next_line :: clean_from (S blanks) rest
              else if Str.contains (str "/// html") line
                      && Str.contains (str "li") line
              then
                match rest with
                | l1 :: _ =>
                    if negb (is_blank l1)
                    then line :: [] :: clean_from 0 rest
                    else line :: clean_from 0 rest
                | [] => line :: clean_from 0 rest
                end
              else
                let is_input :=
                  Str.contains (str "<input") line
                  || Str.contains (str "[cb-") line
                  || Str.contains (str "[pledge_") line in
                if is_input && negb (Str.eqb (Str.strip next_line) [])
                   && (0 <? blanks)%nat
                then line :: next_line :: clean_from (S blanks) rest
                else default_case
          end
      end
  end.

Fixpoint drop_leading_blank (lines : list pystr) : list pystr :=
  match lines with
  | [] => []
  | l :: ls => if is_blank l then drop_leading_blank ls else lines
  end.

Definition clean_buffer (lines : list pystr) : list pystr :=
  clean_from 0 (drop_leading_blank lines).

(** **** [process_content] *)

(** The loop state of [process_content].  [indent_stack] holds the
    frames from the top down: its head is [indent_stack[-1]] and its
    last element is the frame the stack is seeded with. *)
Record pc_state : Type := mkPc {
  files_content : list (pystr * list pystr);
  current_file : option pystr;
  current_buffer : list pystr;
  indent_stack : list (Z * option pystr)
}.

Definition seed_frame : Z * option pystr := (0%Z, None).

Definition pc_init : pc_state := mkPc [] None [] [seed_frame].

(** [indent_stack[-1]] *)
Definition top (stack : list (Z * option pystr)) : result (Z * option pystr) :=
  match stack with
  | f :: _ => Ok f
  | [] => Raise IndexError
  end.

(** Step 2 of the loop body: the converter's escapes are undone. *)
Definition unescape (line : pystr) : pystr :=
  let line := Str.replace (str "\|") (str "|") line in
  let line := Str.replace (str "\<") (str "<") line in
  let line := Str.replace (str "\>") (str ">") line in
  let line := Str.replace (str "\_") (str "_") line in
  let line := Str.replace (str "\[") (str "[") line in
  let line := Str.replace (str "\]") (str "]") line in
  let line := Str.replace ["160"] (str " ") line in
  if Str.endswith (str "\") line then Str.drop_last line else line.

Definition is_type (t : option pystr) (name : pystr) : bool :=
  match t with
  | Some t' => Str.eqb t' name
  | None => false
  end.

(** The indent of the content of a block that starts at [tag_indent]. *)
Definition block_indent (tag_indent : Z) (block_type rest_of_tag : pystr) : Z :=
  let new_indent := tag_indent in
  if Str.eqb block_type (str "html") then
    if Str.contains (str "ul.tasklist") rest_of_tag then (new_indent + 2)%Z
    else if Str.contains (str "li") rest_of_tag then (new_indent + 2)%Z
    else (new_indent + 4)%Z
  else if Str.eqb block_type (str "details") then (new_indent + 0)%Z
  else (new_indent + 4)%Z.

Definition is_metadata (stripped : pystr) : bool :=
  Str.startswith (str "type:") stripped || Str.startswith (str "open:") stripped.

(** Step 3 of the loop body, on an unescaped line. *)
Definition indent_step (st : pc_state) (line : pystr) : result pc_state :=
  let is_start := Re.match_at block_start_pattern line in
  let is_end := Re.match_at block_end_pattern line in
  '(current_indent, current_block_type) ← top (indent_stack st);
  match is_start with
  | Some m =>
      let block_type := Re.group' 1 m in
      let rest_of_tag := Re.group' 2 m in
      let tag_indent := current_indent in
      let indented_line := Str.spaces tag_indent ++ line in
      let new_indent := block_indent tag_indent block_type rest_of_tag in
      Ok (mkPc (files_content st) (current_file st)
               (current_buffer st ++ [indented_line])
               ((new_indent, Some block_type) :: indent_stack st))
  | None =>
      if Re.matched is_end then
        let stack :=
          if (1 <? length (indent_stack st))%nat
          then tail (indent_stack st) else indent_stack st in
        '(parent_indent, _) ← top stack;
        let indented_line := Str.spaces parent_indent ++ line in
        Ok (mkPc (files_content st) (current_file st)
                 (current_buffer st ++ [indented_line]) stack)
      else if is_type current_block_type (str "details") then
        let stripped := Str.strip line in
        let indented_line :=
          if is_metadata stripped
          then Str.spaces (current_indent + 4) ++ line
          else Str.spaces current_indent ++ line in
        Ok (mkPc (files_content st) (current_file st)
                 (current_buffer st ++ [indented_line]) (indent_stack st))
      else if Str.eqb (Str.strip line) [] then
        Ok (mkPc (files_content st) (current_file st)
                 (current_buffer st ++ [[]]) (indent_stack st))
      else
        let stripped_line := Str.lstrip line in
        let indented_line :=
          if is_type current_block_type (str "details")
             && is_metadata stripped_line
          then Str.spaces (current_indent + 4) ++ stripped_line
          else Str.spaces current_indent ++ stripped_line in
        Ok (mkPc (files_content st) (current_file st)
                 (current_buffer st ++ [indented_line]) (indent_stack st))
  end.

(** The flush of the buffer of the file being read, if there is one. *)
Definition save_buffer (st : pc_state) : list (pystr * list pystr) :=
  if truthy (current_file st)
  then dict_set (default [] (current_file st))
                (clean_buffer (current_buffer st)) (files_content st)
  else files_content st.

(** One iteration of the main loop. *)
Definition content_step (st : pc_state) (line : pystr) : result pc_state :=
  match Re.search file_marker_pattern line with
  | Some m_file =>
      Ok (mkPc (save_buffer st) (Some (Re.group' 1 m_file)) [] [seed_frame])
  | None =>
      match current_file st with
      | None => Ok st
      | Some _ => indent_step st (unescape line)
      end
  end.

Fixpoint content_loop (st : pc_state) (lines : list pystr) : result pc_state :=
  match lines with
  | [] => Ok st
  | line :: rest => st' ← content_step st line; content_loop st' rest
  end.

Definition process_content (content : pystr) (anchor_map : gmap pystr pystr)
  : result (list (pystr * list pystr)) :=
  let lines := split_lines content in
  st ← content_loop pc_init lines;
  Ok (save_buffer st).

(** **** The decoders *)

(** [\[([^\]]+)\]\(#([\w\.-]+)\)] *)
Definition link_pattern : Re.re :=
  Re.cat [ Re.Lit "["; Re.Grp 1 (Re.plus (Char.except "]")); Re.Lit "]";
           Re.Lit "("; Re.Lit "#"; Re.Grp 2 (Re.plus Char.is_anchor_char);
           Re.Lit ")" ].

Section WithRegistry.
(** The module-level list [FILES], read when a link is rewritten. *)
Variable files : list pystr.

(** The [for] loop over the registry with its two [break]s: the first
    file whose encoded name the anchor is, or starts with, and what
    follows the double underscore. *)
Fixpoint find_target (fs : list pystr) (anchor : pystr)
  : option pystr * option pystr :=
  match fs with
  | [] => (None, None)
  | filename :: fs' =>
      let safe_filename := Str.replace_char "." "_" filename in
      if Str.eqb anchor safe_filename then (Some filename, None)
      else if Str.startswith (safe_filename ++ str "__") anchor
      then (Some filename, Some (drop (length safe_filename + 2) anchor))
      else find_target fs' anchor
  end.

Definition replace_link (current_file : pystr) (m : Re.rmatch) : pystr :=
  let text := Re.group' 1 m in
  let anchor := Re.group' 2 m in
  let '(target_file, real_anchor) := find_target files anchor in
  if truthy target_file then
    let target_file := default [] target_file in
    if Str.eqb target_file current_file then
      if truthy real_anchor then
        str "[" ++ text ++ str "](#" ++ default [] real_anchor ++ str ")"
      else
        str "[" ++ text ++ str "](#)"
    else
      if truthy real_anchor then
        str "[" ++ text ++ str "](" ++ target_file ++ str "#"
            ++ default [] real_anchor ++ str ")"
      else
        str "[" ++ text ++ str "](" ++ target_file ++ str ")"
  else Re.m_text m.

Definition restore_links (content_lines : list pystr)
           (anchor_map : gmap pystr pystr) (current_file : pystr)
  : list pystr :=
  map (Re.sub link_pattern (replace_link current_file)) content_lines.
End WithRegistry.

(** [\[(.*?) \{ *(#[^}]+) *\}\]\(([^)]+)\)] *)
Definition attribute_pattern : Re.re :=
  Re.cat [ Re.Lit "["; Re.Grp 1 (Re.Rep false Char.is_dot);
           Re.Lit " "; Re.Lit "{"; Re.Rep true (Char.only " ");
           Re.Grp 2 (Re.Seq (Re.Lit "#") (Re.plus (Char.except "}")));
           Re.Rep true (Char.only " "); Re.Lit "}"; Re.Lit "]";
           Re.Lit "("; Re.Grp 3 (Re.plus (Char.except ")")); Re.Lit ")" ].

Definition replace_attribute (m : Re.rmatch) : pystr :=
  let text := Re.group' 1 m in
  let attr := Str.strip (Re.group' 2 m) in
  let url := Re.group' 3 m in
  str "[" ++ text ++ str "](" ++ url ++ str "){ " ++ attr ++ str " }".

Definition restore_attributes (lines : list pystr) : list pystr :=
  map (Re.sub attribute_pattern replace_attribute) lines.

(** [\[(cb-[^\]]+)\]] *)
Definition cb_pattern : Re.re :=
  Re.cat [ Re.Lit "[";
           Re.Grp 1 (Re.Seq (Re.lits (str "cb-")) (Re.plus (Char.except "]")));
           Re.Lit "]" ].

(** [\[(pledge_[^\]]+)\]] *)
Definition pledge_pattern : Re.re :=
  Re.cat [ Re.Lit "[";
           Re.Grp 1 (Re.Seq (Re.lits (str "pledge_")) (Re.plus (Char.except "]")));
           Re.Lit "]" ].

Definition replace_cb (m : Re.rmatch) : pystr :=
  let cb_id := Re.group' 1 m in
  str "<input type='checkbox' checked id=" ++ [dq] ++ cb_id ++ [dq]
      ++ str " class=" ++ [dq] ++ str "cb-sa" ++ [dq]
      ++ str " onchange=" ++ [dq] ++ str "toggleCheckboxes(event)" ++ [dq]
      ++ str "/>".

Definition replace_pledge (m : Re.rmatch) : pystr :=
  let pledge_name := Re.group' 1 m in
  str "<input type='checkbox' checked name=" ++ [dq] ++ pledge_name ++ [dq]
      ++ str " class=" ++ [dq] ++ str "data-input" ++ [dq] ++ str " />".

Definition restore_checkbox_line (line : pystr) : pystr :=
  let line :=
    if Re.matched (Re.search cb_pattern line)
    then Re.sub cb_pattern replace_cb line else line in
  let line :=
    if Re.matched (Re.search pledge_pattern line)
    then Re.sub pledge_pattern replace_pledge line else line in
  line.

Definition restore_checkboxes (lines : list pystr) : list pystr :=
  map restore_checkbox_line lines.

(** **** [main] *)

Definition DOCS_DIR : pystr := str "docs".
Definition DEBUG_PATH : pystr := str "debug_import_full.md".

(** [os.path.join(a, b)] for a non-empty [a] without a trailing slash. *)
Definition path_join (a b : pystr) : pystr :=
  if Str.startswith (str "/") b then b else a ++ str "/" ++ b.

(** [\n{3,}] *)
Definition blank_run_pattern : Re.re :=
  Re.cat [ Re.Lit nl; Re.Lit nl; Re.Lit nl; Re.Rep true (Char.only nl) ].

(** The text written for one file: the three decoders, the lines
    joined, and the runs of line feeds collapsed. *)
Definition restore_unit (files : list pystr) (anchor_map : gmap pystr pystr)
           (filename : pystr) (lines : list pystr) : pystr :=
  let lines := restore_links files lines anchor_map filename in
  let lines := restore_attributes lines in
  let lines := restore_checkboxes lines in
  let file_content := Str.join [nl] lines in
  Re.sub blank_run_pattern (fun _ => [nl; nl]) file_content.

(** What [main] meets outside the program.  The converter returns a
    text or raises.  A file is written in two steps, as the code does
    it: [open(path, 'w')] returns, and the file is then empty, or it
    raises, and the file is as it was; after that [f.write(text)] and
    the close at the end of the [with] block return, and the file holds
    [text], or one of them raises, and the file holds what had reached
    it by then.  [write_fails e path text] is [None] in the first case
    and [Some rest] in the second, [rest] being what the file is left
    with. *)
Record env : Type := mkEnv {
  convert_file : result pystr;
  writable : pystr -> bool;
  write_fails : pystr -> pystr -> option pystr
}.

Definition file_system := gmap pystr pystr.

(** What [main] does that can be seen from outside, in the order in
    which it does it: a line printed, a file opened for writing, a file
    written and closed. *)
Inductive event : Type :=
| Print (line : pystr)
| Open (path : pystr)
| Write (path text : pystr).

(** How a step ends: what it did, and whether it returned or raised. *)
Record outcome : Type := mkOut {
  log : list event;
  status : result unit
}.

(** [print(line)] *)
Definition say (line : pystr) (fs : file_system) : file_system * outcome :=
  (fs, mkOut [Print line] (Ok tt)).

(** One step after another: when the first raises, the second is not
    run. *)
Definition and_then (first : file_system * outcome)
           (next : file_system -> file_system * outcome)
  : file_system * outcome :=
  match status (snd first) with
  | Ok _ =>
      let second := next (fst first) in
      (fst second,
       mkOut (log (snd first) ++ log (snd second)) (status (snd second)))
  | Raise _ => first
  end.

(** [with open(path, 'w', encoding='utf-8') as f: f.write(text)] *)
Definition write_file (e : env) (path text : pystr) (fs : file_system)
  : file_system * outcome :=
  if writable e path then
    let fs := <[path := []]> fs in
    match write_fails e path text with
    | None => (<[path := text]> fs, mkOut [Open path; Write path text] (Ok tt))
    | Some rest => (<[path := rest]> fs, mkOut [Open path] (Raise (OSError path)))
    end
  else (fs, mkOut [] (Raise (OSError path))).

(** The [for] loop of [main] over [files_content.items()]: a unit is
    announced, restored and written before the next one is looked at. *)
Fixpoint write_units (e : env) (files : list pystr)
         (anchor_map : gmap pystr pystr)
         (items : list (pystr * list pystr)) (fs : file_system)
  : file_system * outcome :=
  match items with
  | [] => (fs, mkOut [] (Ok tt))
  | (filename, lines) :: items' =>
      and_then (say (str "Restoring " ++ filename ++ str "...") fs) (fun fs =>
      let file_content := restore_unit files anchor_map filename lines in
      let filepath := path_join DOCS_DIR filename in
      and_then (write_file e filepath file_content fs) (fun fs =>
      write_units e files anchor_map items' fs))
  end.

(** [main]: the file system it leaves, what it did, and whether it
    returned or raised. *)
Definition main (e : env) (files : list pystr) (fs : file_system)
  : file_system * outcome :=
  and_then (say (str "Converting DOCX to Markdown...") fs) (fun fs =>
  match convert_file e with
  | Raise x => (fs, mkOut [] (Raise x))
  | Ok content =>
      and_then (write_file e DEBUG_PATH content fs) (fun fs =>
      and_then (say (str "Building anchor map...") fs) (fun fs =>
      let anchor_map := build_anchor_map content in
      and_then (say (str "Processing content...") fs) (fun fs =>
      match process_content content anchor_map with
      | Raise x => (fs, mkOut [] (Raise x))
      | Ok files_content =>
          and_then (write_units e files anchor_map files_content fs) (fun fs =>
          say (str "Import complete.") fs)
      end)))
  end).

End ImportDocx.

(* ===================================================================== *)
(** ** export_to_sheets.py                                                *)
(* ===================================================================== *)

Module ExportSheets.

Definition EXCLUDED_COLUMNS : list pystr :=
  [ str "show_name"; str "created_at"; str "first_name"; str "last_name";
    str "affiliation"; str "email"; str "orcid"; str "comment" ].

Section Rows.
(** The values of a record, as the database client returns them. *)
Variable V : Type.

(** A record: a [dict] with string keys. *)
Definition row := gmap pystr V.

(** [{k: v for k, v in row.items() if k not in EXCLUDED_COLUMNS}] *)
Definition anon_row (r : gmap pystr V) : gmap pystr V :=
  filter (fun kv => str_in (fst kv) EXCLUDED_COLUMNS = false) r.

(** [anonymize_data]: [None] and the empty list give the empty list. *)
Definition anonymize_data (data : option (list (gmap pystr V)))
  : list (gmap pystr V) :=
  match data with
  | None => []
  | Some [] => []
  | Some rows => map anon_row rows
  end.
End Rows.

End ExportSheets.

(* ===================================================================== *)
(** ** export_to_sheets.py: the long format and the table                 *)
(* ===================================================================== *)

(** The long format follows the order of the columns of a record, so
    here a record is the list of its items, as [row.items()] gives them:
    a [dict] in insertion order, each key once. *)
Module LongFormat.

Definition IDENTIFIER_COLUMNS : list pystr :=
  [ str "id"; str "gender"; str "career_stage"; str "country_of_origin";
    str "age"; str "country_of_residence" ].

(** [row.get(k)] *)
Fixpoint get {X : Type} (k : pystr) (r : list (pystr * X)) : option X :=
  match r with
  | [] => None
  | (k', x) :: r' => if Str.eqb k k' then Some x else get k r'
  end.

Section Records.
(** The values of a record, as the database client returns them. *)
Variable V : Type.

Definition record := list (pystr * V).

(** What a long row and the table hold: a value of a record, [None]
    where [get] finds no column, or a column name. *)
Inductive cell : Type :=
| PyNone
| Val (v : V)
| Name (s : pystr).

(** [{k: v for k, v in row.items() if k not in EXCLUDED_COLUMNS}], in
    the order of the items. *)
Definition anon_row (r : record) : record :=
  List.filter (fun kv => negb (str_in (fst kv) ExportSheets.EXCLUDED_COLUMNS)) r.

(** [anonymize_data] on records in column order. *)
Definition anonymize_data (data : option (list record)) : list record :=
  match data with
  | None => []
  | Some [] => []
  | Some rows => map anon_row rows
  end.

(** [{k: v for k, v in row.items() if k.startswith('pledge_')}] *)
Definition pledge_columns (r : record) : record :=
  List.filter (fun kv => Str.startswith (str "pledge_") (fst kv)) r.

(** The body of the inner loop: the row built for one pledge column. *)
Definition long_row (r : record) (pledge_name : pystr) (pledge_value : V)
  : list (pystr * cell) :=
  let long_row :=
    fold_left
      (fun d id_col =>
         dict_set id_col
                  (match get id_col r with Some v => Val v | None => PyNone end)
                  d)
      IDENTIFIER_COLUMNS [] in
  let long_row := dict_set (str "pledge") (Name pledge_name) long_row in
  let long_row := dict_set (str "value") (Val pledge_value) long_row in
  long_row.

Definition convert_to_long_format (data : list record)
  : list (list (pystr * cell)) :=
  match data with
  | [] => []
  | _ =>
      flat_map
        (fun row =>
           map (fun kv => long_row row (fst kv) (snd kv)) (pledge_columns row))
        data
  end.

(** The table [export_to_google_sheets] builds and sends, [values]:
    nothing is sent for no data; otherwise the first line has the first
    eight column names of the first row, and every row gives a line with
    what it has in those columns. *)
Definition sheet_values (data : list (list (pystr * cell)))
  : option (list (list cell)) :=
  match data with
  | [] => None
  | first :: _ =>
      let headers := map fst first in
      let headers := take 8 headers in
      Some (map Name headers
            :: map (fun row =>
                      map (fun col => default PyNone (get col row)) headers)
                   data)
  end.

(** [main] from the fetched records to the table sent: a failed fetch
    ends the run. *)
Definition main_table (fetched : option (list record))
  : option (list (list cell)) :=
  match fetched with
  | None => None
  | Some data =>
      let anonymized_data := anonymize_data (Some data) in
      let long_format_data := convert_to_long_format anonymized_data in
      sheet_values long_format_data
  end.

End Records.

Arguments PyNone {V}.
Arguments Val {V} v.
Arguments Name {V} s.

(** The columns the long format reads. *)
Definition is_read (k : pystr) : bool :=
  str_in k IDENTIFIER_COLUMNS || Str.startswith (str "pledge_") k.

End LongFormat.

(* ===================================================================== *)
(** ** Notions the properties are stated with                             *)
(* ===================================================================== *)

(** The indent stack of the reconstruction ends with the frame it is
    seeded with, and no frame has a negative indent. *)
Definition stack_ok (stack : list (Z * option pystr)) : Prop :=
  last stack = Some ImportDocx.seed_frame
  /\ Forall (fun f => (0 <= fst f)%Z) stack.

(** The increment of the indent at a block start, by block type and
    parameter, as the specification lists it. *)
Definition spec_increment (block_type parameter : pystr) : Z :=
  if Str.eqb block_type (str "html") then
    if Str.contains (str "ul.tasklist") parameter then 2
    else if Str.contains (str "li") parameter then 2
    else 4
  else if Str.eqb block_type (str "details") then 0
  else 4.

(** The unit a link target names: what comes before its first [#]. *)
Definition link_unit (target : pystr) : pystr :=
  default [] (head (Str.split "#" target)).

(** The encoded name of a unit: its file name with every dot replaced by
    an underscore. *)
Definition encoded_name (filename : pystr) : pystr :=
  Str.replace_char "." "_" filename.

(** An anchor that reads as an encoded reference to the unit [filename]:
    the encoded name itself, or the encoded name and a double underscore
    followed by anything. *)
Definition reads_as_unit (anchor filename : pystr) : Prop :=
  anchor = encoded_name filename
  \/ Str.startswith (encoded_name filename ++ str "__") anchor = true.

(** The bracketed tokens and the canonical control elements, the latter
    as the comments of [process_checkboxes] show them. *)
Definition cb_token (x : pystr) : pystr := str "[cb-" ++ x ++ str "]".

Definition pledge_token (x : pystr) : pystr := str "[pledge_" ++ x ++ str "]".

Definition cb_control (x : pystr) : pystr :=
  str "<input type='checkbox' checked id=" ++ [dq] ++ str "cb-" ++ x ++ [dq]
      ++ str " class=" ++ [dq] ++ str "cb-sa" ++ [dq]
      ++ str " onchange=" ++ [dq] ++ str "toggleCheckboxes(event)" ++ [dq]
      ++ str "/>".

Definition pledge_control (x : pystr) : pystr :=
  str "<input type='checkbox' checked name=" ++ [dq] ++ str "pledge_" ++ x
      ++ [dq] ++ str " class=" ++ [dq] ++ str "data-input" ++ [dq] ++ str " />".

(** What the two export patterns read from the attribute on. *)
Definition cb_input_tail : Re.re :=
  Re.cat
    [ Re.lits (str "id="); Re.Lit dq;
      Re.Grp 1 (Re.Seq (Re.lits (str "cb-")) (Re.plus (Char.except dq)));
      Re.Lit dq; Re.Rep true (Char.except ">"); Re.Lit ">" ].

Definition pledge_input_tail : Re.re :=
  Re.cat
    [ Re.lits (str "name="); Re.Lit dq;
      Re.Grp 1 (Re.Seq (Re.lits (str "pledge_")) (Re.plus (Char.except dq)));
      Re.Lit dq; Re.Rep true (Char.except ">"); Re.Lit ">" ].

(** A linear document with two units: an encoded annotated link in the
    first; a control token, an unmatched block end, a block and a block
    end joined to its content in the second. *)
Definition example_document : pystr :=
  str "**=== FILE: introduction.md ===** {#introduction-md}" ++ [nl; nl]
  ++ str "See [Go { #y }](#validity_md__x)" ++ [nl; nl]
  ++ str "**=== FILE: validity.md ===** {#validity-md}" ++ [nl; nl]
  ++ str "[cb-1-1]" ++ [nl; nl] ++ str "Text" ++ [nl]
  ++ str "///" ++ [nl] ++ str "/// details | T" ++ [nl; nl]
  ++ str "type: info" ++ [nl; nl] ++ str "body ///" ++ [nl].

(** A unit name as a marker line gives it: a non-empty run of word
    characters, dots and hyphens. *)
Definition marker_name (name : pystr) : Prop :=
  name <> [] /\ forallb Char.is_anchor_char name = true.

(** The marker line the export writes before a unit, without the line
    feeds around it. *)
Definition marker_line (filename : pystr) : pystr :=
  str "**=== FILE: " ++ filename ++ str " ===** {#"
      ++ Str.lower (Str.replace_char "." "-" filename) ++ str "}".

(** The unit names the marker lines of a list of lines give, in order. *)
Definition marker_names (lines : list pystr) : list pystr :=
  omap (fun line =>
          Re.group' 1 <$> Re.search ImportDocx.file_marker_pattern line)
       lines.

(** The text of a list of lines: the lines stripped, without those that
    are blank. *)
Definition stripped_text (lines : list pystr) : list pystr :=
  List.filter (fun t => negb (Str.eqb t [])) (map Str.strip lines).

(** The path of the file of a unit, the line printed before the unit is
    restored, what a unit that is written in full adds to the log, and
    the file system after units have been written in full. *)
Definition unit_path (name : pystr) : pystr :=
  ImportDocx.path_join ImportDocx.DOCS_DIR name.

Definition restoring_line (name : pystr) : pystr :=
  str "Restoring " ++ name ++ str "...".

Definition unit_log (files : list pystr) (am : gmap pystr pystr)
           (u : pystr * list pystr) : list ImportDocx.event :=
  [ ImportDocx.Print (restoring_line (fst u));
    ImportDocx.Open (unit_path (fst u));
    ImportDocx.Write (unit_path (fst u))
                     (ImportDocx.restore_unit files am (fst u) (snd u)) ].

Definition store_units (files : list pystr) (am : gmap pystr pystr)
           (us : list (pystr * list pystr)) (fs : ImportDocx.file_system)
  : ImportDocx.file_system :=
  fold_left
    (fun fs u =>
       <[unit_path (fst u) := ImportDocx.restore_unit files am (fst u) (snd u)]>
         fs)
    us fs.

(** What [main] has printed and written when the loop over the units
    starts. *)
Definition log_before_units (content : pystr) : list ImportDocx.event :=
  [ ImportDocx.Print (str "Converting DOCX to Markdown...");
    ImportDocx.Open ImportDocx.DEBUG_PATH;
    ImportDocx.Write ImportDocx.DEBUG_PATH content;
    ImportDocx.Print (str "Building anchor map...");
    ImportDocx.Print (str "Processing content...") ].

(** A run in which the second unit of the example document cannot be
    written to the end: every file can be opened, and the write to
    [docs/validity.md] raises when twenty characters have reached the
    file.  Before the run the file holds an older text. *)
Definition env_write_cut : ImportDocx.env :=
  ImportDocx.mkEnv
    (Ok example_document) (fun _ => true)
    (fun path text =>
       if Str.eqb path (str "docs/validity.md") then Some (take 20 text)
       else None).

Definition files_before : ImportDocx.file_system :=
  <[str "docs/validity.md" := str "The text of before."]> ∅.

(* ===================================================================== *)
(** * Properties                                                          *)
(* ===================================================================== *)

(** ** Facts about the string functions *)

Section StrFacts.

Lemma char_eqb_eq (a b : ascii) : Char.eqb a b = true <-> a = b.
Proof. apply Ascii.eqb_eq. Qed.

Lemma char_eqb_refl (a : ascii) : Char.eqb a a = true.
Proof. by apply char_eqb_eq. Qed.

Lemma char_eqb_neq (a b : ascii) : Char.eqb a b = false <-> a <> b.
Proof. apply Ascii.eqb_neq. Qed.

Lemma str_eqb_eq (a b : pystr) : Str.eqb a b = true <-> a = b.
Proof.
  revert b. induction a as [|x a IH]; intros [|y b]; simpl; try done.
  rewrite andb_true_iff, char_eqb_eq, IH. split.
  - by intros [-> ->].
  - intros [= -> ->]. done.
Qed.

Lemma str_eqb_refl (a : pystr) : Str.eqb a a = true.
Proof. by apply str_eqb_eq. Qed.

Lemma str_eqb_neq (a b : pystr) : Str.eqb a b = false <-> a <> b.
Proof.
  rewrite <- not_true_iff_false, str_eqb_eq. done.
Qed.

Lemma startswith_iff (p s : pystr) :
  Str.startswith p s = true <-> exists t, s = p ++ t.
Proof.
  revert s. induction p as [|x p IH]; intros s; simpl.
  - split; eauto.
  - destruct s as [|y s].
    + split; [done | intros [t Ht]; done].
    + rewrite andb_true_iff, char_eqb_eq, IH. split.
      * intros [-> [t ->]]. eauto.
      * intros [t [= -> ->]]. eauto.
Qed.

Lemma startswith_app (p t : pystr) : Str.startswith p (p ++ t) = true.
Proof. apply startswith_iff. eauto. Qed.

Lemma str_in_iff (x : pystr) (xs : list pystr) :
  str_in x xs = true <-> x ∈ xs.
Proof.
  unfold str_in. rewrite existsb_exists. split.
  - intros [y [Hy He]]. apply str_eqb_eq in He as ->.
    by apply list_elem_of_In.
  - intros H. exists x. split; [by apply list_elem_of_In | apply str_eqb_refl].
Qed.

Lemma str_in_false (x : pystr) (xs : list pystr) :
  str_in x xs = false <-> x ∉ xs.
Proof. rewrite <- not_true_iff_false, str_in_iff. done. Qed.

Lemma drop_while_all (f : ascii -> bool) (w s : pystr) :
  forallb f w = true ->
  Str.drop_while f (w ++ s) = Str.drop_while f s.
Proof.
  induction w as [|c w IH]; simpl; [done|].
  intros [Hc Hw]%andb_true_iff. rewrite Hc. auto.
Qed.

Lemma take_app_minus (w s : pystr) :
  take (length (w ++ s) - length s) (w ++ s) = w.
Proof.
  rewrite length_app.
  replace (length w + length s - length s) with (length w) by lia.
  by rewrite take_app_length.
Qed.

End StrFacts.

(** ** export_to_sheets.py: the anonymized records *)

Section AnonFacts.
Import ExportSheets.
Context {V : Type}.

Lemma anon_row_excluded (r : gmap pystr V) (k : pystr) :
  k ∈ EXCLUDED_COLUMNS -> anon_row V r !! k = None.
Proof.
  intros Hk. unfold anon_row. apply map_lookup_filter_None. right.
  apply str_in_iff in Hk. intros v _ Hf. cbn [fst] in Hf. congruence.
Qed.

Lemma anon_row_kept (r : gmap pystr V) (k : pystr) :
  k ∉ EXCLUDED_COLUMNS -> anon_row V r !! k = r !! k.
Proof.
  intros Hk. apply str_in_false in Hk. unfold anon_row.
  destruct (r !! k) as [v|] eqn:Hr.
  - apply map_lookup_filter_Some. done.
  - apply map_lookup_filter_None. by left.
Qed.

Lemma anonymize_data_map (rows : list (gmap pystr V)) :
  anonymize_data V (Some rows) = map (anon_row V) rows.
Proof. by destruct rows. Qed.

Lemma anon_row_agree (r1 r2 : gmap pystr V) :
  (forall k, k ∉ EXCLUDED_COLUMNS -> r1 !! k = r2 !! k) ->
  anon_row V r1 = anon_row V r2.
Proof.
  intros H. apply map_eq. intros k.
  destruct (decide (k ∈ EXCLUDED_COLUMNS)) as [Hk|Hk].
  - by rewrite !anon_row_excluded.
  - rewrite !anon_row_kept by done. auto.
Qed.

(** C10. Every record [anonymize_data] returns stands at the place of its
    input record, has none of the keys of [EXCLUDED_COLUMNS], and gives
    every other key the value the input record gives it; hence two
    inputs whose records differ in excluded columns only are anonymized
    to the same list. *)
Theorem anonymize_data_noninterference (data : list (gmap pystr V)) :
  anonymize_data V None = []
  /\ length (anonymize_data V (Some data)) = length data
  /\ (forall (i : nat) (r r' : gmap pystr V),
        data !! i = Some r ->
        anonymize_data V (Some data) !! i = Some r' ->
        (forall k, k ∈ EXCLUDED_COLUMNS -> r' !! k = None)
        /\ (forall k, k ∉ EXCLUDED_COLUMNS -> r' !! k = r !! k))
  /\ (forall data' : list (gmap pystr V),
        Forall2 (fun r1 r2 =>
                   forall k, k ∉ EXCLUDED_COLUMNS -> r1 !! k = r2 !! k)
                data data' ->
        anonymize_data V (Some data) = anonymize_data V (Some data')).
Proof.
  rewrite anonymize_data_map. repeat split.
  - by rewrite length_map.
  - intros k Hk. rewrite list_lookup_fmap, H in H0. simpl in H0.
    injection H0 as <-. by apply anon_row_excluded.
  - intros k Hk. rewrite list_lookup_fmap, H in H0. simpl in H0.
    injection H0 as <-. by apply anon_row_kept.
  - intros data' HF. rewrite anonymize_data_map.
    induction HF as [|r1 r2 l1 l2 Hr _ IH]; simpl; [done|].
    f_equal; [by apply anon_row_agree | done].
Qed.

End AnonFacts.

(** ** Facts about the matcher *)

Section ReFacts.
Import Re.
Context {A : Type}.

(** A greedy repeat that can take the whole of [w] and no more goes on
    after [w] when the rest of the pattern matches there. *)
Lemma rep_greedy_max (p : ascii -> bool) (k : pystr -> option A)
      (w s : pystr) (x : A) :
  forallb p w = true ->
  match s with [] => True | c :: _ => p c = false end ->
  k s = Some x ->
  rep_greedy p k (w ++ s) = Some x.
Proof.
  intros Hw Hs Hk. induction w as [|c w IH]; simpl.
  - destruct s as [|c s]; simpl; [done|]. by rewrite Hs.
  - simpl in Hw. apply andb_true_iff in Hw as [Hc Hw].
    rewrite Hc, IH by done. done.
Qed.

(** A repeat fails when the rest of the pattern fails at every suffix. *)
Lemma rep_greedy_none (p : ascii -> bool) (k : pystr -> option A) (s : pystr) :
  (forall s', s' `suffix_of` s -> k s' = None) ->
  rep_greedy p k s = None.
Proof.
  induction s as [|c s IH]; intros Hk; simpl.
  - by apply Hk.
  - rewrite IH.
    + destruct (p c); by apply Hk.
    + intros s' Hs'. apply Hk. by apply suffix_cons_r.
Qed.

Lemma rep_lazy_none (p : ascii -> bool) (k : pystr -> option A) (s : pystr) :
  (forall s', s' `suffix_of` s -> k s' = None) ->
  rep_lazy p k s = None.
Proof.
  induction s as [|c s IH]; intros Hk; simpl.
  - by rewrite Hk.
  - rewrite Hk by done. destruct (p c); [|done].
    apply IH. intros s' Hs'. apply Hk. by apply suffix_cons_r.
Qed.

(** A pattern fails when what follows it fails at every suffix. *)
Lemma run_none (r : re) (s : pystr) (cs : caps)
      (k : pystr -> caps -> option A) :
  (forall s' cs', s' `suffix_of` s -> k s' cs' = None) ->
  run r s cs k = None.
Proof.
  revert s cs k.
  induction r as [| c | p | a IHa b IHb | g p | n r IH | r IH | ];
    intros s cs k Hk; simpl.
  - by apply Hk.
  - destruct s as [|c' t]; [done|]. destruct (Char.eqb c c'); [|done].
    apply Hk. by apply suffix_cons_r.
  - destruct s as [|c' t]; [done|]. destruct (p c'); [|done].
    apply Hk. by apply suffix_cons_r.
  - apply IHa. intros s' cs' Hs'. apply IHb. intros s'' cs'' Hs''.
    apply Hk. by etrans.
  - destruct g; [apply rep_greedy_none | apply rep_lazy_none]; auto.
  - apply IH. intros s' cs' Hs'. by apply Hk.
  - rewrite IH by done. by apply Hk.
  - destruct s as [|[[] [] [] [] [] [] [] []] [|? ?]]; try done; by apply Hk.
Qed.

(** A literal string matches exactly itself. *)
Lemma run_lits_app (w s : pystr) (cs : caps) (k : pystr -> caps -> option A) :
  run (lits w) (w ++ s) cs k = k s cs.
Proof.
  revert k. induction w as [|c w IH]; intros k; simpl; [done|].
  by rewrite char_eqb_refl, IH.
Qed.

End ReFacts.

Section SubFacts.
Import Re.

Lemma search_here (r : re) (s : pystr) (m : rmatch) :
  match_at r s = Some m -> search r s = Some m.
Proof. intros H. destruct s; simpl; by rewrite H. Qed.

Lemma search_none (r : re) (s : pystr) :
  (forall s', s' `suffix_of` s -> match_at r s' = None) ->
  search r s = None.
Proof.
  induction s as [|c s IH]; intros H; simpl.
  - by rewrite H.
  - rewrite H by done. apply IH. intros s' Hs'. apply H.
    by apply suffix_cons_r.
Qed.

Lemma sub_from_skip (r : re) (f : rmatch -> pystr) (w s : pystr) :
  sub_from r f (length w) (w ++ s) = sub_from r f 0 s.
Proof. induction w as [|c w IH]; simpl; [by destruct s | done]. Qed.

(** A non-empty match at the head is replaced, and the scan goes on
    after it. *)
Lemma sub_match (r : re) (f : rmatch -> pystr) (s rest : pystr) (m : rmatch) :
  match_at r s = Some m ->
  m_text m <> [] ->
  s = m_text m ++ rest ->
  sub r f s = f m ++ sub r f rest.
Proof.
  intros Hm Hne Hs. unfold sub.
  destruct s as [|c t].
  - destruct (m_text m); done.
  - simpl. rewrite Hm. f_equal.
    destruct (m_text m) as [|c' w] eqn:E; [done|].
    simpl in Hs. injection Hs as -> ->. simpl. apply sub_from_skip.
Qed.

Lemma sub_nil (r : re) (f : rmatch -> pystr) :
  match_at r [] = None -> sub r f [] = [].
Proof. unfold sub. simpl. by intros ->. Qed.

(** Without a match at any position the text is returned as it is. *)
Lemma sub_no_match (r : re) (f : rmatch -> pystr) (s : pystr) :
  (forall s', s' `suffix_of` s -> match_at r s' = None) ->
  sub r f s = s.
Proof.
  unfold sub. induction s as [|c s IH]; intros H; simpl.
  - by rewrite H.
  - rewrite H by done. f_equal. apply IH. intros s' Hs'. apply H.
    by apply suffix_cons_r.
Qed.

End SubFacts.

(** ** export_docx.py: the flattening of blocks *)

Section FlattenFacts.
Import ExportDocx.

Lemma unindent_step_depth (st : flat_state) (line : pystr) :
  (0 <= stack_depth st)%Z -> (0 <= stack_depth (unindent_step st line))%Z.
Proof.
  intros H. unfold unindent_step.
  destruct (Re.matched (Re.match_at block_start_pattern line)); simpl; [lia|].
  destruct (Re.matched (Re.match_at block_end_pattern line)); simpl.
  - destruct (stack_depth st - 1 <? 0)%Z eqn:E; [done|]. lia.
  - by destruct (needs_separator _).
Qed.

Lemma unindent_fold_depth (lines : list pystr) (st : flat_state) :
  (0 <= stack_depth st)%Z ->
  (0 <= stack_depth (fold_left unindent_step lines st))%Z.
Proof.
  revert st. induction lines as [|l lines IH]; intros st H; simpl; [done|].
  apply IH. by apply unindent_step_depth.
Qed.

(** The number of spaces a line begins with is at least [n] exactly when
    the line is [n] spaces followed by something. *)
Lemma leading_spaces_ge (n : nat) (line : pystr) :
  n <= length line - length (Str.lstrip_spaces line)
  <-> exists rest, line = repeat " " n ++ rest.
Proof.
  unfold Str.lstrip_spaces. revert n.
  induction line as [|c line IH]; intros n; cbn -[Nat.sub].
  - split.
    + intros H. assert (n = 0) as -> by lia. by exists [].
    + intros [rest H]. destruct n; [lia | done].
  - destruct n as [|n]; [split; [by exists (c :: line) | lia]|].
    destruct (Char.only " " c) eqn:E.
    + apply char_eqb_eq in E as <-.
      assert (length (Str.drop_while (Char.only " ") line) <= length line).
      { clear. induction line as [|c l IH]; simpl; [done|].
        destruct (Char.only " " c); simpl. all: lia. }
      specialize (IH n). split.
      * intros Hn. destruct IH as [[rest ->] _]; [lia|]. by exists rest.
      * intros [rest [= ->]]. destruct IH as [_ IH].
        specialize (IH (ex_intro _ rest eq_refl)). lia.
    + split; [cbn -[Nat.sub]; lia|]. intros [rest [= -> _]]. by vm_compute in E.
Qed.

Lemma rstrip_nil_iff (s : pystr) :
  Str.rstrip s = [] <-> forallb Char.is_space s = true.
Proof.
  unfold Str.rstrip.
  assert (forall l, Str.drop_while Char.is_space l = [] <->
                    forallb Char.is_space l = true) as Hd.
  { induction l as [|c l IH]; simpl; [done|].
    destruct (Char.is_space c); simpl; [done|]. split; done. }
  split.
  - intros H. apply (f_equal (@rev ascii)) in H. rewrite rev_involutive in H.
    simpl in H. apply Hd in H. rewrite forallb_forall in *.
    intros x Hx. apply H. by apply in_rev in Hx.
  - intros H. replace (Str.drop_while Char.is_space (rev s)) with (@nil ascii);
      [done|]. symmetry. apply Hd. rewrite forallb_forall in *.
    intros x Hx. apply H. by apply in_rev.
Qed.

Lemma lstrip_spec (s : pystr) :
  exists ws, s = ws ++ Str.lstrip s
             /\ forallb Char.is_space ws = true
             /\ match Str.lstrip s with
                | [] => True
                | c :: _ => Char.is_space c = false
                end.
Proof.
  unfold Str.lstrip. induction s as [|c s IH]; simpl.
  - by exists [].
  - destruct (Char.is_space c) eqn:E.
    + destruct IH as [ws [Hs [Hw Hh]]]. exists (c :: ws). simpl.
      rewrite E, Hw. split; [by f_equal | done].
    + exists []. done.
Qed.

(** A line is blank, [line.strip() == ''], exactly when it holds white
    space only. *)
Lemma strip_nil_iff (s : pystr) :
  Str.strip s = [] <-> forallb Char.is_space s = true.
Proof.
  unfold Str.strip. rewrite rstrip_nil_iff.
  destruct (lstrip_spec s) as [ws [Hs [Hw Hh]]].
  rewrite Hs at 2. rewrite forallb_app, Hw. simpl. done.
Qed.

Lemma process_line_spec (d : Z) (line : pystr) :
  (0 <= d)%Z ->
  let n := (4 * Z.to_nat d)%nat in
  (forall rest, line = repeat " " n ++ rest -> process_line d line = rest)
  /\ ((~ exists rest, line = repeat " " n ++ rest) ->
      (forallb Char.is_space line = true -> process_line d line = [])
      /\ (forallb Char.is_space line = false ->
          exists ws, line = ws ++ process_line d line
                     /\ forallb Char.is_space ws = true
                     /\ match process_line d line with
                        | [] => False
                        | c :: _ => Char.is_space c = false
                        end)).
Proof.
  intros Hd n. unfold process_line.
  pose proof (leading_spaces_ge n line) as Hl.
  assert (forall a b : nat, (Z.of_nat a - Z.of_nat b = Z.of_nat (a - b))%Z
                            \/ (a < b)%nat) as Hsub by lia.
  assert (length (Str.lstrip_spaces line) <= length line)%nat as Hle.
  { unfold Str.lstrip_spaces. clear. induction line as [|c l IH]; simpl; [done|].
    destruct (Char.only " " c); simpl; lia. }
  destruct (d * 4 <=? Z.of_nat (length line)
                      - Z.of_nat (length (Str.lstrip_spaces line)))%Z eqn:E.
  - apply Z.leb_le in E.
    assert (n <= length line - length (Str.lstrip_spaces line))%nat as Hn
      by (unfold n; lia).
    apply Hl in Hn as [rest0 ->]. split.
    + intros rest Hr. apply app_inv_head in Hr as <-.
      unfold Str.slice_from.
      replace (0 <=? d * 4)%Z with true by (symmetry; apply Z.leb_le; lia).
      replace (Z.to_nat (d * 4)) with (length (repeat " " n))
        by (rewrite repeat_length; unfold n; lia).
      by rewrite drop_app_length.
    + intros Hno. exfalso. apply Hno. eauto.
  - apply Z.leb_gt in E. split.
    + intros rest Hr. exfalso.
      assert (n <= length line - length (Str.lstrip_spaces line))%nat as Hn
        by (apply Hl; eauto).
      unfold n in Hn. lia.
    + intros _. split.
      * intros Hb. apply strip_nil_iff in Hb. rewrite Hb. done.
      * intros Hb. destruct (Str.eqb (Str.strip line) []) eqn:Es.
        { apply str_eqb_eq, strip_nil_iff in Es. congruence. }
        destruct (lstrip_spec line) as [ws [Hs [Hw Hh]]].
        exists ws. split; [done|]. split; [done|].
        destruct (Str.lstrip line) as [|c t] eqn:El; [|done].
        rewrite app_nil_r in Hs. congruence.
Qed.

(** C5. On a line that is neither a block start nor a block end, at
    depth [d], the flattening step leaves the depth as it is and emits
    one line (followed by a blank line when the line is a metadata or
    control line): the input without its first [4 * d] characters when
    it begins with [4 * d] spaces; otherwise the empty line when the
    input holds white space only, and the input without its leading
    white space when it does not. *)
Theorem flatten_content_rule (st : flat_state) (line : pystr) :
  (0 <= stack_depth st)%Z ->
  Re.match_at block_start_pattern line = None ->
  Re.match_at block_end_pattern line = None ->
  let n := (4 * Z.to_nat (stack_depth st))%nat in
  let st' := unindent_step st line in
  exists emitted : pystr,
    stack_depth st' = stack_depth st
    /\ (new_lines st' = new_lines st ++ [emitted]
        \/ new_lines st' = new_lines st ++ [emitted; []])
    /\ (forall rest, line = repeat " " n ++ rest -> emitted = rest)
    /\ ((~ exists rest, line = repeat " " n ++ rest) ->
        (forallb Char.is_space line = true -> emitted = [])
        /\ (forallb Char.is_space line = false ->
            exists ws, line = ws ++ emitted
                       /\ forallb Char.is_space ws = true
                       /\ match emitted with
                          | [] => False
                          | c :: _ => Char.is_space c = false
                          end)).
Proof.
  intros Hd Hs He n st'. exists (process_line (stack_depth st) line).
  subst st'. unfold unindent_step. rewrite Hs, He. simpl.
  destruct (process_line_spec (stack_depth st) line Hd) as [H1 H2].
  destruct (needs_separator _); simpl; auto.
Qed.

Lemma flatten_content_rule_witness :
  new_lines (unindent_step (mkFlat [] 1) (str "      body")) = [str "  body"].
Proof.
  destruct (flatten_content_rule (mkFlat [] 1) (str "      body"))
    as [emitted [_ [Hout [Hrest _]]]];
    [simpl; lia | reflexivity | reflexivity |].
  rewrite (Hrest (str "  body") eq_refl) in Hout.
  destruct Hout as [Hout | Hout]; [exact Hout | vm_compute in Hout; discriminate Hout].
Defined.

End FlattenFacts.

(** ** import_docx.py: the indent stack *)

Section StackFacts.
Import ImportDocx.

Lemma stack_ok_seed : stack_ok [seed_frame].
Proof. split; [done|]. by repeat constructor. Qed.

Lemma block_indent_ge (c : Z) (t rest : pystr) : (c <= block_indent c t rest)%Z.
Proof.
  unfold block_indent.
  repeat match goal with |- context [if ?b then _ else _] => destruct b end; lia.
Qed.

Lemma indent_step_ok (st : pc_state) (line : pystr) :
  stack_ok (indent_stack st) ->
  exists st', indent_step st line = Ok st' /\ stack_ok (indent_stack st').
Proof.
  intros [Hlast Hall]. unfold indent_step.
  destruct (indent_stack st) as [|[c t] stack] eqn:Est; [done|].
  simpl. apply Forall_cons in Hall as [Hc Hall]. simpl in Hc.
  destruct (Re.match_at block_start_pattern line) as [m|].
  - eexists. split; [done|]. simpl. split.
    + by rewrite last_cons, Hlast.
    + constructor; [|by constructor]. simpl.
      pose proof (block_indent_ge c (Re.group' 1 m) (Re.group' 2 m)). lia.
  - destruct (Re.matched (Re.match_at block_end_pattern line)).
    + destruct stack as [|[c' t'] stack'] eqn:Es; simpl.
      * eexists. split; [done|]. simpl. split; [done|]. by repeat constructor.
      * eexists. split; [done|]. simpl. split; [|done].
        rewrite last_cons in Hlast.
        destruct (last ((c', t') :: stack')) eqn:El; [congruence|].
        by apply last_None in El.
    + assert (stack_ok ((c, t) :: stack)) as Hok.
      { split; [done|]. by constructor. }
      destruct (is_type t _).
      * eexists. split; [reflexivity|]. exact Hok.
      * destruct (Str.eqb (Str.strip line) []); eexists;
          (split; [reflexivity|]); exact Hok.
Qed.

Lemma content_step_ok (st : pc_state) (line : pystr) :
  stack_ok (indent_stack st) ->
  exists st', content_step st line = Ok st' /\ stack_ok (indent_stack st').
Proof.
  intros Hok. unfold content_step.
  destruct (Re.search file_marker_pattern line).
  - eexists. split; [done|]. apply stack_ok_seed.
  - destruct (current_file st); [by apply indent_step_ok | eauto].
Qed.

Lemma content_loop_ok (lines : list pystr) (st : pc_state) :
  stack_ok (indent_stack st) ->
  exists st', content_loop st lines = Ok st' /\ stack_ok (indent_stack st').
Proof.
  revert st. induction lines as [|l lines IH]; intros st Hok; simpl; [eauto|].
  destruct (content_step_ok st l Hok) as [st1 [-> Hok1]]. simpl.
  by apply IH.
Qed.

(** An end marker met with the seed frame alone leaves the stack as it
    is. *)
Lemma indent_step_end_at_seed (st : pc_state) (line : pystr) :
  indent_stack st = [seed_frame] ->
  Re.match_at block_start_pattern line = None ->
  Re.matched (Re.match_at block_end_pattern line) = true ->
  exists st', indent_step st line = Ok st'
              /\ indent_stack st' = [seed_frame]
              /\ current_buffer st' = current_buffer st ++ [line].
Proof.
  intros Hs H1 H2. unfold indent_step. rewrite Hs, H1, H2. simpl.
  eexists. split; [done|]. done.
Qed.

(** C4. Whatever the input, unmatched block ends included: the
    flattening depth is never negative, after any number of lines, and
    a block end met at depth 0 leaves it at 0; the reconstruction
    returns without raising, and after any number of lines its indent
    stack still ends with the seed frame and holds no negative indent; a
    block end met with the seed frame alone leaves the stack as it is
    and is emitted at indent 0. *)
Theorem depth_clamping_robust (content : pystr)
        (anchor_map : gmap pystr pystr) :
  (forall n : nat,
      (0 <= ExportDocx.stack_depth
              (ExportDocx.unindent_run (take n (Str.split nl content))))%Z)
  /\ (forall (st : ExportDocx.flat_state) (line : pystr),
        ExportDocx.stack_depth st = 0%Z ->
        Re.match_at ExportDocx.block_start_pattern line = None ->
        Re.matched (Re.match_at ExportDocx.block_end_pattern line) = true ->
        ExportDocx.stack_depth (ExportDocx.unindent_step st line) = 0%Z)
  /\ (exists fc, process_content content anchor_map = Ok fc)
  /\ (forall n : nat,
        exists st, content_loop pc_init (take n (split_lines content)) = Ok st
                   /\ stack_ok (indent_stack st))
  /\ (forall (st : pc_state) (line : pystr),
        indent_stack st = [seed_frame] ->
        Re.match_at block_start_pattern line = None ->
        Re.matched (Re.match_at block_end_pattern line) = true ->
        exists st', indent_step st line = Ok st'
                    /\ indent_stack st' = [seed_frame]
                    /\ current_buffer st' = current_buffer st ++ [line]).
Proof.
  split; [|split; [|split; [|split]]].
  - intros n. by apply unindent_fold_depth.
  - intros st line Hd Hs He. unfold ExportDocx.unindent_step.
    rewrite Hs, He, Hd. done.
  - unfold process_content.
    destruct (content_loop_ok (split_lines content) pc_init stack_ok_seed)
      as [st [-> _]].
    simpl. eauto.
  - intros n. apply content_loop_ok, stack_ok_seed.
  - apply indent_step_end_at_seed.
Qed.

(** The flattening of a text that starts with an unmatched block end:
    the block after it is flattened from depth 0. *)
Example unmatched_end_example :
  ExportDocx.unindent_blocks
    (str "///" ++ [nl] ++ str "/// details | T" ++ [nl]
         ++ str "    type: info" ++ [nl] ++ str "    body" ++ [nl] ++ str "///")
  = str "///" ++ [nl; nl] ++ str "/// details | T" ++ [nl; nl]
        ++ str "type: info" ++ [nl; nl] ++ str "body" ++ [nl]
        ++ str "///" ++ [nl].
Proof. vm_compute. reflexivity. Qed.

End StackFacts.

(** ** import_docx.py: block starts and the indent of content *)

Section IndentFacts.
Import ImportDocx.

Lemma word_not_space (c : ascii) :
  Char.is_word c = true -> Char.is_space c = false.
Proof. destruct c as [[] [] [] [] [] [] [] []]; vm_compute; congruence. Qed.

Lemma take_minus_nil (s : pystr) : take (length s - length (@nil ascii)) s = s.
Proof. simpl. rewrite Nat.sub_0_r. apply firstn_all. Qed.

(** What [block_start_pattern] reads on a start line: the word after the
    sigil and the rest of the line. *)
Lemma match_at_block_start (ws1 ws2 word rest : pystr) :
  forallb Char.is_space ws1 = true ->
  forallb Char.is_space ws2 = true -> ws2 <> [] ->
  forallb Char.is_word word = true -> word <> [] ->
  match rest with [] => True | c :: _ => Char.is_word c = false end ->
  forallb Char.is_dot rest = true ->
  Re.match_at block_start_pattern (ws1 ++ str "///" ++ ws2 ++ word ++ rest)
  = Some (Re.mkMatch (ws1 ++ str "///" ++ ws2 ++ word ++ rest)
                     [(2, rest); (1, word)] []).
Proof.
  intros H1 H2 N2 Hw Nw Hr Hd.
  destruct ws2 as [|w0 ws2]; [done|]. destruct word as [|c0 word]; [done|].
  simpl in H2, Hw.
  apply andb_true_iff in H2 as [Hw0 H2]. apply andb_true_iff in Hw as [Hc0 Hw].
  unfold Re.match_at, block_start_pattern.
  cbn [Re.cat Re.run Re.plus Re.lits str list_ascii_of_string].
  apply rep_greedy_max; [exact H1 | reflexivity |].
  cbn [app]. cbn -[length take]. rewrite Hw0.
  apply rep_greedy_max; [exact H2 | by apply word_not_space |].
  rewrite Hc0.
  apply rep_greedy_max; [exact Hw | exact Hr |].
  rewrite <- (app_nil_r rest) at 1.
  apply rep_greedy_max; [exact Hd | done |].
  change (c0 :: word ++ rest) with ((c0 :: word) ++ rest).
  by rewrite !take_minus_nil, take_app_minus.
Qed.
Lemma block_indent_spec (c : Z) (block_type parameter : pystr) :
  block_indent c block_type parameter
  = (c + spec_increment block_type parameter)%Z.
Proof.
  unfold block_indent, spec_increment.
  repeat match goal with |- context [if ?b then _ else _] => destruct b end;
    lia.
Qed.

(** C6. At a block start met with the frame [(c, t)] on top of the
    stack, the line is emitted after [c] spaces and a frame is pushed
    whose indent is [c] plus the increment of the block type and
    parameter (2 for [html] with [ul.tasklist], 2 for [html] with [li],
    4 for other [html], 0 for [details], 4 otherwise); inside a
    [details] block a content line is emitted after [c + 4] spaces when
    its stripped form starts with [type:] or [open:], and after [c]
    spaces otherwise. *)
Theorem reconstruct_indent_rule (st : pc_state) (c : Z) (t : option pystr)
        (stack : list (Z * option pystr)) (raw line f : pystr) :
  current_file st = Some f ->
  indent_stack st = (c, t) :: stack ->
  Re.search file_marker_pattern raw = None ->
  unescape raw = line ->
  (forall ws1 ws2 word rest : pystr,
      forallb Char.is_space ws1 = true ->
      forallb Char.is_space ws2 = true -> ws2 <> [] ->
      forallb Char.is_word word = true -> word <> [] ->
      match rest with [] => True | x :: _ => Char.is_word x = false end ->
      forallb Char.is_dot rest = true ->
      line = ws1 ++ str "///" ++ ws2 ++ word ++ rest ->
      content_step st raw
      = Ok (mkPc (files_content st) (Some f)
                 (current_buffer st ++ [repeat " " (Z.to_nat c) ++ line])
                 ((c + spec_increment word rest, Some word)%Z
                    :: (c, t) :: stack)))
  /\ (t = Some (str "details") ->
      Re.match_at block_start_pattern line = None ->
      Re.match_at block_end_pattern line = None ->
      let metadata :=
        Str.startswith (str "type:") (Str.strip line)
        || Str.startswith (str "open:") (Str.strip line) in
      content_step st raw
      = Ok (mkPc (files_content st) (Some f)
                 (current_buffer st
                    ++ [repeat " " (Z.to_nat (if metadata then c + 4 else c))
                               ++ line])
                 ((c, t) :: stack))).
Proof.
  intros Hf Hst Hm Hl. unfold content_step. rewrite Hm, Hf, Hl.
  unfold indent_step. rewrite Hst. cbn [top mbind result_bind].
  split.
  - intros ws1 ws2 word rest H1 H2 N2 Hw Nw Hr Hd ->.
    rewrite match_at_block_start by done.
    unfold Re.group', Re.group. cbn [Re.m_caps Re.lookup_group Nat.eqb default].
    rewrite block_indent_spec, Hf. reflexivity.
  - intros -> Hs He. rewrite Hs, He. cbn [Re.matched].
    change (is_type (Some (str "details")) (str "details")) with true.
    cbv iota. unfold is_metadata, Str.spaces. rewrite Hf.
    by destruct (_ || _).
Qed.

Lemma reconstruct_indent_rule_witness :
  content_step (mkPc [] (Some (str "a.md")) [] [(2%Z, Some (str "html"))])
               (str "/// html | li")
  = Ok (mkPc [] (Some (str "a.md")) [str "  /// html | li"]
             [(4%Z, Some (str "html")); (2%Z, Some (str "html"))]).
Proof.
  exact (proj1 (reconstruct_indent_rule
                  (mkPc [] (Some (str "a.md")) [] [(2%Z, Some (str "html"))])
                  2 (Some (str "html")) [] (str "/// html | li")
                  (str "/// html | li") (str "a.md")
                  eq_refl eq_refl eq_refl eq_refl)
               [] (str " ") (str "html") (str " | li")
               eq_refl eq_refl ltac:(discriminate) eq_refl ltac:(discriminate)
               eq_refl eq_refl eq_refl).
Defined.

End IndentFacts.

(** ** import_docx.py: the pre-pass *)

Section PrePassFacts.
Import ImportDocx.

Lemma rep_greedy_inv {A : Type} (p : ascii -> bool) (k : pystr -> option A)
      (s : pystr) (x : A) :
  Re.rep_greedy p k s = Some x ->
  exists w s', s = w ++ s' /\ forallb p w = true /\ k s' = Some x.
Proof.
  induction s as [|c s IH]; simpl.
  - intros H. by exists [], [].
  - destruct (p c) eqn:Hc.
    + destruct (Re.rep_greedy p k s) as [y|] eqn:E.
      * intros [= ->]. destruct (IH eq_refl) as [w [s' [-> [Hw Hk]]]].
        exists (c :: w), s'. simpl. by rewrite Hc, Hw.
      * intros H. by exists [], (c :: s).
    + intros H. by exists [], (c :: s).
Qed.

Lemma search_inv (r : Re.re) (s : pystr) (m : Re.rmatch) :
  Re.search r s = Some m ->
  exists pre s', s = pre ++ s' /\ Re.match_at r s' = Some m.
Proof.
  induction s as [|c s IH]; simpl.
  - destruct (Re.match_at r []) eqn:E; [|done]. intros [= ->]. by exists [], [].
  - destruct (Re.match_at r (c :: s)) eqn:E.
    + intros [= ->]. by exists [], (c :: s).
    + intros [pre [s' [-> H]]]%IH. by exists (c :: pre), s'.
Qed.

Lemma search_found (r : Re.re) (pre s : pystr) :
  Re.matched (Re.match_at r s) = true ->
  Re.matched (Re.search r (pre ++ s)) = true.
Proof.
  intros H. induction pre as [|c pre IH]; simpl.
  - destruct (Re.match_at r s) eqn:E; [|done]. by rewrite (search_here _ _ _ E).
  - by destruct (Re.match_at r (c :: pre ++ s)).
Qed.

(** Where [trailing_end_pattern] matches, a white-space character, the
    sigil and white space up to the end are read. *)
Lemma trailing_end_inv (s : pystr) (m : Re.rmatch) :
  Re.match_at trailing_end_pattern s = Some m ->
  exists w trail, s = w :: str "///" ++ trail
                  /\ Char.is_space w = true
                  /\ forallb Char.is_space trail = true.
Proof.
  unfold Re.match_at, trailing_end_pattern.
  cbn [Re.cat Re.run Re.lits str list_ascii_of_string].
  destruct s as [|w s]; [done|]. destruct (Char.is_space w) eqn:Hw; [|done].
  destruct s as [|c1 s]; [done|]. destruct (Char.eqb "/" c1) eqn:E1; [|done].
  destruct s as [|c2 s]; [done|]. destruct (Char.eqb "/" c2) eqn:E2; [|done].
  destruct s as [|c3 s]; [done|]. destruct (Char.eqb "/" c3) eqn:E3; [|done].
  apply char_eqb_eq in E1 as <-, E2 as <-, E3 as <-.
  intros [t [s' [-> [Ht Hk]]]]%rep_greedy_inv.
  exists w, (t ++ s'). split; [done|]. split; [done|].
  rewrite forallb_app, Ht. simpl.
  destruct s' as [|[[] [] [] [] [] [] [] []] [|? ?]]; done.
Qed.

Lemma trailing_end_match (w : ascii) (trail : pystr) :
  Char.is_space w = true ->
  forallb Char.is_space trail = true ->
  Re.matched (Re.match_at trailing_end_pattern (w :: str "///" ++ trail)) = true.
Proof.
  intros Hw Ht. unfold Re.match_at, trailing_end_pattern.
  cbn [Re.cat Re.run Re.lits str list_ascii_of_string app].
  rewrite Hw. cbn -[length take].
  rewrite <- (app_nil_r trail) at 1.
  erewrite rep_greedy_max; [done | done | done | reflexivity].
Qed.

Lemma rfind_app (p a s : pystr) (i : nat) :
  Str.rfind p s = Some i -> Str.rfind p (a ++ s) = Some (length a + i).
Proof.
  intros H. induction a as [|c a IH]; simpl; [done|]. by rewrite IH.
Qed.

Lemma rfind_sigil_space (trail : pystr) :
  forallb Char.is_space trail = true -> Str.rfind (str "///") trail = None.
Proof.
  cbn [str list_ascii_of_string].
  induction trail as [|c t IH]; simpl; [done|].
  intros [Hc Ht]%andb_true_iff. rewrite IH by done.
  destruct (Char.eqb "/" c) eqn:E; [|done].
  apply char_eqb_eq in E as <-. done.
Qed.

Lemma rfind_sigil (before trail : pystr) :
  forallb Char.is_space trail = true ->
  Str.rfind (str "///") (before ++ str "///" ++ trail)
  = Some (length before).
Proof.
  intros Ht. rewrite (rfind_app _ _ _ 0); [f_equal; lia|].
  pose proof (rfind_sigil_space trail Ht) as Hn.
  cbn [str list_ascii_of_string app Str.rfind] in Hn |- *. rewrite Hn.
  destruct trail as [|c t]; [done|].
  simpl in Ht. apply andb_true_iff in Ht as [Hc _].
  cbn. destruct (Char.eqb "/" c) eqn:E; [|done].
  apply char_eqb_eq in E as <-. done.
Qed.

Lemma lstrip_app_l (a b : pystr) :
  forallb Char.is_space a = false -> Str.lstrip (a ++ b) = Str.lstrip a ++ b.
Proof.
  unfold Str.lstrip. induction a as [|c a IH]; simpl; [done|].
  destruct (Char.is_space c); simpl; [exact IH | done].
Qed.

Lemma rstrip_app_space (a t : pystr) :
  forallb Char.is_space t = true -> Str.rstrip (a ++ t) = Str.rstrip a.
Proof.
  intros Ht. unfold Str.rstrip. rewrite rev_app_distr, drop_while_all; [done|].
  rewrite forallb_forall in *. intros x Hx. apply Ht. by apply in_rev.
Qed.

Lemma rstrip_snoc (a : pystr) (c : ascii) :
  Char.is_space c = false -> Str.rstrip (a ++ [c]) = a ++ [c].
Proof.
  intros Hc. unfold Str.rstrip. rewrite rev_app_distr. simpl. rewrite Hc.
  simpl. by rewrite rev_involutive.
Qed.

Lemma strip_sigil_line (before trail : pystr) :
  forallb Char.is_space trail = true ->
  Str.strip (before ++ str "///" ++ trail)
  = Str.lstrip (before ++ str "///").
Proof.
  intros Ht. unfold Str.strip.
  destruct (forallb Char.is_space before) eqn:Hb.
  - unfold Str.lstrip.
    rewrite (drop_while_all _ before (str "///" ++ trail)) by done.
    rewrite (drop_while_all _ before (str "///")) by done.
    change (Str.rstrip (str "//" ++ ["/"] ++ trail) = str "///").
    rewrite !app_assoc, rstrip_app_space by done. by apply rstrip_snoc.
  - rewrite !lstrip_app_l by done.
    rewrite app_assoc, rstrip_app_space by done.
    change (str "///") with (str "//" ++ ["/"]).
    rewrite app_assoc. by apply rstrip_snoc.
Qed.

Lemma endswith_app (p a : pystr) : Str.endswith p (a ++ p) = true.
Proof. unfold Str.endswith. rewrite rev_app_distr. apply startswith_app. Qed.

(** The lines the pre-pass splits: those in which the sigil follows a
    white-space character, has white space only after it, and has more
    than white space before it. *)
Lemma split_line_cond (line : pystr) :
  (Str.endswith (str "///") (Str.strip line)
   && negb (Str.eqb (Str.strip line) (str "///"))
   && Re.matched (Re.search trailing_end_pattern line) = true)
  <-> exists pre w trail,
      Char.is_space w = true
      /\ forallb Char.is_space pre = false
      /\ forallb Char.is_space trail = true
      /\ line = pre ++ [w] ++ str "///" ++ trail.
Proof.
  split.
  - intros [[He Hn]%andb_true_iff Hm]%andb_true_iff.
    destruct (Re.search trailing_end_pattern line) as [m|] eqn:Es; [|done].
    apply search_inv in Es as [pre [s' [-> Hs']]].
    apply trailing_end_inv in Hs' as [w [trail [-> [Hw Ht]]]].
    exists pre, w, trail. split; [done|]. split; [|done].
    destruct (forallb Char.is_space pre) eqn:Hp; [|done]. exfalso.
    apply negb_true_iff, str_eqb_neq in Hn. apply Hn.
    change (w :: str "///" ++ trail) with ([w] ++ str "///" ++ trail).
    rewrite app_assoc, strip_sigil_line by done.
    unfold Str.lstrip.
    rewrite <- app_assoc, (drop_while_all _ pre) by done.
    by rewrite (drop_while_all _ [w]) by (simpl; by rewrite Hw).
  - intros [pre [w [trail [Hw [Hp [Ht ->]]]]]].
    rewrite app_assoc, strip_sigil_line by done.
    rewrite <- !app_assoc, lstrip_app_l by done.
    rewrite (app_assoc (Str.lstrip pre)), endswith_app. simpl andb.
    apply andb_true_iff. split.
    + apply negb_true_iff, str_eqb_neq. intros H.
      apply (f_equal length) in H. rewrite !length_app in H.
      simpl in H. lia.
    + apply search_found. by apply trailing_end_match.
Qed.

(** C7, as amended. The pre-pass splits a line in two exactly when the
    sigil comes straight after a white-space character, only white
    space follows it, and more than white space precedes it: the first
    line is the text before the sigil, the second the sigil with what
    follows it.  Every other line passes through unchanged. *)
Theorem prepass_split (line : pystr) :
  (forall (pre : pystr) (w : ascii) (trail : pystr),
      Char.is_space w = true ->
      forallb Char.is_space pre = false ->
      forallb Char.is_space trail = true ->
      line = pre ++ [w] ++ str "///" ++ trail ->
      split_line line = [pre ++ [w]; str "///" ++ trail])
  /\ ((~ exists pre w trail,
          Char.is_space w = true
          /\ forallb Char.is_space pre = false
          /\ forallb Char.is_space trail = true
          /\ line = pre ++ [w] ++ str "///" ++ trail) ->
      split_line line = [line]).
Proof.
  split.
  - intros pre w trail Hw Hp Ht Hl.
    assert (Hc : exists pre w trail,
               Char.is_space w = true /\ forallb Char.is_space pre = false
               /\ forallb Char.is_space trail = true
               /\ line = pre ++ [w] ++ str "///" ++ trail) by eauto 10.
    apply split_line_cond in Hc.
    apply andb_true_iff in Hc as [Hc Hm].
    unfold split_line. rewrite Hc, Hm. subst line.
    rewrite app_assoc, rfind_sigil by done.
    by rewrite take_app_length, drop_app_length.
  - intros Hno. unfold split_line.
    destruct (_ && negb _) eqn:Hc; [|done].
    destruct (Re.matched _) eqn:Hm; [|done].
    exfalso. apply Hno, split_line_cond. by rewrite Hc, Hm.
Qed.

(** C7 as stated fails: a line that ends with the sigil and is more than
    the sigil is left whole when no white space precedes the sigil. *)
Lemma prepass_split_counterexample :
  Str.endswith (str "///") (str "foo///") = true
  /\ str "foo///" <> str "///"
  /\ split_line (str "foo///") = [str "foo///"].
Proof. split; [|split]; [reflexivity | discriminate | reflexivity]. Qed.

End PrePassFacts.

(** ** The link codec *)

Section LinkFacts.

Lemma except_all (c : ascii) (s : pystr) :
  c ∉ s -> forallb (Char.except c) s = true.
Proof.
  induction s as [|x s IH]; simpl; [done|].
  intros H. apply not_elem_of_cons in H as [Hx Hs].
  rewrite IH by done. unfold Char.except.
  apply char_eqb_neq in Hx. by rewrite Hx.
Qed.

Lemma except_head (c x : ascii) (s : pystr) :
  c ∉ x :: s -> Char.except c x = true.
Proof.
  intros H. apply not_elem_of_cons in H as [Hx _].
  unfold Char.except. apply char_eqb_neq in Hx. by rewrite Hx.
Qed.

(** A match that covers the whole of a non-empty text is replaced, and
    nothing else is. *)
Lemma sub_whole (r : Re.re) (f : Re.rmatch -> pystr) (s : pystr) (m : Re.rmatch) :
  Re.match_at r s = Some m ->
  Re.m_text m = s ->
  s <> [] ->
  Re.match_at r [] = None ->
  Re.sub r f s = f m.
Proof.
  intros Hm Ht Hs Hn.
  rewrite (sub_match r f s [] m Hm); [| by rewrite Ht | by rewrite Ht, app_nil_r].
  by rewrite sub_nil, app_nil_r.
Qed.

(** The export pattern on a link without annotation. *)
Lemma export_link_match (text url : pystr) :
  text <> [] -> "]" ∉ text -> url <> [] -> ")" ∉ url ->
  let link := str "[" ++ text ++ str "](" ++ url ++ str ")" in
  Re.match_at ExportDocx.link_pattern link
  = Some (Re.mkMatch link [(2, url); (1, text)] []).
Proof.
  intros Nt Ht Nu Hu link. subst link.
  destruct text as [|t0 text]; [done|]. destruct url as [|u0 url]; [done|].
  pose proof (except_head _ _ _ Ht) as Ht0.
  pose proof (except_head _ _ _ Hu) as Hu0.
  apply not_elem_of_cons in Ht as [_ Ht]. apply not_elem_of_cons in Hu as [_ Hu].
  apply except_all in Ht, Hu.
  unfold Re.match_at, ExportDocx.link_pattern.
  cbn [Re.cat Re.run Re.plus Re.lits str list_ascii_of_string app].
  cbn -[length take]. rewrite Ht0.
  apply rep_greedy_max; [exact Ht | reflexivity |].
  cbn -[length take]. rewrite Hu0.
  apply rep_greedy_max; [exact Hu | reflexivity |].
  cbn -[length take].
  change (t0 :: text ++ "]" :: "(" :: u0 :: url ++ [")"])
    with ((t0 :: text) ++ "]" :: "(" :: u0 :: url ++ [")"]).
  change (u0 :: url ++ [")"]) with ((u0 :: url) ++ [")"]).
  by rewrite !take_app_minus, Nat.sub_0_r, firstn_all.
Qed.

(** The import pattern on an anchor reference. *)
Lemma import_link_match (text anchor : pystr) :
  text <> [] -> "]" ∉ text ->
  anchor <> [] -> forallb Char.is_anchor_char anchor = true ->
  let link := str "[" ++ text ++ str "](#" ++ anchor ++ str ")" in
  Re.match_at ImportDocx.link_pattern link
  = Some (Re.mkMatch link [(2, anchor); (1, text)] []).
Proof.
  intros Nt Ht Na Ha link. subst link.
  destruct text as [|t0 text]; [done|]. destruct anchor as [|a0 anchor]; [done|].
  pose proof (except_head _ _ _ Ht) as Ht0.
  apply not_elem_of_cons in Ht as [_ Ht]. apply except_all in Ht.
  simpl in Ha. apply andb_true_iff in Ha as [Ha0 Ha].
  unfold Re.match_at, ImportDocx.link_pattern.
  cbn [Re.cat Re.run Re.plus Re.lits str list_ascii_of_string app].
  cbn -[length take]. rewrite Ht0.
  apply rep_greedy_max; [exact Ht | reflexivity |].
  cbn -[length take]. rewrite Ha0.
  apply rep_greedy_max; [exact Ha | reflexivity |].
  cbn -[length take].
  change (t0 :: text ++ "]" :: "(" :: "#" :: a0 :: anchor ++ [")"])
    with ((t0 :: text) ++ "]" :: "(" :: "#" :: a0 :: anchor ++ [")"]).
  change (a0 :: anchor ++ [")"]) with ((a0 :: anchor) ++ [")"]).
  by rewrite !take_app_minus, Nat.sub_0_r, firstn_all.
Qed.

Lemma process_links_plain (files : list pystr) (text url cur : pystr) :
  text <> [] -> "]" ∉ text -> url <> [] -> ")" ∉ url ->
  let link := str "[" ++ text ++ str "](" ++ url ++ str ")" in
  ExportDocx.process_links files link cur
  = ExportDocx.replace_link files cur (Re.mkMatch link [(2, url); (1, text)] []).
Proof.
  intros Nt Ht Nu Hu link. unfold ExportDocx.process_links.
  apply sub_whole; [by apply export_link_match | done | done | done].
Qed.

Lemma restore_links_plain (files : list pystr) (am : gmap pystr pystr)
      (text anchor cur : pystr) :
  text <> [] -> "]" ∉ text ->
  anchor <> [] -> forallb Char.is_anchor_char anchor = true ->
  let link := str "[" ++ text ++ str "](#" ++ anchor ++ str ")" in
  ImportDocx.restore_links files [link] am cur
  = [ImportDocx.replace_link files cur
       (Re.mkMatch link [(2, anchor); (1, text)] [])].
Proof.
  intros Nt Ht Na Ha link. unfold ImportDocx.restore_links. simpl map.
  f_equal. apply sub_whole; [by apply import_link_match | done | done | done].
Qed.

Lemma find_target_none (files : list pystr) (anchor : pystr) :
  (forall f, f ∈ files -> ~ reads_as_unit anchor f) ->
  ImportDocx.find_target files anchor = (None, None).
Proof.
  induction files as [|f files IH]; intros H; simpl; [done|].
  assert (~ reads_as_unit anchor f) as Hf by (apply H; left).
  unfold reads_as_unit, encoded_name in Hf.
  destruct (Str.eqb anchor _) eqn:E1.
  { apply str_eqb_eq in E1. tauto. }
  destruct (Str.startswith _ anchor) eqn:E2; [tauto|].
  apply IH. intros g Hg. apply H. by right.
Qed.

(** C8, as amended. A link without annotation whose target names no
    registered unit is returned by the export encoder as it is; an
    anchor reference whose anchor does not read as an encoded reference
    to any registered unit is returned by the import decoder as it is.
    Neither function can raise. *)
Theorem unresolved_links_unchanged (files : list pystr)
        (am : gmap pystr pystr) (text target anchor cur : pystr) :
  text <> [] -> "]" ∉ text ->
  target <> [] -> ")" ∉ target -> link_unit target ∉ files ->
  anchor <> [] -> forallb Char.is_anchor_char anchor = true ->
  (forall f, f ∈ files -> ~ reads_as_unit anchor f) ->
  ExportDocx.process_links files
    (str "[" ++ text ++ str "](" ++ target ++ str ")") cur
  = str "[" ++ text ++ str "](" ++ target ++ str ")"
  /\ ImportDocx.restore_links files
       [str "[" ++ text ++ str "](#" ++ anchor ++ str ")"] am cur
     = [str "[" ++ text ++ str "](#" ++ anchor ++ str ")"].
Proof.
  intros Nt Ht Nu Hu Hunit Na Ha Hno. split.
  - rewrite process_links_plain by done.
    unfold ExportDocx.replace_link, Re.group', Re.group.
    cbn [Re.m_caps Re.lookup_group Nat.eqb default truthy Re.m_text id].
    apply str_in_false in Hunit. unfold link_unit in Hunit. rewrite Hunit.
    by destruct (_ && _).
  - rewrite restore_links_plain by done.
    unfold ImportDocx.replace_link, Re.group', Re.group.
    cbn [Re.m_caps Re.lookup_group Nat.eqb default id].
    by rewrite find_target_none.
Qed.

Lemma unresolved_links_unchanged_witness :
  ExportDocx.process_links ExportDocx.FILES
    (str "[site](http://example.org/a.md#top)") (str "validity.md")
  = str "[site](http://example.org/a.md#top)"
  /\ ImportDocx.restore_links ExportDocx.FILES
       [str "[see](#methods)"] ∅ (str "validity.md")
     = [str "[see](#methods)"].
Proof.
  assert (forall f, f ∈ ExportDocx.FILES -> ~ reads_as_unit (str "methods") f)
    as Hno.
  { apply Forall_forall.
    repeat constructor; (intros [H | H]; vm_compute in H; discriminate H). }
  split.
  - refine (proj1 (unresolved_links_unchanged ExportDocx.FILES ∅
                     (str "site") (str "http://example.org/a.md#top")
                     (str "methods") (str "validity.md")
                     _ _ _ _ _ _ _ Hno));
      first [discriminate | reflexivity
            | (apply (bool_decide_unpack _); vm_compute; exact I)].
  - refine (proj2 (unresolved_links_unchanged ExportDocx.FILES ∅
                     (str "see") (str "http://example.org/a.md#top")
                     (str "methods") (str "validity.md")
                     _ _ _ _ _ _ _ Hno));
      first [discriminate | reflexivity
            | (apply (bool_decide_unpack _); vm_compute; exact I)].
Defined.

(** C8 as stated fails on the export side: an annotated link to an
    address outside the registry comes back with the annotation moved
    into its text. *)
Lemma unresolved_links_counterexample :
  (link_unit (str "http://example.org") ∉ ExportDocx.FILES)
  /\ ExportDocx.process_links ExportDocx.FILES
       (str "[Go](http://example.org){ #y }") (str "validity.md")
     = str "[Go { #y }](http://example.org)".
Proof.
  split; [|reflexivity].
  apply str_in_false. reflexivity.
Qed.

Lemma class_notin (p : ascii -> bool) (c : ascii) (s : pystr) :
  forallb p s = true -> p c = false -> c ∉ s.
Proof.
  intros Hs Hc Hin. rewrite forallb_forall in Hs.
  apply list_elem_of_In, Hs in Hin. congruence.
Qed.

Lemma split_notin (sep : ascii) (w : pystr) :
  sep ∉ w -> Str.split sep w = [w].
Proof.
  induction w as [|c w IH]; simpl; [done|].
  intros H. apply not_elem_of_cons in H as [Hc Hw].
  apply char_eqb_neq in Hc. rewrite Hc, IH by done. done.
Qed.

Lemma split_app_sep (sep : ascii) (a r : pystr) :
  sep ∉ a -> Str.split sep (a ++ sep :: r) = a :: Str.split sep r.
Proof.
  induction a as [|c a IH]; simpl.
  - by rewrite char_eqb_refl.
  - intros H. apply not_elem_of_cons in H as [Hc Ha].
    apply char_eqb_neq in Hc. rewrite Hc, IH by done. done.
Qed.

Lemma contains_app_l (p a r : pystr) :
  Str.contains p a = true -> Str.contains p (a ++ r) = true.
Proof.
  induction a as [|c a IH].
  - simpl. rewrite orb_false_r. intros H. destruct p; [|done].
    by destruct r.
  - cbn [Str.contains app]. intros [H|H]%orb_true_iff.
    + apply startswith_iff in H as [t Ht].
      change (c :: a ++ r) with ((c :: a) ++ r). rewrite Ht, <- app_assoc.
      by rewrite startswith_app.
    + rewrite IH by done. apply orb_true_r.
Qed.

Lemma startswith_app_false (p a r : pystr) :
  length p <= length a ->
  Str.startswith p a = false -> Str.startswith p (a ++ r) = false.
Proof.
  revert a. induction p as [|x p IH]; intros a Hl; simpl; [done|].
  destruct a as [|y a]; [simpl in Hl; lia|]. simpl.
  destruct (Char.eqb x y); [|done]. simpl. apply IH. simpl in Hl. lia.
Qed.

(** The export encoder on a link, without annotation, to an anchor of a
    registered unit. *)
Lemma process_links_registered (files : list pystr) (a b text s : pystr) :
  b ∈ files ->
  "#" ∉ b -> ")" ∉ b ->
  Str.contains (str ".md") b = true ->
  (4 <= length b)%nat -> Str.startswith (str "http") b = false ->
  text <> [] -> "]" ∉ text ->
  s <> [] -> forallb Char.is_anchor_char s = true ->
  ExportDocx.process_links files
    (str "[" ++ text ++ str "](" ++ (b ++ str "#" ++ s) ++ str ")") a
  = if Str.eqb b a
    then str "[" ++ text ++ str "](#" ++ s ++ str ")"
    else str "[" ++ text ++ str "](#" ++ encoded_name b ++ str "__" ++ s
             ++ str ")".
Proof.
  intros Hb Hh Hp Hmd Hlen Hhttp Nt Ht Ns Hs.
  assert ("#" ∉ s) as Hs1 by (by apply (class_notin _ _ _ Hs)).
  assert (")" ∉ s) as Hs2 by (by apply (class_notin _ _ _ Hs)).
  rewrite process_links_plain; try done.
  - unfold ExportDocx.replace_link, Re.group', Re.group.
    cbn [Re.m_caps Re.lookup_group Nat.eqb default truthy Re.m_text id].
    rewrite contains_app_l, startswith_app_false by done.
    cbn [andb negb].
    change (str "#" ++ s) with ("#" :: s).
    rewrite split_app_sep, split_notin by done.
    cbn [head default id lookup list_lookup].
    apply str_in_iff in Hb. rewrite Hb.
    destruct s as [|s0 s']; [done|]. cbn [truthy]. reflexivity.
  - by destruct b.
  - rewrite !not_elem_of_app. split; [done|]. split; [|done].
    apply (bool_decide_unpack _). by vm_compute.
Qed.

Lemma find_target_registered (b s : pystr) :
  b ∈ ImportDocx.FILES ->
  ImportDocx.find_target ImportDocx.FILES (encoded_name b ++ str "__" ++ s)
  = (Some b, Some s).
Proof.
  intros Hb.
  repeat (apply elem_of_cons in Hb as [-> | Hb]);
    [reflexivity .. | by apply elem_of_nil in Hb].
Qed.

Lemma registered_unit_shape (b : pystr) :
  b ∈ ExportDocx.FILES ->
("#" ∉ b) /\ (")" ∉ b) /\ Str.contains (str ".md") b = true
  /\ (4 <= length b)%nat /\ Str.startswith (str "http") b = false
  /\ forallb Char.is_anchor_char (encoded_name b) = true
  /\ b <> [].
Proof.
  intros Hb.
  repeat (apply elem_of_cons in Hb as [-> | Hb]);
    [.. | by apply elem_of_nil in Hb];
    (repeat split;
     first [ discriminate | reflexivity | (simpl; lia)
           | (apply (bool_decide_unpack _); by vm_compute) ]).
Qed.

(** C1, as amended. For a registered unit [b], a link text [text] and an
    anchor [s] that is not empty and is made of word characters, dots
    and hyphens: a link to [b#s] met in a unit [a] other than [b] is
    decoded, after it was encoded, to the link to [b#s] again; met in
    [b] itself it is decoded to the same-unit link to [#s], provided
    [s] does not itself read as an encoded reference to a registered
    unit. *)
Theorem link_codec_round_trip (am : gmap pystr pystr) (a b text s : pystr) :
  b ∈ ExportDocx.FILES ->
  text <> [] -> "]" ∉ text ->
  s <> [] -> forallb Char.is_anchor_char s = true ->
  let link := fun target => str "[" ++ text ++ str "](" ++ target ++ str ")" in
  let decoded :=
    ImportDocx.restore_links ImportDocx.FILES
      [ExportDocx.process_links ExportDocx.FILES (link (b ++ str "#" ++ s)) a]
      am a in
  (a <> b -> decoded = [link (b ++ str "#" ++ s)])
  /\ (a = b ->
      (forall f, f ∈ ImportDocx.FILES -> ~ reads_as_unit s f) ->
      decoded = [link (str "#" ++ s)]).
Proof.
  intros Hb Nt Ht Ns Hs link decoded. subst link decoded. cbv beta.
  destruct (registered_unit_shape b Hb)
    as [Hh [Hp [Hmd [Hlen [Hhttp [Henc Nb]]]]]].
  rewrite process_links_registered by done.
  split.
  - intros Hab. apply not_eq_sym, str_eqb_neq in Hab as Hba. rewrite Hba.
    replace (encoded_name b ++ str "__" ++ s ++ str ")")
      with ((encoded_name b ++ str "__" ++ s) ++ str ")")
      by (by rewrite <- !app_assoc).
    rewrite restore_links_plain; try done.
    + unfold ImportDocx.replace_link, Re.group', Re.group.
      cbn [Re.m_caps Re.lookup_group Nat.eqb default id].
      rewrite find_target_registered by done.
      cbn [default id]. rewrite Hba.
      destruct b as [|b0 b']; [done|]. destruct s as [|s0 s']; [done|].
      cbn [truthy]. by rewrite <- !app_assoc.
    + destruct (encoded_name b) eqn:E; [|done].
      destruct b; [done | discriminate E].
    + by rewrite !forallb_app, Henc, Hs.
  - intros -> Hno. rewrite str_eqb_refl.
    rewrite restore_links_plain by done.
    unfold ImportDocx.replace_link, Re.group', Re.group.
    cbn [Re.m_caps Re.lookup_group Nat.eqb default id].
    by rewrite find_target_none.
Qed.

Lemma link_codec_round_trip_witness :
  ImportDocx.restore_links ImportDocx.FILES
    [ExportDocx.process_links ExportDocx.FILES
       (str "[Go](validity.md#x)") (str "introduction.md")]
    ∅ (str "introduction.md")
  = [str "[Go](validity.md#x)"].
Proof.
  refine (proj1 (link_codec_round_trip ∅ (str "introduction.md")
                   (str "validity.md") (str "Go") (str "x") _ _ _ _ _) _);
    first [discriminate | reflexivity
          | (apply (bool_decide_unpack _); by vm_compute)].
Defined.

(** C1 as stated fails: an anchor with a character outside the word
    characters, dots and hyphens is encoded but not decoded. *)
Lemma link_codec_counterexample :
  ImportDocx.restore_links ImportDocx.FILES
    [ExportDocx.process_links ExportDocx.FILES
       (str "[Go](validity.md#sec:1)") (str "introduction.md")]
    ∅ (str "introduction.md")
  = [str "[Go](#validity_md__sec:1)"]
  /\ str "[Go](#validity_md__sec:1)" <> str "[Go](validity.md#sec:1)".
Proof. split; [reflexivity | discriminate]. Qed.

End LinkFacts.

(** ** The example scenario of an annotated cross-unit link *)

Section Scenario.

(** C2, as amended. In unit [a.md], with [b.md] registered, the link
    [[Go](b.md#x){ #y }] is exported as the bare link with visible text
    [Go { #y }] and target [#b_md__x], by the link encoder and by the
    whole export of the unit alike; the import decoders, link
    restoration then attribute restoration, turn the exported link into
    [[Go](b.md#x){ #y }] again, and so does the whole restoration of the
    unit. *)
Theorem annotated_link_scenario :
  ExportDocx.process_links [str "a.md"; str "b.md"] (str "[Go](b.md#x){ #y }") (str "a.md")
  = str "[Go { #y }](#b_md__x)"
  /\ ExportDocx.export_unit [str "a.md"; str "b.md"] (str "a.md") (str "[Go](b.md#x){ #y }")
     = [nl; nl] ++ str "**=== FILE: a.md ===** {#a-md}" ++ [nl; nl]
            ++ str "[Go { #y }](#b_md__x)"
  /\ ImportDocx.restore_attributes
       (ImportDocx.restore_links [str "a.md"; str "b.md"]
          [str "[Go { #y }](#b_md__x)"] ∅ (str "a.md"))
     = [str "[Go](b.md#x){ #y }"]
  /\ ImportDocx.restore_unit [str "a.md"; str "b.md"] ∅ (str "a.md")
       [str "[Go { #y }](#b_md__x)"]
     = str "[Go](b.md#x){ #y }".
Proof. repeat split; vm_compute; reflexivity. Qed.

(** C2 as stated fails: the visible text of the exported link keeps the
    braces of the annotation. *)
Lemma annotated_link_counterexample :
  ExportDocx.process_links [str "a.md"; str "b.md"]
    (str "[Go](b.md#x){ #y }") (str "a.md")
  = str "[Go { #y }](#b_md__x)"
  /\ str "[Go { #y }](#b_md__x)" <> str "[Go #y](#b_md__x)".
Proof. split; [vm_compute; reflexivity | discriminate]. Qed.

End Scenario.

(** ** import_docx.py: what [main] writes *)

Section MainFacts.
Import ImportDocx.

Lemma process_content_returns (content : pystr) (am : gmap pystr pystr) :
  exists files_content, process_content content am = Ok files_content.
Proof.
  unfold process_content.
  destruct (content_loop_ok (split_lines content) pc_init stack_ok_seed)
    as [st [-> _]].
  simpl. eauto.
Qed.

(** A step that returns, followed by another. *)
Lemma and_then_ok (fs1 : file_system) (l : list event)
      (next : file_system -> file_system * outcome) :
  and_then (fs1, mkOut l (Ok tt)) next
  = ((next fs1).1, mkOut (l ++ log (next fs1).2) (status (next fs1).2)).
Proof. reflexivity. Qed.

Lemma and_then_raise (fs1 : file_system) (l : list event) (x : exn)
      (next : file_system -> file_system * outcome) :
  and_then (fs1, mkOut l (Raise x)) next = (fs1, mkOut l (Raise x)).
Proof. reflexivity. Qed.

(** The three ways in which the writing of a file ends. *)
Lemma write_file_cases (e : env) (path text : pystr) (fs : file_system) :
  (writable e path = true /\ write_fails e path text = None
   /\ write_file e path text fs
      = (<[path := text]> fs, mkOut [Open path; Write path text] (Ok tt)))
  \/ (writable e path = true
      /\ (exists rest, write_fails e path text = Some rest
                       /\ write_file e path text fs
                          = (<[path := rest]> fs,
                             mkOut [Open path] (Raise (OSError path)))))
  \/ (writable e path = false
      /\ write_file e path text fs = (fs, mkOut [] (Raise (OSError path)))).
Proof.
  unfold write_file. cbv zeta.
  destruct (writable e path); [|by right; right].
  destruct (write_fails e path text) as [rest|].
  - right. left. split; [done|]. exists rest. split; [done|].
    f_equal. apply insert_insert_eq.
  - left. split; [done|]. split; [done|]. f_equal. apply insert_insert_eq.
Qed.

(** The loop over the units: the units it has written in full, and the
    unit at which it stopped, if it did. *)
Lemma write_units_shape (e : env) (files : list pystr)
      (am : gmap pystr pystr) (items : list (pystr * list pystr))
      (fs : file_system) :
  exists written rest,
    items = written ++ rest
    /\ match rest with
       | [] =>
           write_units e files am items fs
           = (store_units files am written fs,
              mkOut (flat_map (unit_log files am) written) (Ok tt))
       | u :: _ =>
           let path := unit_path u.1 in
           let text := restore_unit files am u.1 u.2 in
           if writable e path then
             exists cut,
               write_fails e path text = Some cut
               /\ write_units e files am items fs
                  = (<[path := cut]> (store_units files am written fs),
                     mkOut (flat_map (unit_log files am) written
                              ++ [Print (restoring_line u.1); Open path])
                           (Raise (OSError path)))
           else
             write_units e files am items fs
             = (store_units files am written fs,
                mkOut (flat_map (unit_log files am) written
                         ++ [Print (restoring_line u.1)])
                      (Raise (OSError path)))
       end.
Proof.
  revert fs. induction items as [|[name lines] items IH]; intros fs.
  - by exists [], [].
  - cbn [write_units]. unfold say. rewrite and_then_ok. cbn [app].
    destruct (write_file_cases e (path_join DOCS_DIR name)
                (restore_unit files am name lines) fs)
      as [(Hw & Hf & ->) | [(Hw & cut & Hf & ->) | (Hw & ->)]].
    + rewrite and_then_ok. cbn [fst snd log status app].
      destruct (IH (<[path_join DOCS_DIR name
                      := restore_unit files am name lines]> fs))
        as (written & rest & -> & H).
      exists ((name, lines) :: written), rest. split; [done|].
      destruct rest as [|u rest].
      * rewrite H. reflexivity.
      * cbn zeta in *. destruct (writable e (unit_path u.1)).
        -- destruct H as (cut & Hc & ->). exists cut. split; [done|].
           reflexivity.
        -- rewrite H. reflexivity.
    + rewrite and_then_raise. exists [], ((name, lines) :: items).
      split; [done|]. cbn zeta. cbn [fst snd]. unfold unit_path.
      rewrite Hw. exists cut. by split.
    + rewrite and_then_raise. exists [], ((name, lines) :: items).
      split; [done|]. cbn zeta. cbn [fst snd]. unfold unit_path.
      by rewrite Hw.
Qed.

(** [main] from the loop over the units on, when the converter has
    returned [content] and the debug file is written. *)
Lemma main_from_units (e : env) (files : list pystr) (fs : file_system)
      (content : pystr) (files_content : list (pystr * list pystr)) :
  convert_file e = Ok content ->
  writable e DEBUG_PATH = true ->
  write_fails e DEBUG_PATH content = None ->
  process_content content (build_anchor_map content) = Ok files_content ->
  let units :=
    write_units e files (build_anchor_map content) files_content
                (<[DEBUG_PATH := content]> fs) in
  main e files fs
  = (units.1,
     match status units.2 with
     | Ok _ =>
         mkOut (log_before_units content ++ log units.2
                  ++ [Print (str "Import complete.")])
               (Ok tt)
     | Raise x => mkOut (log_before_units content ++ log units.2) (Raise x)
     end).
Proof.
  intros Hc Hw Hf Hp units. unfold main, say. rewrite and_then_ok, Hc.
  destruct (write_file_cases e DEBUG_PATH content fs)
    as [(_ & _ & ->) | [(_ & cut & Hf' & _) | (Hw' & _)]]; [|congruence..].
  rewrite !and_then_ok, Hp. fold units.
  destruct units as [fs2 [l2 [[]|x]]].
  - rewrite and_then_ok. reflexivity.
  - rewrite and_then_raise. reflexivity.
Qed.

(** The files [main] leaves are those the last step it ran has left. *)
Lemma main_files (e : env) (files : list pystr) (fs : file_system) :
  (main e files fs).1
  = match convert_file e with
    | Raise _ => fs
    | Ok content =>
        let debug := write_file e DEBUG_PATH content fs in
        match status debug.2, process_content content (build_anchor_map content)
        with
        | Ok _, Ok files_content =>
            (write_units e files (build_anchor_map content) files_content
                         debug.1).1
        | _, _ => debug.1
        end
    end.
Proof.
  unfold main, say. rewrite and_then_ok. cbn [fst].
  destruct (convert_file e) as [content|x]; [|reflexivity]. cbv zeta.
  destruct (write_file e DEBUG_PATH content fs) as [fs1 [l1 [[]|x]]].
  - rewrite !and_then_ok. cbn [fst snd status].
    destruct (process_content content (build_anchor_map content)) as [fc|x];
      [|reflexivity].
    by destruct (write_units e files (build_anchor_map content) fc fs1)
      as [fs2 [l2 [[]|x]]].
  - by rewrite and_then_raise.
Qed.

(** C9, as amended. The order in which [main] does its work, and what
    a run that raises leaves behind.  When the converter raises, or the
    debug file cannot be opened, no file is touched; when the write to
    the debug file raises, only the debug file is.  Otherwise the whole
    document is split and re-indented, which never raises, before a
    unit file is opened, and the units are then taken one at a time in
    the order of the document: a unit is announced, its links,
    annotations and controls are decoded, and its file is opened and
    written, before the next unit is announced.  A run that returns has
    written the complete restored text of every unit.  A run that raises
    at a unit has written the complete restored text of the units before
    it and has not touched the files of the units after it; the file of
    the unit itself is as it was when it could not be opened, and holds
    what the failed write has left when the write raised after the
    opening. *)
Theorem import_writes_in_document_order (e : env) (files : list pystr)
        (fs : file_system) :
  match convert_file e with
  | Raise x =>
      main e files fs
      = (fs, mkOut [Print (str "Converting DOCX to Markdown...")] (Raise x))
  | Ok content =>
      let am := build_anchor_map content in
      exists files_content,
        process_content content am = Ok files_content
        /\ if writable e DEBUG_PATH then
             match write_fails e DEBUG_PATH content with
             | Some cut =>
                 main e files fs
                 = (<[DEBUG_PATH := cut]> fs,
                    mkOut [Print (str "Converting DOCX to Markdown...");
                           Open DEBUG_PATH]
                          (Raise (OSError DEBUG_PATH)))
             | None =>
                 exists written rest,
                   files_content = written ++ rest
                   /\ let fs1 :=
                        store_units files am written
                                    (<[DEBUG_PATH := content]> fs) in
                      let log1 :=
                        log_before_units content
                          ++ flat_map (unit_log files am) written in
                      match rest with
                      | [] =>
                          main e files fs
                          = (fs1,
                             mkOut (log1 ++ [Print (str "Import complete.")])
                                   (Ok tt))
                      | u :: _ =>
                          let path := unit_path u.1 in
                          if writable e path then
                            exists cut,
                              write_fails e path
                                          (restore_unit files am u.1 u.2)
                              = Some cut
                              /\ main e files fs
                                 = (<[path := cut]> fs1,
                                    mkOut (log1 ++ [Print (restoring_line u.1);
                                                    Open path])
                                          (Raise (OSError path)))
                          else
                            main e files fs
                            = (fs1,
                               mkOut (log1 ++ [Print (restoring_line u.1)])
                                     (Raise (OSError path)))
                      end
             end
           else
             main e files fs
             = (fs,
                mkOut [Print (str "Converting DOCX to Markdown...")]
                      (Raise (OSError DEBUG_PATH)))
  end.
Proof.
  destruct (convert_file e) as [content|x] eqn:Hc.
  2:{ unfold main, say. by rewrite and_then_ok, Hc. }
  intros am. destruct (process_content_returns content am) as [fc Hp].
  exists fc. split; [exact Hp|].
  destruct (write_file_cases e DEBUG_PATH content fs)
    as [(Hw & Hf & E) | [(Hw & cut & Hf & E) | (Hw & E)]]; rewrite Hw.
  - rewrite Hf.
    destruct (write_units_shape e files am fc (<[DEBUG_PATH := content]> fs))
      as (written & rest & Hfc & H).
    exists written, rest. split; [exact Hfc|]. cbv zeta.
    rewrite (main_from_units e files fs content fc Hc Hw Hf Hp).
    destruct rest as [|u rest'].
    + fold am. rewrite H. cbn [fst snd log status]. by rewrite <- !app_assoc.
    + cbv zeta in H. fold am. destruct (writable e (unit_path u.1)).
      * destruct H as (cut & Hcut & ->). exists cut. split; [exact Hcut|].
        cbn [fst snd log status]. by rewrite <- !app_assoc.
      * rewrite H. cbn [fst snd log status]. by rewrite <- !app_assoc.
  - rewrite Hf. unfold main, say. by rewrite and_then_ok, Hc, E.
  - unfold main, say. by rewrite and_then_ok, Hc, E.
Qed.

(** C9 as stated fails.  In this run of [main] on the example document
    every file can be opened and the write to the second unit raises
    part of the way: [main] raises, the first unit has been written in
    full before the second was announced and decoded, and the file of
    the second unit, which held an older text, is left with the first
    twenty characters of the restored text; a run in which no write
    raises leaves the whole text there. *)
Lemma import_partial_write_counterexample :
  status (main env_write_cut FILES files_before).2
  = Raise (OSError (str "docs/validity.md"))
  /\ files_before !! str "docs/validity.md" = Some (str "The text of before.")
  /\ (main env_write_cut FILES files_before).1 !! str "docs/validity.md"
     = Some (str "<input type='checkbo")
  /\ (main (mkEnv (Ok example_document) (fun _ => true) (fun _ _ => None))
            FILES files_before).1 !! str "docs/validity.md"
     = Some (cb_control (str "1-1") ++ [nl] ++ str "Text" ++ [nl]
             ++ str "///" ++ [nl] ++ str "/// details | T" ++ [nl]
             ++ str "    type: info" ++ [nl; nl] ++ str "body " ++ [nl]
             ++ str "///" ++ [nl])
  /\ (main env_write_cut FILES files_before).1 !! str "docs/introduction.md"
     = Some (str "See [Go](validity.md#x){ #y }" ++ [nl])
  /\ log (main env_write_cut FILES files_before).2
     = [ Print (str "Converting DOCX to Markdown...");
         Open (str "debug_import_full.md");
         Write (str "debug_import_full.md") example_document;
         Print (str "Building anchor map...");
         Print (str "Processing content...");
         Print (str "Restoring introduction.md...");
         Open (str "docs/introduction.md");
         Write (str "docs/introduction.md")
               (str "See [Go](validity.md#x){ #y }" ++ [nl]);
         Print (str "Restoring validity.md...");
         Open (str "docs/validity.md") ].
Proof. repeat split; vm_compute; reflexivity. Qed.

(** The paths the loop over the units can change. *)
Lemma write_units_touches (e : env) (files : list pystr)
      (am : gmap pystr pystr) (items : list (pystr * list pystr))
      (fs : file_system) (p : pystr) :
  (write_units e files am items fs).1 !! p = fs !! p
  \/ exists filename lines,
      (filename, lines) ∈ items /\ p = path_join DOCS_DIR filename.
Proof.
  revert fs. induction items as [|[name lines] items IH]; intros fs.
  - by left.
  - destruct (decide (p = path_join DOCS_DIR name)) as [->|Hne].
    { right. exists name, lines. split; [left | done]. }
    cbn [write_units]. unfold say. rewrite and_then_ok.
    destruct (write_file_cases e (path_join DOCS_DIR name)
                (restore_unit files am name lines) fs)
      as [(_ & _ & ->) | [(_ & cut & _ & ->) | (_ & ->)]].
    + rewrite and_then_ok. cbn [fst snd].
      destruct (IH (<[path_join DOCS_DIR name
                      := restore_unit files am name lines]> fs))
        as [-> | (f & l & Hin & Hp)].
      * left. by apply lookup_insert_ne.
      * right. exists f, l. split; [by right | done].
    + rewrite and_then_raise. left. by apply lookup_insert_ne.
    + rewrite and_then_raise. by left.
Qed.

(** With a converter that returns, and files that can all be opened and
    written, [main] returns. *)
Lemma main_returns (e : env) (files : list pystr) (fs : file_system)
      (content : pystr) :
  convert_file e = Ok content ->
  (forall p, writable e p = true) ->
  (forall p text, write_fails e p text = None) ->
  status (main e files fs).2 = Ok tt.
Proof.
  intros Hc Hw Hf.
  destruct (process_content_returns content (build_anchor_map content))
    as [fc Hp].
  rewrite (main_from_units e files fs content fc Hc (Hw _) (Hf _ _) Hp).
  cbv zeta.
  destruct (write_units_shape e files (build_anchor_map content) fc
              (<[DEBUG_PATH := content]> fs)) as (written & rest & _ & H).
  destruct rest as [|u rest'].
  - by rewrite H.
  - cbv zeta in H. rewrite Hw in H. destruct H as (cut & Hcut & _).
    by rewrite Hf in Hcut.
Qed.

(** A run of [main] on the example document: with every file writable
    both units are written in full; when the second unit cannot be
    opened, the first is written in full and the second is not touched. *)
Example main_run_example :
  let all := mkEnv (Ok example_document) (fun _ => true) (fun _ _ => None) in
  let second_fails :=
    mkEnv (Ok example_document)
          (fun p => negb (Str.eqb p (str "docs/validity.md")))
          (fun _ _ => None) in
  status (main all FILES ∅).2 = Ok tt
  /\ (main all FILES ∅).1 !! str "docs/introduction.md"
     = Some (str "See [Go](validity.md#x){ #y }" ++ [nl])
  /\ (main all FILES ∅).1 !! str "docs/validity.md"
     = Some (cb_control (str "1-1") ++ [nl] ++ str "Text" ++ [nl]
             ++ str "///" ++ [nl] ++ str "/// details | T" ++ [nl]
             ++ str "    type: info" ++ [nl; nl] ++ str "body " ++ [nl]
             ++ str "///" ++ [nl])
  /\ status (main second_fails FILES ∅).2
     = Raise (OSError (str "docs/validity.md"))
  /\ (main second_fails FILES ∅).1 !! str "docs/introduction.md"
     = Some (str "See [Go](validity.md#x){ #y }" ++ [nl])
  /\ (main second_fails FILES ∅).1 !! str "docs/validity.md" = None.
Proof. repeat split; vm_compute; reflexivity. Qed.

End MainFacts.

(** ** The inline control codec *)

Section NeedsFacts.
Import Re.

Lemma run_needs {A : Type} (c : ascii) (r : re) (s : pystr) (cs : caps)
      (k : pystr -> caps -> option A) :
  needs c r = true -> c ∉ s -> run r s cs k = None.
Proof.
  revert s cs k.
  induction r as [| c' | p | a IHa b IHb | g p | n r IH | r IH | ];
    intros s cs k Hn Hc; simpl in Hn; try done.
  - simpl. destruct s as [|x t]; [done|].
    destruct (Char.eqb c' x) eqn:E; [|done].
    apply char_eqb_eq in Hn as ->, E as ->.
    exfalso. apply Hc. left.
  - simpl. apply orb_true_iff in Hn as [Ha | Hb].
    + by apply IHa.
    + apply run_none. intros s' cs' Hs'. apply IHb; [done|].
      intros Hin. apply Hc. destruct Hs' as [pre ->].
      apply elem_of_app. by right.
  - simpl. by apply IH.
Qed.

Lemma match_at_needs (c : ascii) (r : re) (s : pystr) :
  needs c r = true -> c ∉ s -> match_at r s = None.
Proof. intros. by apply (run_needs c). Qed.

Lemma notin_suffix (c : ascii) (s s' : pystr) :
  c ∉ s -> s' `suffix_of` s -> c ∉ s'.
Proof.
  intros Hc [pre ->] Hin. apply Hc, elem_of_app. by right.
Qed.

Lemma search_needs (c : ascii) (r : re) (s : pystr) :
  needs c r = true -> c ∉ s -> search r s = None.
Proof.
  intros Hn Hc. apply search_none. intros s' Hs'.
  apply (match_at_needs c); [done|]. by apply (notin_suffix c s).
Qed.

Lemma sub_needs (c : ascii) (r : re) (f : rmatch -> pystr) (s : pystr) :
  needs c r = true -> c ∉ s -> sub r f s = s.
Proof.
  intros Hn Hc. apply sub_no_match. intros s' Hs'.
  apply (match_at_needs c); [done|]. by apply (notin_suffix c s).
Qed.

(** A greedy repeat that can run over [u] comes back to the end of [u]
    when the rest of the pattern matches there and nowhere later. *)
Lemma rep_greedy_last {A : Type} (p : ascii -> bool) (k : pystr -> option A)
      (u v : pystr) (x : A) :
  forallb p u = true ->
  k v = Some x ->
  (forall s', s' `suffix_of` v -> s' <> v -> k s' = None) ->
  rep_greedy p k (u ++ v) = Some x.
Proof.
  intros Hu Hk Hlater. induction u as [|c u IH]; simpl.
  - destruct v as [|c t]; simpl; [done|].
    rewrite rep_greedy_none.
    + by destruct (p c).
    + intros s' Hs'. apply Hlater; [by apply suffix_cons_r|].
      intros ->. apply suffix_length in Hs'. simpl in Hs'. lia.
  - simpl in Hu. apply andb_true_iff in Hu as [Hc Hu].
    by rewrite Hc, IH.
Qed.

Lemma suffix_cons_cases (s' : pystr) (c : ascii) (l : pystr) :
  s' `suffix_of` (c :: l) -> s' = c :: l \/ s' `suffix_of` l.
Proof.
  intros [[|x k] E]; [by left|]. right. simpl in E. injection E as -> ->.
  by apply suffix_app_r.
Qed.

Lemma suffix_app_cases (s' a b : pystr) :
  s' `suffix_of` (a ++ b) ->
  (exists a', a' `suffix_of` a /\ a' <> [] /\ s' = a' ++ b) \/ s' `suffix_of` b.
Proof.
  induction a as [|c a IH]; simpl; [by right|].
  intros [-> | H]%suffix_cons_cases.
  - left. exists (c :: a). done.
  - destruct (IH H) as [[a' [Ha' [Hn ->]]] | Hb]; [|by right].
    left. exists a'. split; [by apply suffix_cons_r | done].
Qed.

End NeedsFacts.

Section ControlFacts.

(** One step of reading a pattern that starts with a literal. *)
Ltac eat_lit H :=
  match type of H with
  | context [match ?s with [] => _ | _ :: _ => _ end] =>
      destruct s as [|? s]; [discriminate H|];
      match type of H with
      | context [Char.eqb ?a ?b] =>
          let E := fresh "E" in
          destruct (Char.eqb a b) eqn:E; [|discriminate H];
          apply char_eqb_eq in E; subst
      end
  end.

Lemma cb_input_tail_inv {A : Type} (s : pystr) (cs : Re.caps)
      (k : pystr -> Re.caps -> option A) (x : A) :
  Re.run cb_input_tail s cs k = Some x ->
  exists t, s = str "id=" ++ dq :: str "cb-" ++ t.
Proof.
  unfold cb_input_tail.
  cbn [Re.cat Re.run Re.lits Re.plus str list_ascii_of_string].
  intros H. do 7 eat_lit H. eauto.
Qed.

Lemma pledge_input_tail_inv {A : Type} (s : pystr) (cs : Re.caps)
      (k : pystr -> Re.caps -> option A) (x : A) :
  Re.run pledge_input_tail s cs k = Some x ->
  exists t, s = str "name=" ++ dq :: str "pledge_" ++ t.
Proof.
  unfold pledge_input_tail.
  cbn [Re.cat Re.run Re.lits Re.plus str list_ascii_of_string].
  intros H. do 13 eat_lit H. eauto.
Qed.

(** [H] says that a text with a literal head is a suffix of a text
    spelled out character by character: every position at which the two
    differ is discarded. *)
Ltac peel H :=
  repeat (apply suffix_cons_cases in H as [H | H]; [discriminate H|]).

Ltac peel_end H :=
  peel H; apply suffix_nil_inv in H; discriminate H.

(** The text [X' ++ S] cannot begin with a literal that has a double
    quote where [X'], which has none, still runs. *)
Ltac in_identifier X' Hq Heq :=
  do 7 (try (destruct X' as [|? X']));
  cbn [app] in Heq; try discriminate Heq;
  injection Heq as Heq; subst;
  exfalso; apply Hq; repeat (first [left | right]).

Lemma cb_tail_not_in_pledge_control {A : Type} (x s' : pystr) (cs : Re.caps)
      (k : pystr -> Re.caps -> option A) :
  dq ∉ x ->
  s' `suffix_of` pledge_control x ->
  Re.run cb_input_tail s' cs k = None.
Proof.
  intros Hq Hs'. destruct (Re.run cb_input_tail s' cs k) eqn:E; [|done].
  exfalso. apply cb_input_tail_inv in E as [t ->].
  unfold pledge_control, dq in Hs'.
  cbn [str list_ascii_of_string app] in Hs'.
  peel Hs'.
  apply suffix_app_cases in Hs' as [[x' [Hx' [Nx' Heq]]] | Hs'].
  - assert (dq ∉ x') as Hq' by (by apply (notin_suffix dq x)).
    unfold dq in *. cbn [str list_ascii_of_string app] in Heq.
    in_identifier x' Hq' Heq.
  - peel_end Hs'.
Qed.

Lemma take_minus_eq (l w s : pystr) :
  l = w ++ s -> take (length l - length s) l = w.
Proof. intros ->. apply take_app_minus. Qed.

(** The two export patterns have the shape [<input[^>]+T]: they match
    with the repeat ending where [T] matches last. *)
Lemma input_shape_match (T : Re.re) (c : ascii) (u v : pystr) (m : Re.rmatch) :
  let s := str "<input" ++ c :: u ++ v in
  Char.except ">" c = true ->
  forallb (Char.except ">") u = true ->
  Re.run T v []
         (fun s' cs => Some (Re.mkMatch (take (length s - length s') s) cs s'))
  = Some m ->
  (forall s' cs (k : pystr -> Re.caps -> option Re.rmatch),
      s' `suffix_of` v -> s' <> v -> Re.run T s' cs k = None) ->
  Re.match_at
    (Re.Seq (Re.lits (str "<input")) (Re.Seq (Re.plus (Char.except ">")) T)) s
  = Some m.
Proof.
  intros s Hc Hu Hv Hlater. unfold Re.match_at.
  cbn [Re.run]. unfold s at 1. rewrite run_lits_app.
  cbn [Re.plus Re.run]. rewrite Hc.
  apply rep_greedy_last; [done | done |].
  intros s' Hs' Hne. by apply Hlater.
Qed.

Lemma input_shape_none (T : Re.re) (s : pystr) :
  (forall s' cs (k : pystr -> Re.caps -> option Re.rmatch),
      s' `suffix_of` s -> Re.run T s' cs k = None) ->
  Re.match_at
    (Re.Seq (Re.lits (str "<input")) (Re.Seq (Re.plus (Char.except ">")) T)) s
  = None.
Proof.
  intros H. unfold Re.match_at. cbn [Re.run].
  apply run_none. intros s1 cs1 H1.
  apply run_none. intros s2 cs2 H2.
  apply H. by etrans.
Qed.

Lemma cb_tail_not_later {A : Type} (x s' : pystr) (cs : Re.caps)
      (k : pystr -> Re.caps -> option A) :
  dq ∉ x ->
  let v := str "id=" ++ [dq] ++ str "cb-" ++ x ++ [dq]
               ++ str " class=" ++ [dq] ++ str "cb-sa" ++ [dq]
               ++ str " onchange=" ++ [dq] ++ str "toggleCheckboxes(event)"
               ++ [dq] ++ str "/>" in
  s' `suffix_of` v -> s' <> v ->
  Re.run cb_input_tail s' cs k = None.
Proof.
  intros Hq v Hs' Hne. destruct (Re.run cb_input_tail s' cs k) eqn:E; [|done].
  exfalso. apply cb_input_tail_inv in E as [t ->].
  unfold v, dq in Hs', Hne.
  cbn [str list_ascii_of_string app] in Hs', Hne.
  apply suffix_cons_cases in Hs' as [Hs' | Hs']; [done|].
  peel Hs'.
  apply suffix_app_cases in Hs' as [[x' [Hx' [Nx' Heq]]] | Hs'].
  - assert (dq ∉ x') as Hq' by (by apply (notin_suffix dq x)).
    unfold dq in *. cbn [str list_ascii_of_string app] in Heq.
    in_identifier x' Hq' Heq.
  - peel_end Hs'.
Qed.

Lemma pledge_tail_not_later {A : Type} (x s' : pystr) (cs : Re.caps)
      (k : pystr -> Re.caps -> option A) :
  dq ∉ x ->
  let v := str "name=" ++ [dq] ++ str "pledge_" ++ x ++ [dq]
               ++ str " class=" ++ [dq] ++ str "data-input" ++ [dq]
               ++ str " />" in
  s' `suffix_of` v -> s' <> v ->
  Re.run pledge_input_tail s' cs k = None.
Proof.
  intros Hq v Hs' Hne.
  destruct (Re.run pledge_input_tail s' cs k) eqn:E; [|done].
  exfalso. apply pledge_input_tail_inv in E as [t ->].
  unfold v, dq in Hs', Hne.
  cbn [str list_ascii_of_string app] in Hs', Hne.
  apply suffix_cons_cases in Hs' as [Hs' | Hs']; [done|].
  peel Hs'.
  apply suffix_app_cases in Hs' as [[x' [Hx' [Nx' Heq]]] | Hs'].
  - assert (dq ∉ x') as Hq' by (by apply (notin_suffix dq x)).
    unfold dq in *. cbn [str list_ascii_of_string app] in Heq.
    in_identifier x' Hq' Heq.
  - peel_end Hs'.
Qed.

Lemma cb_input_match (x : pystr) :
  x <> [] -> dq ∉ x ->
  Re.match_at ExportDocx.cb_input_pattern (cb_control x)
  = Some (Re.mkMatch (cb_control x) [(1, str "cb-" ++ x)] []).
Proof.
  intros Nx Hq.
  change ExportDocx.cb_input_pattern
    with (Re.Seq (Re.lits (str "<input"))
                 (Re.Seq (Re.plus (Char.except ">")) cb_input_tail)).
  apply (input_shape_match cb_input_tail " " (str "type='checkbox' checked ")
           (str "id=" ++ [dq] ++ str "cb-" ++ x ++ [dq]
                ++ str " class=" ++ [dq] ++ str "cb-sa" ++ [dq]
                ++ str " onchange=" ++ [dq] ++ str "toggleCheckboxes(event)"
                ++ [dq] ++ str "/>")).
  - reflexivity.
  - reflexivity.
  - destruct x as [|x0 x]; [done|].
    pose proof (except_head _ _ _ Hq) as Hx0.
    apply not_elem_of_cons in Hq as [_ Hq]. apply except_all in Hq.
    unfold cb_input_tail, cb_control, dq in *.
    cbn [Re.cat Re.run Re.lits Re.plus str list_ascii_of_string app].
    cbn -[length take Re.rep_greedy]. rewrite Hx0.
    apply rep_greedy_max; [exact Hq | reflexivity |].
    cbn -[length take].
    f_equal. f_equal.
    + apply take_minus_eq. by rewrite app_nil_r.
    + f_equal. f_equal. by apply take_minus_eq.
  - intros s' cs k Hs' Hne. by apply (cb_tail_not_later x).
Qed.

Lemma pledge_input_match (x : pystr) :
  x <> [] -> dq ∉ x ->
  Re.match_at ExportDocx.pledge_input_pattern (pledge_control x)
  = Some (Re.mkMatch (pledge_control x) [(1, str "pledge_" ++ x)] []).
Proof.
  intros Nx Hq.
  change ExportDocx.pledge_input_pattern
    with (Re.Seq (Re.lits (str "<input"))
                 (Re.Seq (Re.plus (Char.except ">")) pledge_input_tail)).
  apply (input_shape_match pledge_input_tail " "
           (str "type='checkbox' checked ")
           (str "name=" ++ [dq] ++ str "pledge_" ++ x ++ [dq]
                ++ str " class=" ++ [dq] ++ str "data-input" ++ [dq]
                ++ str " />")).
  - reflexivity.
  - reflexivity.
  - destruct x as [|x0 x]; [done|].
    pose proof (except_head _ _ _ Hq) as Hx0.
    apply not_elem_of_cons in Hq as [_ Hq]. apply except_all in Hq.
    unfold pledge_input_tail, pledge_control, dq in *.
    cbn [Re.cat Re.run Re.lits Re.plus str list_ascii_of_string app].
    cbn -[length take Re.rep_greedy]. rewrite Hx0.
    apply rep_greedy_max; [exact Hq | reflexivity |].
    cbn -[length take].
    f_equal. f_equal.
    + apply take_minus_eq. by rewrite app_nil_r.
    + f_equal. f_equal. by apply take_minus_eq.
  - intros s' cs k Hs' Hne. by apply (pledge_tail_not_later x).
Qed.

Lemma cb_token_match (x : pystr) :
  x <> [] -> "]" ∉ x ->
  Re.match_at ImportDocx.cb_pattern (cb_token x)
  = Some (Re.mkMatch (cb_token x) [(1, str "cb-" ++ x)] []).
Proof.
  intros Nx Hb. destruct x as [|x0 x]; [done|].
  pose proof (except_head _ _ _ Hb) as Hx0.
  apply not_elem_of_cons in Hb as [_ Hb]. apply except_all in Hb.
  unfold Re.match_at, ImportDocx.cb_pattern, cb_token.
  cbn [Re.cat Re.run Re.lits Re.plus str list_ascii_of_string app].
  cbn -[length take Re.rep_greedy]. rewrite Hx0.
  apply rep_greedy_max; [exact Hb | reflexivity |].
  cbn -[length take]. f_equal. f_equal.
  - apply take_minus_eq. by rewrite app_nil_r.
  - f_equal. f_equal. by apply take_minus_eq.
Qed.

Lemma pledge_token_match (x : pystr) :
  x <> [] -> "]" ∉ x ->
  Re.match_at ImportDocx.pledge_pattern (pledge_token x)
  = Some (Re.mkMatch (pledge_token x) [(1, str "pledge_" ++ x)] []).
Proof.
  intros Nx Hb. destruct x as [|x0 x]; [done|].
  pose proof (except_head _ _ _ Hb) as Hx0.
  apply not_elem_of_cons in Hb as [_ Hb]. apply except_all in Hb.
  unfold Re.match_at, ImportDocx.pledge_pattern, pledge_token.
  cbn [Re.cat Re.run Re.lits Re.plus str list_ascii_of_string app].
  cbn -[length take Re.rep_greedy]. rewrite Hx0.
  apply rep_greedy_max; [exact Hb | reflexivity |].
  cbn -[length take]. f_equal. f_equal.
  - apply take_minus_eq. by rewrite app_nil_r.
  - f_equal. f_equal. by apply take_minus_eq.
Qed.

Lemma search_cons_none (r : Re.re) (c : ascii) (t : pystr) :
  Re.match_at r (c :: t) = None -> Re.search r (c :: t) = Re.search r t.
Proof. simpl. by intros ->. Qed.

Ltac notin_literal := apply (bool_decide_unpack _); by vm_compute.

(** Decoding a token. *)
Lemma restore_cb_token (x : pystr) :
  x <> [] -> "]" ∉ x ->
  ImportDocx.restore_checkbox_line (cb_token x) = cb_control x.
Proof.
  intros Nx Hb. unfold ImportDocx.restore_checkbox_line.
  rewrite (search_here _ _ _ (cb_token_match x Nx Hb)). cbn [Re.matched].
  rewrite (sub_whole _ _ _ _ (cb_token_match x Nx Hb)); [|done|done|done].
  change (ImportDocx.replace_cb _) with (cb_control x).
  rewrite (search_needs "]"); [done | done |].
  unfold cb_control. rewrite !not_elem_of_app.
  repeat split; first [exact Hb | notin_literal].
Qed.

Lemma restore_pledge_token (x : pystr) :
  x <> [] -> "]" ∉ x -> "[" ∉ x ->
  ImportDocx.restore_checkbox_line (pledge_token x) = pledge_control x.
Proof.
  intros Nx Hb Ho. unfold ImportDocx.restore_checkbox_line.
  assert (Re.search ImportDocx.cb_pattern (pledge_token x) = None) as ->.
  { unfold pledge_token.
    change (str "[pledge_" ++ x ++ str "]")
      with ("[" :: (str "pledge_" ++ x ++ str "]")).
    rewrite search_cons_none by reflexivity.
    apply (search_needs "["); [done|].
    rewrite !not_elem_of_app.
    repeat split; first [exact Ho | notin_literal]. }
  cbn [Re.matched].
  rewrite (search_here _ _ _ (pledge_token_match x Nx Hb)). cbn [Re.matched].
  rewrite (sub_whole _ _ _ _ (pledge_token_match x Nx Hb)); [|done|done|done].
  reflexivity.
Qed.

(** Encoding a canonical control element. *)
Lemma process_cb_control (x : pystr) :
  x <> [] -> dq ∉ x ->
  ExportDocx.process_checkboxes (cb_control x) = cb_token x.
Proof.
  intros Nx Hq. unfold ExportDocx.process_checkboxes.
  rewrite (sub_whole _ _ _ _ (cb_input_match x Nx Hq)); [|done|done|done].
  change (ExportDocx.bracket_group1 _) with (cb_token x).
  apply (sub_needs dq); [done|].
  unfold cb_token. rewrite !not_elem_of_app.
  repeat split; first [exact Hq | notin_literal].
Qed.

Lemma process_pledge_control (x : pystr) :
  x <> [] -> dq ∉ x ->
  ExportDocx.process_checkboxes (pledge_control x) = pledge_token x.
Proof.
  intros Nx Hq. unfold ExportDocx.process_checkboxes.
  rewrite (sub_no_match ExportDocx.cb_input_pattern).
  - by rewrite (sub_whole _ _ _ _ (pledge_input_match x Nx Hq)).
  - intros s' Hs'.
    change ExportDocx.cb_input_pattern
      with (Re.Seq (Re.lits (str "<input"))
                   (Re.Seq (Re.plus (Char.except ">")) cb_input_tail)).
    apply input_shape_none. intros s2 cs k H2.
    apply (cb_tail_not_in_pledge_control x); [done|]. by etrans.
Qed.

(** C3, as amended. For an identifier that is not empty and has no
    closing bracket and no double quote: the token [[cb-x]] is decoded
    to the canonical control element (checked, class [cb-sa], the
    [onchange] hook), that element is encoded to the token again, and
    decoding, encoding and decoding again gives what decoding once
    gives; the same holds of the token [[pledge_x]] and its canonical
    element (checked, class [data-input]) when the identifier has no
    opening bracket either. *)
Theorem control_codec_canonical (x : pystr) :
  x <> [] -> "]" ∉ x -> dq ∉ x ->
  (ImportDocx.restore_checkboxes [cb_token x] = [cb_control x]
   /\ ExportDocx.process_checkboxes (cb_control x) = cb_token x
   /\ ImportDocx.restore_checkboxes
        (map ExportDocx.process_checkboxes
             (ImportDocx.restore_checkboxes [cb_token x]))
      = ImportDocx.restore_checkboxes [cb_token x])
  /\ ("[" ∉ x ->
      ImportDocx.restore_checkboxes [pledge_token x] = [pledge_control x]
      /\ ExportDocx.process_checkboxes (pledge_control x) = pledge_token x
      /\ ImportDocx.restore_checkboxes
           (map ExportDocx.process_checkboxes
                (ImportDocx.restore_checkboxes [pledge_token x]))
         = ImportDocx.restore_checkboxes [pledge_token x]).
Proof.
  intros Nx Hb Hq. unfold ImportDocx.restore_checkboxes. cbn [map].
  split.
  - rewrite restore_cb_token by done.
    rewrite process_cb_control by done.
    by rewrite restore_cb_token by done.
  - intros Ho. rewrite restore_pledge_token by done.
    rewrite process_pledge_control by done.
    by rewrite restore_pledge_token by done.
Qed.

Lemma control_codec_canonical_witness :
  ImportDocx.restore_checkboxes [str "[cb-1-1]"]
  = [cb_control (str "1-1")]
  /\ ExportDocx.process_checkboxes (cb_control (str "1-1")) = str "[cb-1-1]".
Proof.
  destruct (control_codec_canonical (str "1-1")) as [[H1 [H2 _]] _];
    [ discriminate
    | apply (bool_decide_unpack _); by vm_compute
    | apply (bool_decide_unpack _); by vm_compute
    | ].
  split; [exact H1 | exact H2].
Defined.

(** C3 as stated fails: an identifier with a double quote is not given
    back by the encoder. *)
Lemma control_codec_counterexample :
  ExportDocx.process_checkboxes
    (ImportDocx.restore_checkbox_line (cb_token (str "a" ++ [dq] ++ str "b")))
  = cb_token (str "a")
  /\ cb_token (str "a") <> cb_token (str "a" ++ [dq] ++ str "b").
Proof. split; [vm_compute; reflexivity | discriminate]. Qed.

End ControlFacts.

(* ===================================================================== *)
(** * Further properties of the code                                      *)
(* ===================================================================== *)

(** ** export_docx.py: escaping and the second pass over the controls *)

Section EscapeFacts.

Lemma replace_one_char (a : ascii) (new s : pystr) :
  Str.replace [a] new s
  = flat_map (fun c => if Char.eqb a c then new else [c]) s.
Proof.
  unfold Str.replace. induction s as [|c s IH]; [done|].
  cbn [Str.replace_from Str.startswith flat_map length Nat.sub].
  destruct (Char.eqb a c); cbn [andb]; by rewrite IH.
Qed.

Lemma replace_one_char_absent (a : ascii) (new s : pystr) :
  a ∉ s -> Str.replace [a] new s = s.
Proof.
  rewrite replace_one_char. induction s as [|c s IH]; [done|].
  intros [Hc Hs]%not_elem_of_cons. apply char_eqb_neq in Hc.
  cbn [flat_map]. rewrite Hc, IH by done. done.
Qed.

Lemma replace_one_char_elem (a x : ascii) (new s : pystr) :
  x ∈ Str.replace [a] new s -> x ∈ new \/ (x ∈ s /\ x <> a).
Proof.
  rewrite replace_one_char. induction s as [|c s IH]; cbn [flat_map].
  - by intros ?%elem_of_nil.
  - intros [H | H]%elem_of_app.
    + destruct (Char.eqb a c) eqn:E; [by left|].
      apply char_eqb_neq in E. apply list_elem_of_singleton in H as ->.
      right. split; [left | done].
    + destruct (IH H) as [? | [? ?]]; [by left|]. right. split; [by right|done].
Qed.

Lemma escape_html_lt (content : pystr) : "<" ∉ ExportDocx.escape_html content.
Proof.
  unfold ExportDocx.escape_html. change (str "<") with ["<"].
  change (str ">") with [">"].
  intros [H | [H Hne]]%replace_one_char_elem.
  - revert H. apply (bool_decide_unpack _). by vm_compute.
  - apply replace_one_char_elem in H as [H | [_ H]]; [|done].
    revert H. apply (bool_decide_unpack _). by vm_compute.
Qed.

Lemma escape_html_gt (content : pystr) : ">" ∉ ExportDocx.escape_html content.
Proof.
  unfold ExportDocx.escape_html. change (str "<") with ["<"].
  change (str ">") with [">"].
  intros [H | [_ H]]%replace_one_char_elem; [|done].
  revert H. apply (bool_decide_unpack _). by vm_compute.
Qed.

Lemma escape_html_plain (content : pystr) :
  "<" ∉ content -> ">" ∉ content -> ExportDocx.escape_html content = content.
Proof.
  intros H1 H2. unfold ExportDocx.escape_html. change (str "<") with ["<"].
  change (str ">") with [">"].
  by rewrite (replace_one_char_absent "<"), (replace_one_char_absent ">").
Qed.

Lemma process_checkboxes_plain (line : pystr) :
  "<" ∉ line -> ExportDocx.process_checkboxes line = line.
Proof.
  intros H. unfold ExportDocx.process_checkboxes.
  rewrite (sub_needs "<" ExportDocx.cb_input_pattern) by done.
  by apply (sub_needs "<").
Qed.

(** X1. The text [escape_html] returns has no angle bracket, and a text
    without angle brackets is returned as it is. *)
Theorem escape_html_no_bracket (content : pystr) :
  ("<" ∉ ExportDocx.escape_html content)
  /\ (">" ∉ ExportDocx.escape_html content)
  /\ ("<" ∉ content -> ">" ∉ content ->
      ExportDocx.escape_html content = content).
Proof.
  split; [apply escape_html_lt|]. split; [apply escape_html_gt|].
  apply escape_html_plain.
Qed.

(** X2. In the export of a unit the controls are encoded a second time,
    after the escaping: that pass changes nothing, whatever the text. *)
Theorem second_checkbox_pass_is_identity (content : pystr) :
  ExportDocx.process_checkboxes (ExportDocx.escape_html content)
  = ExportDocx.escape_html content.
Proof. apply process_checkboxes_plain, escape_html_lt. Qed.

End EscapeFacts.

(** ** Text without links and controls *)

Section PlainFacts.

Lemma process_links_no_bracket (files : list pystr) (cur line : pystr) :
  "[" ∉ line -> ExportDocx.process_links files line cur = line.
Proof. intros H. by apply (sub_needs "["). Qed.

(** X3. A text without an opening square bracket is left as it is by the
    link encoder and by the three decoders, and a text without an
    opening angle bracket by the control encoder. *)
Theorem codecs_keep_plain_text (files : list pystr) (am : gmap pystr pystr)
        (cur line : pystr) :
  ("[" ∉ line ->
   ExportDocx.process_links files line cur = line
   /\ ImportDocx.restore_links files [line] am cur = [line]
   /\ ImportDocx.restore_attributes [line] = [line]
   /\ ImportDocx.restore_checkboxes [line] = [line])
  /\ ("<" ∉ line -> ExportDocx.process_checkboxes line = line).
Proof.
  split.
  - intros H. repeat split.
    + by apply process_links_no_bracket.
    + unfold ImportDocx.restore_links. cbn [map]. f_equal.
      by apply (sub_needs "[").
    + unfold ImportDocx.restore_attributes. cbn [map]. f_equal.
      by apply (sub_needs "[").
    + unfold ImportDocx.restore_checkboxes, ImportDocx.restore_checkbox_line.
      cbn [map]. f_equal.
      rewrite (search_needs "[" ImportDocx.cb_pattern) by done.
      cbn [Re.matched].
      by rewrite (search_needs "[" ImportDocx.pledge_pattern) by done.
  - apply process_checkboxes_plain.
Qed.

Lemma split_not_nil (sep : ascii) (s : pystr) : Str.split sep s <> [].
Proof.
  destruct s as [|c s]; [done|]. cbn [Str.split].
  destruct (Char.eqb sep c); [done|]. by destruct (Str.split sep s).
Qed.

Lemma join_cons (sep p : pystr) (ps : list pystr) :
  ps <> [] -> Str.join sep (p :: ps) = p ++ sep ++ Str.join sep ps.
Proof. by destruct ps. Qed.

Lemma join_split (sep : ascii) (s : pystr) :
  Str.join [sep] (Str.split sep s) = s.
Proof.
  induction s as [|c s IH]; [done|]. cbn [Str.split].
  pose proof (split_not_nil sep s) as Hn.
  destruct (Char.eqb sep c) eqn:E.
  - apply char_eqb_eq in E as <-. by rewrite join_cons, IH.
  - destruct (Str.split sep s) as [|w ws] eqn:Es; [done|].
    destruct ws as [|w' ws].
    + cbn [Str.join] in *. by rewrite IH.
    + rewrite join_cons by done. rewrite join_cons in IH by done.
      by rewrite <- IH.
Qed.

Lemma lstrip_spaces_length (line : pystr) :
  length (Str.lstrip_spaces line) <= length line.
Proof.
  unfold Str.lstrip_spaces. induction line as [|c l IH]; simpl; [done|].
  destruct (Char.only " " c); simpl; lia.
Qed.

Lemma process_line_depth_0 (line : pystr) : ExportDocx.process_line 0 line = line.
Proof.
  unfold ExportDocx.process_line. pose proof (lstrip_spaces_length line).
  replace (0 * 4 <=? _)%Z with true by (symmetry; apply Z.leb_le; lia).
  done.
Qed.

Lemma unindent_fold_plain (lines out : list pystr) :
  Forall (fun line =>
            Re.match_at ExportDocx.block_start_pattern line = None
            /\ Re.match_at ExportDocx.block_end_pattern line = None
            /\ ExportDocx.needs_separator line = false) lines ->
  fold_left ExportDocx.unindent_step lines (ExportDocx.mkFlat out 0)
  = ExportDocx.mkFlat (out ++ lines) 0.
Proof.
  intros H. revert out. induction H as [|l lines [Hs [He Hn]] _ IH]; intros out.
  - by rewrite app_nil_r.
  - cbn [fold_left]. unfold ExportDocx.unindent_step at 2.
    rewrite Hs, He. cbn [Re.matched ExportDocx.stack_depth ExportDocx.new_lines].
    rewrite process_line_depth_0, Hn, IH. by rewrite <- app_assoc.
Qed.

(** X4. A text in which no line is a block start or a block end, and no
    line is a metadata or control line, is flattened to itself; if it has
    no square or angle bracket either, the export of the unit is its
    marker followed by the text as it is. *)
Theorem plain_unit_export (files : list pystr) (filename content : pystr) :
  Forall (fun line =>
            Re.match_at ExportDocx.block_start_pattern line = None
            /\ Re.match_at ExportDocx.block_end_pattern line = None
            /\ ExportDocx.needs_separator line = false)
         (Str.split nl content) ->
  ExportDocx.unindent_blocks content = content
  /\ ("[" ∉ content -> "<" ∉ content -> ">" ∉ content ->
      ExportDocx.export_unit files filename content
      = [nl; nl] ++ str "**=== FILE: " ++ filename ++ str " ===** {#"
             ++ Str.lower (Str.replace_char "." "-" filename) ++ str "}"
             ++ [nl; nl] ++ content).
Proof.
  intros H.
  assert (ExportDocx.unindent_blocks content = content) as Hu.
  { unfold ExportDocx.unindent_blocks, ExportDocx.unindent_run,
      ExportDocx.flat_init.
    rewrite unindent_fold_plain by done. cbn [ExportDocx.new_lines app].
    apply join_split. }
  split; [done|]. intros Hb Hlt Hgt. unfold ExportDocx.export_unit.
  rewrite process_links_no_bracket by done.
  rewrite (process_checkboxes_plain content Hlt), Hu.
  rewrite escape_html_plain by done.
  rewrite (process_checkboxes_plain content Hlt). by rewrite <- !app_assoc.
Qed.

Lemma plain_unit_export_witness :
  ExportDocx.unindent_blocks (str "Title" ++ [nl; nl] ++ str "Some text.")
  = str "Title" ++ [nl; nl] ++ str "Some text.".
Proof.
  refine (proj1 (plain_unit_export [] [] _ _)).
  repeat constructor.
Defined.

End PlainFacts.

(** ** The link codec: links to a whole unit, and the decoder alone *)

Section LinkCases.

Lemma process_links_registered_top (files : list pystr) (a b text : pystr) :
  b ∈ files ->
  "#" ∉ b -> ")" ∉ b -> b <> [] ->
  Str.contains (str ".md") b = true ->
  Str.startswith (str "http") b = false ->
  text <> [] -> "]" ∉ text ->
  ExportDocx.process_links files (str "[" ++ text ++ str "](" ++ b ++ str ")") a
  = if Str.eqb b a
    then str "[" ++ text ++ str "](#"
             ++ Str.lower (Str.replace_char "." "-" b) ++ str ")"
    else str "[" ++ text ++ str "](#" ++ encoded_name b ++ str ")".
Proof.
  intros Hb Hh Hp Nb Hmd Hhttp Nt Ht.
  rewrite process_links_plain by done.
  unfold ExportDocx.replace_link, Re.group', Re.group.
  cbn [Re.m_caps Re.lookup_group Nat.eqb default truthy Re.m_text id].
  rewrite Hmd, Hhttp. cbn [andb negb].
  rewrite split_notin by done.
  cbn [head default id lookup list_lookup truthy].
  apply str_in_iff in Hb. by rewrite Hb.
Qed.

Lemma find_target_registered_top (b : pystr) :
  b ∈ ImportDocx.FILES ->
  ImportDocx.find_target ImportDocx.FILES (encoded_name b) = (Some b, None).
Proof.
  intros Hb.
  repeat (apply elem_of_cons in Hb as [-> | Hb]);
    [reflexivity .. | by apply elem_of_nil in Hb].
Qed.

Lemma file_anchor_not_encoded (b f : pystr) :
  b ∈ ExportDocx.FILES -> f ∈ ImportDocx.FILES ->
  ~ reads_as_unit (Str.lower (Str.replace_char "." "-" b)) f.
Proof.
  intros Hb Hf.
  repeat (apply elem_of_cons in Hb as [-> | Hb]);
    [.. | by apply elem_of_nil in Hb];
    (repeat (apply elem_of_cons in Hf as [-> | Hf]);
     [.. | by apply elem_of_nil in Hf]);
    (intros [H | H]; vm_compute in H; discriminate H).
Qed.

Lemma file_anchor_chars (b : pystr) :
  b ∈ ExportDocx.FILES ->
  forallb Char.is_anchor_char (Str.lower (Str.replace_char "." "-" b)) = true
  /\ Str.lower (Str.replace_char "." "-" b) <> [].
Proof.
  intros Hb.
  repeat (apply elem_of_cons in Hb as [-> | Hb]);
    [.. | by apply elem_of_nil in Hb]; (split; [reflexivity | discriminate]).
Qed.

(** X5. A link, without annotation, to a whole registered unit [b]: met
    in another unit it is encoded to the anchor of the encoded name of
    [b] and decoded to the link to [b] again; met in [b] itself it is
    encoded to the anchor in the marker line of [b], dots turned into
    hyphens and letters lowered, and the decoder leaves that form as it
    is. *)
Theorem unit_link_round_trip (am : gmap pystr pystr) (a b text : pystr) :
  b ∈ ExportDocx.FILES ->
  text <> [] -> "]" ∉ text ->
  let link := fun target => str "[" ++ text ++ str "](" ++ target ++ str ")" in
  let encoded := ExportDocx.process_links ExportDocx.FILES (link b) a in
  (a <> b ->
   encoded = link (str "#" ++ encoded_name b)
   /\ ImportDocx.restore_links ImportDocx.FILES [encoded] am a = [link b])
  /\ (a = b ->
      encoded = link (str "#" ++ Str.lower (Str.replace_char "." "-" b))
      /\ ImportDocx.restore_links ImportDocx.FILES [encoded] am a = [encoded]).
Proof.
  intros Hb Nt Ht link encoded. subst link encoded. cbv beta.
  destruct (registered_unit_shape b Hb)
    as [Hh [Hp [Hmd [Hlen [Hhttp [Henc Nb]]]]]].
  rewrite process_links_registered_top by done.
  split.
  - intros Hab. apply not_eq_sym, str_eqb_neq in Hab as Hba. rewrite Hba.
    split; [done|].
    rewrite restore_links_plain; try done.
    + unfold ImportDocx.replace_link, Re.group', Re.group.
      cbn [Re.m_caps Re.lookup_group Nat.eqb default id].
      rewrite find_target_registered_top by done.
      cbn [default id truthy]. rewrite Hba.
      destruct b as [|b0 b']; [done|]. reflexivity.
    + destruct (encoded_name b) eqn:E; [|done].
      destruct b; [done | discriminate E].
  - intros ->. rewrite str_eqb_refl. split; [done|].
    destruct (file_anchor_chars b Hb) as [Hc Hn].
    rewrite restore_links_plain by done.
    unfold ImportDocx.replace_link, Re.group', Re.group.
    cbn [Re.m_caps Re.lookup_group Nat.eqb default id].
    rewrite find_target_none; [done|].
    intros f Hf. by apply file_anchor_not_encoded.
Qed.

Lemma unit_link_round_trip_witness :
  ImportDocx.restore_links ImportDocx.FILES
    [ExportDocx.process_links ExportDocx.FILES
       (str "[See](conclusion.md)") (str "validity.md")]
    ∅ (str "validity.md")
  = [str "[See](conclusion.md)"].
Proof.
  refine (proj2 (proj1 (unit_link_round_trip ∅ (str "validity.md")
                          (str "conclusion.md") (str "See") _ _ _) _));
    first [discriminate | (apply (bool_decide_unpack _); by vm_compute)].
Defined.

(** X6. The decoder on a reference that reads as an encoded reference to a
    registered unit [b]: the encoded name alone is decoded to a link to
    [b], or to the empty anchor when [b] is the unit being restored; the
    encoded name with a double underscore and an anchor is decoded to
    the link to that anchor of [b], or to the bare anchor when [b] is the
    unit being restored. *)
Theorem restore_links_encoded (am : gmap pystr pystr) (a b text s : pystr) :
  b ∈ ImportDocx.FILES ->
  text <> [] -> "]" ∉ text ->
  s <> [] -> forallb Char.is_anchor_char s = true ->
  let ref := fun target => [str "[" ++ text ++ str "](" ++ target ++ str ")"] in
  let decode := fun lines => ImportDocx.restore_links ImportDocx.FILES lines am a in
  decode (ref (str "#" ++ encoded_name b))
  = (if Str.eqb b a then ref (str "#") else ref b)
  /\ decode (ref (str "#" ++ encoded_name b ++ str "__" ++ s))
     = (if Str.eqb b a then ref (str "#" ++ s) else ref (b ++ str "#" ++ s)).
Proof.
  intros Hb Nt Ht Ns Hs ref decode. subst ref decode. cbv beta.
  destruct (registered_unit_shape b Hb)
    as [Hh [Hp [Hmd [Hlen [Hhttp [Henc Nb]]]]]].
  assert (encoded_name b <> []) as Ne.
  { destruct (encoded_name b) eqn:E; [|done]. destruct b; [done | discriminate E]. }
  split.
  - change (str "[" ++ text ++ str "](" ++ (str "#" ++ encoded_name b) ++ str ")")
      with (str "[" ++ text ++ str "](#" ++ encoded_name b ++ str ")").
    rewrite restore_links_plain by done.
    unfold ImportDocx.replace_link, Re.group', Re.group.
    cbn [Re.m_caps Re.lookup_group Nat.eqb default id].
    rewrite find_target_registered_top by done.
    cbn [default id truthy].
    destruct b as [|b0 b']; [done|]. by destruct (Str.eqb _ a).
  - change (str "[" ++ text ++ str "]("
                ++ (str "#" ++ encoded_name b ++ str "__" ++ s) ++ str ")")
      with (str "[" ++ text ++ str "](#"
                ++ (encoded_name b ++ str "__" ++ s) ++ str ")").
    rewrite restore_links_plain; try done.
    + unfold ImportDocx.replace_link, Re.group', Re.group.
      cbn [Re.m_caps Re.lookup_group Nat.eqb default id].
      rewrite find_target_registered by done.
      cbn [default id truthy].
      destruct b as [|b0 b']; [done|]. destruct s as [|s0 s']; [done|].
      destruct (Str.eqb _ a); cbn [truthy]; [done|].
      by rewrite <- !app_assoc.
    + by destruct (encoded_name b).
    + by rewrite !forallb_app, Henc, Hs.
Qed.

Lemma restore_links_encoded_witness :
  ImportDocx.restore_links ImportDocx.FILES
    [str "[Top](#validity_md)"] ∅ (str "validity.md")
  = [str "[Top](#)"].
Proof.
  refine (proj1 (restore_links_encoded ∅ (str "validity.md")
                   (str "validity.md") (str "Top") (str "x") _ _ _ _ _));
    first [discriminate | reflexivity
          | (apply (bool_decide_unpack _); by vm_compute)].
Defined.

End LinkCases.

(** ** The annotation codec *)

Section AnnotationFacts.

(** A lazy repeat stops at the first place where the rest matches. *)
Lemma rep_lazy_first {A : Type} (p : ascii -> bool) (k : pystr -> option A)
      (w s : pystr) (x : A) :
  forallb p w = true ->
  (forall w1 w2, w = w1 ++ w2 -> w2 <> [] -> k (w2 ++ s) = None) ->
  k s = Some x ->
  Re.rep_lazy p k (w ++ s) = Some x.
Proof.
  intros Hw Hn Hk. induction w as [|c w IH]; simpl.
  - destruct s; simpl; by rewrite Hk.
  - simpl in Hw. apply andb_true_iff in Hw as [Hc Hw].
    change (c :: w ++ s) with ((c :: w) ++ s).
    rewrite (Hn [] (c :: w)) by done. rewrite Hc. apply IH; [done|].
    intros w1 w2 -> Hw2. by apply (Hn (c :: w1) w2).
Qed.

Lemma strip_id (s : pystr) (c d : ascii) (m : pystr) :
  s = c :: m ++ [d] ->
  Char.is_space c = false -> Char.is_space d = false ->
  Str.strip s = s.
Proof.
  intros -> Hc Hd. unfold Str.strip, Str.lstrip. cbn [Str.drop_while].
  rewrite Hc. change (c :: m ++ [d]) with ((c :: m) ++ [d]).
  by apply rstrip_snoc.
Qed.

(** The texts of the groups are what was read between their ends. *)
Ltac captures :=
  repeat first
    [ solve [ apply take_minus_eq; cbn [app];
              rewrite ?app_nil_r, <- ?app_assoc; cbn [app]; reflexivity ]
    | progress f_equal ].

(** Two spellings of one text. *)
Ltac same_text :=
  repeat (rewrite <- ?app_assoc; cbn [str list_ascii_of_string app]);
  reflexivity.

(** The export pattern on a link with the annotation [{ #id }]. *)
Lemma export_link_match_annotated (text url id : pystr) :
  text <> [] -> "]" ∉ text -> url <> [] -> ")" ∉ url ->
  id <> [] -> "}" ∉ id ->
  let link := str "[" ++ text ++ str "](" ++ url ++ str "){ #" ++ id ++ str " }" in
  Re.match_at ExportDocx.link_pattern link
  = Some (Re.mkMatch link
            [(3, str "{ #" ++ id ++ str " }"); (2, url); (1, text)] []).
Proof.
  intros Nt Ht Nu Hu Ni Hi link. subst link.
  destruct text as [|t0 text]; [done|]. destruct url as [|u0 url]; [done|].
  destruct id as [|i0 id]; [done|].
  pose proof (except_head _ _ _ Ht) as Ht0.
  pose proof (except_head _ _ _ Hu) as Hu0.
  pose proof (except_head _ _ _ Hi) as Hi0.
  apply not_elem_of_cons in Ht as [_ Ht]. apply not_elem_of_cons in Hu as [_ Hu].
  apply not_elem_of_cons in Hi as [_ Hi].
  apply except_all in Ht, Hu, Hi.
  unfold Re.match_at, ExportDocx.link_pattern.
  cbn [Re.cat Re.run Re.plus Re.lits str list_ascii_of_string app].
  cbn -[length take Re.rep_greedy]. rewrite Ht0.
  apply rep_greedy_max; [exact Ht | reflexivity |].
  cbn -[length take Re.rep_greedy]. rewrite Hu0.
  apply rep_greedy_max; [exact Hu | reflexivity |].
  cbn -[length take Re.rep_greedy].
  cbn [Re.rep_greedy]. cbn -[length take Re.rep_greedy]. rewrite Hi0.
  change (id ++ [" "; "}"]) with (id ++ [" "] ++ ["}"]).
  rewrite app_assoc.
  match goal with
  | |- context [Re.rep_greedy ?p ?k (?w ++ ?s)] =>
      eassert (Re.rep_greedy p k (w ++ s) = Some _) as ->;
      [ apply rep_greedy_max;
        [by rewrite forallb_app, Hi | reflexivity | reflexivity] | ]
  end.
  cbn -[length take]. captures.
Qed.

(** The attribute pattern on a link whose text ends with [ { #id }]. *)
Lemma attribute_match (text url id : pystr) :
  forallb Char.is_dot text = true -> "{" ∉ text ->
  url <> [] -> ")" ∉ url ->
  id <> [] -> "}" ∉ id ->
  let link := str "[" ++ text ++ str " { #" ++ id ++ str " }](" ++ url ++ str ")" in
  Re.match_at ImportDocx.attribute_pattern link
  = Some (Re.mkMatch link
            [(3, url); (2, str "#" ++ id ++ str " "); (1, text)] []).
Proof.
  intros Hd Hb Nu Hu Ni Hi link. subst link.
  destruct url as [|u0 url]; [done|]. destruct id as [|i0 id]; [done|].
  pose proof (except_head _ _ _ Hu) as Hu0.
  pose proof (except_head _ _ _ Hi) as Hi0.
  apply not_elem_of_cons in Hu as [_ Hu]. apply not_elem_of_cons in Hi as [_ Hi].
  apply except_all in Hu, Hi.
  unfold Re.match_at, ImportDocx.attribute_pattern.
  cbn [Re.cat Re.run Re.plus Re.lits str list_ascii_of_string app].
  cbn -[length take Re.rep_greedy Re.rep_lazy].
  apply rep_lazy_first; [exact Hd | |].
  - intros w1 w2 -> Hw2. destruct w2 as [|c w2]; [done|].
    cbn [app]. destruct (Char.eqb " " c); [|done].
    destruct w2 as [|d w2]; [done|]. cbn [app].
    assert (Char.eqb "{" d = false) as ->; [|done].
    apply char_eqb_neq. intros <-. apply Hb.
    rewrite elem_of_app. right. right. left.
  - cbn [Re.rep_greedy]. cbn -[length take Re.rep_greedy]. rewrite Hi0.
    change (id ++ " " :: "}" :: "]" :: "(" :: u0 :: url ++ [")"])
      with (id ++ [" "] ++ "}" :: "]" :: "(" :: u0 :: url ++ [")"]).
    rewrite app_assoc.
    match goal with
    | |- context [Re.rep_greedy ?p ?k (?w ++ ?s)] =>
        eassert (Re.rep_greedy p k (w ++ s) = Some _) as ->
    end.
    { apply rep_greedy_max; [by rewrite forallb_app, Hi | reflexivity |].
      cbn [Re.rep_greedy]. cbn -[length take Re.rep_greedy]. rewrite Hu0.
      apply rep_greedy_max; [exact Hu | reflexivity |].
      cbn -[length take]. reflexivity. }
    captures.
Qed.

Lemma strip_hash_id (id : pystr) :
  id <> [] -> forallb (fun c => negb (Char.is_space c)) id = true ->
  Str.strip (str "#" ++ id ++ str " ") = str "#" ++ id.
Proof.
  intros Ni Hs. unfold Str.strip, Str.lstrip.
  cbn [str list_ascii_of_string app Str.drop_while].
  change (Char.is_space "#") with false. cbv iota.
  change ("#" :: id ++ [" "]) with (("#" :: id) ++ [" "]).
  rewrite rstrip_app_space by done.
  destruct (exists_last Ni) as [m [d ->]].
  rewrite forallb_app in Hs. apply andb_true_iff in Hs as [_ Hd].
  cbn [forallb] in Hd. rewrite andb_true_r in Hd. apply negb_true_iff in Hd.
  change ("#" :: m ++ [d]) with (("#" :: m) ++ [d]). by apply rstrip_snoc.
Qed.

(** X7. An annotated link to an anchor of another registered unit comes
    back from the export encoder and the two import decoders as it was:
    for a text without closing bracket, opening brace and line feed, an
    anchor of word characters, dots and hyphens, and an identifier
    without white space, closing brace and closing bracket, the link
    [[text](b#s){ #id }] is encoded to [[text { #id }](#b_md__s)], and
    link restoration followed by attribute restoration gives the link
    again. *)
Theorem annotated_link_round_trip (am : gmap pystr pystr)
        (a b text s ident : pystr) :
  b ∈ ExportDocx.FILES -> a <> b ->
  text <> [] -> "]" ∉ text -> "{" ∉ text -> nl ∉ text ->
  s <> [] -> forallb Char.is_anchor_char s = true ->
  ident <> [] -> "}" ∉ ident -> "]" ∉ ident ->
  forallb (fun c => negb (Char.is_space c)) ident = true ->
  let link :=
    str "[" ++ text ++ str "](" ++ (b ++ str "#" ++ s) ++ str "){ #"
        ++ ident ++ str " }" in
  ExportDocx.process_links ExportDocx.FILES link a
  = str "[" ++ (text ++ str " { #" ++ ident ++ str " }") ++ str "](#"
        ++ (encoded_name b ++ str "__" ++ s) ++ str ")"
  /\ ImportDocx.restore_attributes
       (ImportDocx.restore_links ImportDocx.FILES
          [ExportDocx.process_links ExportDocx.FILES link a] am a)
     = [link].
Proof.
  intros Hb Hab Nt Ht Hbr Hnl Ns Hs Ni Hi Hib Hws link.
  destruct (registered_unit_shape b Hb)
    as [Hh [Hp [Hmd [Hlen [Hhttp [Henc Nb]]]]]].
  assert ("#" ∉ s) as Hs1 by (by apply (class_notin _ _ _ Hs)).
  assert (")" ∉ s) as Hs2 by (by apply (class_notin _ _ _ Hs)).
  assert (")" ∉ b ++ str "#" ++ s) as Hurl.
  { rewrite !not_elem_of_app. split; [done|]. split; [|done].
    apply (bool_decide_unpack _). by vm_compute. }
  assert (b ++ str "#" ++ s <> []) as Nurl by (by destruct b).
  apply not_eq_sym, str_eqb_neq in Hab as Hba.
  assert (ExportDocx.process_links ExportDocx.FILES link a
          = str "[" ++ (text ++ str " { #" ++ ident ++ str " }") ++ str "](#"
                ++ (encoded_name b ++ str "__" ++ s) ++ str ")") as Hexp.
  { unfold ExportDocx.process_links, link.
    rewrite (sub_whole _ _ _ _
               (export_link_match_annotated text _ ident Nt Ht Nurl Hurl Ni Hi));
      [|done|by destruct text|done].
    unfold ExportDocx.replace_link, Re.group', Re.group.
    cbn [Re.m_caps Re.lookup_group Nat.eqb default truthy Re.m_text id].
    rewrite (strip_id _ "{" "}" (str " #" ++ ident ++ str " "));
      [|by rewrite <- !app_assoc|done|done].
    rewrite contains_app_l, startswith_app_false by done.
    cbn [andb negb].
    change (str "#" ++ s) with ("#" :: s).
    rewrite split_app_sep, split_notin by done.
    cbn [head default id lookup list_lookup].
    apply str_in_iff in Hb. rewrite Hb, Hba.
    destruct s as [|s0 s']; [done|]. cbn [truthy].
    change (match str "{ #" ++ ident ++ str " }" with
            | [] => false | _ :: _ => true end) with true.
    cbv iota. unfold encoded_name. by rewrite <- !app_assoc. }
  split; [exact Hexp|]. rewrite Hexp.
  rewrite restore_links_plain.
  - unfold ImportDocx.replace_link, Re.group', Re.group.
    cbn [Re.m_caps Re.lookup_group Nat.eqb default id].
    rewrite find_target_registered by done.
    cbn [default id]. rewrite Hba.
    destruct b as [|b0 b']; [done|]. destruct s as [|s0 s']; [done|].
    cbn [truthy].
    unfold ImportDocx.restore_attributes. cbn [map]. f_equal.
    match goal with
    | |- Re.sub _ _ ?x = _ =>
        replace x
          with (str "[" ++ text ++ str " { #" ++ ident ++ str " }]("
                    ++ ((b0 :: b') ++ str "#" ++ s0 :: s') ++ str ")")
          by (same_text)
    end.
    rewrite (sub_whole _ _ _ _
               (attribute_match text ((b0 :: b') ++ str "#" ++ s0 :: s') ident
                  ltac:(by apply forallb_forall; intros x Hx%list_elem_of_In;
                        unfold Char.is_dot, Char.except;
                        apply negb_true_iff, char_eqb_neq; intros <-)
                  Hbr ltac:(done) Hurl Ni Hi));
      [| done | done | done].
    unfold ImportDocx.replace_attribute, Re.group', Re.group.
    cbn [Re.m_caps Re.lookup_group Nat.eqb default id].
    rewrite strip_hash_id by done. unfold link. same_text.
  - by destruct text.
  - rewrite !not_elem_of_app. split; [done|]. split; [|split; [done|]];
      apply (bool_decide_unpack _); by vm_compute.
  - by destruct (encoded_name b), b.
  - by rewrite !forallb_app, Henc, Hs.
Qed.

Lemma annotated_link_round_trip_witness :
  ImportDocx.restore_attributes
    (ImportDocx.restore_links ImportDocx.FILES
       [ExportDocx.process_links ExportDocx.FILES
          (str "[Go](validity.md#x){ #y }") (str "introduction.md")]
       ∅ (str "introduction.md"))
  = [str "[Go](validity.md#x){ #y }"].
Proof.
  refine (proj2 (annotated_link_round_trip ∅ (str "introduction.md")
                   (str "validity.md") (str "Go") (str "x") (str "y")
                   _ _ _ _ _ _ _ _ _ _ _ _));
    first [discriminate | reflexivity
          | (apply (bool_decide_unpack _); by vm_compute)].
Defined.

End AnnotationFacts.

(** ** import_docx.py: the marker lines and the units *)

Section UnitFacts.
Import ImportDocx.

(** One step of reading a pattern that starts with a literal. *)
Ltac read_lit H :=
  match type of H with
  | context [match ?s with [] => _ | _ :: _ => _ end] =>
      destruct s as [|? s]; [discriminate H|];
      match type of H with
      | context [Char.eqb ?a ?b] =>
          let E := fresh "E" in
          destruct (Char.eqb a b) eqn:E; [|discriminate H];
          apply char_eqb_eq in E; subst
      end
  end.

(** Where the marker pattern matches, the marker is spelled out, and
    group 1 is the name between its two halves. *)
Lemma marker_match_inv (s : pystr) (m : Re.rmatch) :
  Re.match_at file_marker_pattern s = Some m ->
  exists name rest,
    s = str "**=== FILE: " ++ name ++ str " ===**" ++ rest
    /\ marker_name name /\ Re.group' 1 m = name.
Proof.
  unfold Re.match_at, file_marker_pattern.
  cbn [Re.cat Re.run Re.lits Re.plus str list_ascii_of_string].
  intros H. do 12 read_lit H.
  destruct s as [|c s]; [done|].
  destruct (Char.is_anchor_char c) eqn:Hc; [|done].
  apply rep_greedy_inv in H as [w [s' [-> [Hw Hk]]]].
  do 6 read_lit Hk. injection Hk as <-.
  exists (c :: w), s'. split; [done|]. split.
  - split; [done|]. cbn [forallb]. by rewrite Hc, Hw.
  - unfold Re.group', Re.group. cbn [Re.m_caps Re.lookup_group Nat.eqb default].
    rewrite length_app. cbn [length].
    replace (length w + S (S (S (S (S (S (length s')))))) -
             S (S (S (S (S (length s')))))) with (S (length w)) by lia.
    cbn [take id]. f_equal. apply take_app_length.
Qed.

Lemma marker_match (name rest : pystr) :
  marker_name name ->
  Re.match_at file_marker_pattern
              (str "**=== FILE: " ++ name ++ str " ===**" ++ rest)
  = Some (Re.mkMatch (str "**=== FILE: " ++ name ++ str " ===**")
                     [(1, name)] rest).
Proof.
  intros [Nn Hn]. destruct name as [|c name]; [done|].
  cbn [forallb] in Hn. apply andb_true_iff in Hn as [Hc Hn].
  unfold Re.match_at, file_marker_pattern.
  cbn [Re.cat Re.run Re.lits Re.plus str list_ascii_of_string app].
  cbn -[length take Re.rep_greedy]. rewrite Hc.
  apply rep_greedy_max; [exact Hn | reflexivity |].
  cbn -[length take]. f_equal. f_equal.
  - apply take_minus_eq. cbn [app]. rewrite <- ?app_assoc. reflexivity.
  - f_equal. f_equal. apply take_minus_eq. cbn [app].
    rewrite <- ?app_assoc. reflexivity.
Qed.

(** A marker found in a part of a line is found in the line. *)
Lemma marker_search_app (a b : pystr) :
  Re.search file_marker_pattern (a ++ b) = None ->
  Re.search file_marker_pattern a = None
  /\ Re.search file_marker_pattern b = None.
Proof.
  intros H. split.
  - destruct (Re.search file_marker_pattern a) as [m|] eqn:E; [|done].
    apply search_inv in E as [pre [s' [-> E]]].
    apply marker_match_inv in E as [name [rest [-> [Hn _]]]].
    pose proof (search_found file_marker_pattern pre
                  (str "**=== FILE: " ++ name ++ str " ===**" ++ rest ++ b)) as F.
    rewrite marker_match in F by done. specialize (F eq_refl).
    replace (pre ++ str "**=== FILE: " ++ name ++ str " ===**" ++ rest ++ b)
      with ((pre ++ str "**=== FILE: " ++ name ++ str " ===**" ++ rest) ++ b)
      in F by (by rewrite <- !app_assoc).
    by rewrite H in F.
  - destruct (Re.search file_marker_pattern b) as [m|] eqn:E; [|done].
    apply search_inv in E as [pre [s' [-> E]]].
    pose proof (search_found file_marker_pattern (a ++ pre) s') as F.
    rewrite E in F. specialize (F eq_refl).
    rewrite <- app_assoc in F. by rewrite H in F.
Qed.

Lemma drop_last_slice (line : pystr) :
  Str.drop_last line ++ Str.slice_from (-1) line = line.
Proof.
  unfold Str.drop_last, Str.slice_from. cbn [Z.leb Z.compare Z.opp].
  replace (Z.to_nat (Z.of_nat (length line) + -1)) with (length line - 1) by lia.
  apply take_drop.
Qed.

(** The pre-pass only breaks a line in two: no character is lost. *)
Lemma split_line_concat (line : pystr) : concat (split_line line) = line.
Proof.
  unfold split_line.
  destruct (_ && _); [|by cbn; rewrite app_nil_r].
  destruct (Re.matched _); [|by cbn; rewrite app_nil_r].
  destruct (Str.rfind _ _); cbn [concat]; rewrite app_nil_r;
    [apply take_drop | apply drop_last_slice].
Qed.

Lemma split_line_no_marker (line : pystr) :
  Re.search file_marker_pattern line = None ->
  Forall (fun l => Re.search file_marker_pattern l = None) (split_line line).
Proof.
  intros H. pose proof (split_line_concat line) as Hc.
  unfold split_line in *.
  destruct (_ && _); [|by repeat constructor].
  destruct (Re.matched _); [|by repeat constructor].
  destruct (Str.rfind _ _); cbn [concat] in Hc; rewrite app_nil_r in Hc;
    rewrite <- Hc in H; apply marker_search_app in H as [? ?];
    by repeat constructor.
Qed.

Lemma split_app_nl (sep : ascii) (a r : pystr) :
  Str.split sep (a ++ sep :: r) = Str.split sep a ++ Str.split sep r.
Proof.
  induction a as [|c a IH]; cbn [app Str.split].
  - by rewrite char_eqb_refl.
  - destruct (Char.eqb sep c); [by rewrite IH|]. rewrite IH.
    pose proof (split_not_nil sep a). by destruct (Str.split sep a).
Qed.

Lemma content_loop_preamble (pre rest : list pystr) :
  Forall (fun l => Re.search file_marker_pattern l = None) pre ->
  content_loop pc_init (pre ++ rest) = content_loop pc_init rest.
Proof.
  induction 1 as [|l pre Hl _ IH]; [done|].
  cbn [app content_loop]. unfold content_step at 1. by rewrite Hl.
Qed.

Lemma anchor_fold_preamble (pre rest : list pystr) :
  Forall (fun l => Re.search file_marker_pattern l = None) pre ->
  fold_left anchor_step (pre ++ rest) (None, ∅)
  = fold_left anchor_step rest (None, ∅).
Proof.
  induction 1 as [|l pre Hl _ IH]; [done|].
  cbn [app fold_left]. unfold anchor_step at 2. by rewrite Hl.
Qed.

(** X9. What comes before the first marker line is dropped: a text in
    which no line has a marker gives no unit and no anchor, [main] then
    writes the debug file and nothing else, and put before a document it
    changes neither the units nor the anchors read from it. *)
Theorem preamble_is_dropped (pre rest : pystr) (am : gmap pystr pystr)
        (w : pystr -> bool) (wf : pystr -> pystr -> option pystr)
        (files : list pystr) (fs : file_system) :
  Forall (fun l => Re.search file_marker_pattern l = None) (Str.split nl pre) ->
  process_content pre am = Ok []
  /\ build_anchor_map pre = ∅
  /\ ((main (mkEnv (Ok pre) w wf) files fs).1
      = (write_file (mkEnv (Ok pre) w wf) DEBUG_PATH pre fs).1
      /\ status (main (mkEnv (Ok pre) w wf) files fs).2
         = status (write_file (mkEnv (Ok pre) w wf) DEBUG_PATH pre fs).2)
  /\ process_content (pre ++ nl :: rest) am = process_content rest am
  /\ build_anchor_map (pre ++ nl :: rest) = build_anchor_map rest.
Proof.
  intros H.
  assert (Forall (fun l => Re.search file_marker_pattern l = None)
                 (split_lines pre)) as Hs.
  { unfold split_lines. apply Forall_flat_map.
    eapply Forall_impl; [exact H|]. apply split_line_no_marker. }
  assert (forall am', process_content pre am' = Ok []) as Hp.
  { intros am'. unfold process_content.
    rewrite <- (app_nil_r (split_lines pre)), content_loop_preamble by done.
    reflexivity. }
  assert (build_anchor_map pre = ∅) as Ha.
  { unfold build_anchor_map.
    rewrite <- (app_nil_r (Str.split nl pre)), anchor_fold_preamble by done.
    reflexivity. }
  split; [apply Hp|]. split; [exact Ha|]. split; [|split].
  - unfold main, say. rewrite and_then_ok. cbn [convert_file].
    destruct (write_file _ DEBUG_PATH pre fs) as [fs1 [l1 [[]|x]]] eqn:E.
    + rewrite !and_then_ok, Hp. done.
    + rewrite and_then_raise. done.
  - unfold process_content, split_lines.
    by rewrite split_app_nl, flat_map_app, content_loop_preamble.
  - unfold build_anchor_map.
    by rewrite split_app_nl, anchor_fold_preamble.
Qed.

Lemma preamble_is_dropped_witness :
  process_content (str "Title page" ++ [nl] ++ str "Draft of May") ∅ = Ok [].
Proof.
  refine (proj1 (preamble_is_dropped _ [] ∅ (fun _ => true) (fun _ _ => None)
                   [] ∅ _)).
  repeat constructor.
Defined.

(** X8. The marker line the export writes before a unit is read by both
    scans of the import as the start of that unit: the name comes back
    as it was, the buffer of the unit before is saved, and the buffer and
    the indent stack start afresh. *)
Theorem export_marker_read_back (files : list pystr) (name content : pystr)
        (st : pc_state) (cur : option pystr) (am : gmap pystr pystr) :
  marker_name name ->
  (exists body,
      ExportDocx.export_unit files name content
      = [nl; nl] ++ marker_line name ++ [nl; nl] ++ body)
  /\ content_step st (marker_line name)
     = Ok (mkPc (save_buffer st) (Some name) [] [seed_frame])
  /\ anchor_step (cur, am) (marker_line name) = (Some name, am).
Proof.
  intros Hn.
  assert (Re.search file_marker_pattern (marker_line name)
          = Some (Re.mkMatch (str "**=== FILE: " ++ name ++ str " ===**")
                             [(1, name)]
                             (str " {#"
                                ++ Str.lower (Str.replace_char "." "-" name)
                                ++ str "}"))) as Hs.
  { apply search_here. rewrite <- marker_match by done.
    unfold marker_line. reflexivity. }
  split; [|split].
  - eexists. unfold ExportDocx.export_unit, marker_line.
    rewrite <- !app_assoc. reflexivity.
  - unfold content_step. by rewrite Hs.
  - unfold anchor_step. by rewrite Hs.
Qed.

Lemma export_marker_read_back_witness :
  anchor_step (None, ∅) (marker_line (str "validity.md"))
  = (Some (str "validity.md"), ∅).
Proof.
  refine (proj2 (proj2 (export_marker_read_back [] (str "validity.md") []
                          pc_init None ∅ _))).
  split; [discriminate | reflexivity].
Defined.

(** Step 3 of the loop body reads and writes the buffer and the stack
    only. *)
Lemma indent_step_agree (st1 st2 : pc_state) (line : pystr) :
  current_file st1 = current_file st2 ->
  current_buffer st1 = current_buffer st2 ->
  indent_stack st1 = indent_stack st2 ->
  match indent_step st1 line, indent_step st2 line with
  | Ok a, Ok b =>
      files_content a = files_content st1
      /\ files_content b = files_content st2
      /\ current_file a = current_file st1
      /\ current_file a = current_file b
      /\ current_buffer a = current_buffer b
      /\ indent_stack a = indent_stack b
  | Raise x, Raise y => x = y
  | _, _ => False
  end.
Proof.
  destruct st1 as [fc1 c1 b1 s1], st2 as [fc2 c2 b2 s2].
  cbn [current_file current_buffer indent_stack].
  intros -> -> ->. unfold indent_step.
  cbn [current_file current_buffer indent_stack files_content].
  destruct s2 as [|[ci ct] s2]; [done|]. cbn [top mbind result_bind].
  destruct (Re.match_at block_start_pattern line); [done|].
  destruct (Re.matched _).
  - destruct (1 <? length ((ci, ct) :: s2))%nat; cbn [tail top]; [|done].
    by destruct s2 as [|[pi pt] s2].
  - destruct (is_type ct _); [done|]. by destruct (Str.eqb _ _).
Qed.

Lemma content_loop_agree (lines : list pystr) (st1 st2 : pc_state) :
  current_file st1 = current_file st2 ->
  current_buffer st1 = current_buffer st2 ->
  indent_stack st1 = indent_stack st2 ->
  match content_loop st1 lines, content_loop st2 lines with
  | Ok a, Ok b =>
      current_file a = current_file b
      /\ current_buffer a = current_buffer b
      /\ indent_stack a = indent_stack b
  | Raise x, Raise y => x = y
  | _, _ => False
  end.
Proof.
  revert st1 st2. induction lines as [|l lines IH]; intros st1 st2 Hc Hb Hs.
  - done.
  - cbn [content_loop]. unfold content_step.
    destruct (Re.search file_marker_pattern l) as [m|].
    + cbn. by apply IH.
    + rewrite <- Hc. destruct (current_file st1) eqn:E.
      * pose proof (indent_step_agree st1 st2 (unescape l)
                      ltac:(congruence) Hb Hs) as H.
        destruct (indent_step st1 (unescape l)) as [a|x],
                 (indent_step st2 (unescape l)) as [b|y];
          cbn [mbind result_bind]; try done.
        destruct H as (_ & _ & _ & ? & ? & ?). by apply IH.
      * cbn. apply IH; [congruence | done | done].
Qed.

(** X10. A unit is reconstructed from the lines after its marker alone:
    from a marker line on, the loop reaches the same unit name, the same
    buffer and the same indent stack whatever was read before it, so a
    block left open in one unit does not indent the next. *)
Theorem unit_starts_afresh (st : pc_state) (line : pystr)
        (rest : list pystr) :
  Re.matched (Re.search file_marker_pattern line) = true ->
  exists st1 st2,
    content_loop st (line :: rest) = Ok st1
    /\ content_loop pc_init (line :: rest) = Ok st2
    /\ current_file st1 = current_file st2
    /\ current_buffer st1 = current_buffer st2
    /\ indent_stack st1 = indent_stack st2.
Proof.
  intros Hm. cbn [content_loop]. unfold content_step.
  destruct (Re.search file_marker_pattern line) as [m|]; [|done].
  cbn [mbind result_bind].
  set (s1 := mkPc (save_buffer st) _ _ _).
  set (s2 := mkPc (save_buffer pc_init) _ _ _).
  destruct (content_loop_ok rest s1 stack_ok_seed) as [a [Ha _]].
  destruct (content_loop_ok rest s2 stack_ok_seed) as [b [Hb _]].
  pose proof (content_loop_agree rest s1 s2 eq_refl eq_refl eq_refl) as H.
  rewrite Ha, Hb in H. exists a, b. by rewrite Ha, Hb.
Qed.

Lemma unit_starts_afresh_witness :
  exists st1 st2,
    content_loop (mkPc [] (Some (str "a.md")) [str "/// details | T"]
                       [(0%Z, Some (str "details")); seed_frame])
                 [marker_line (str "b.md"); str "text"] = Ok st1
    /\ content_loop pc_init [marker_line (str "b.md"); str "text"] = Ok st2
    /\ current_file st1 = current_file st2
    /\ current_buffer st1 = current_buffer st2
    /\ indent_stack st1 = indent_stack st2.
Proof.
  apply unit_starts_afresh. reflexivity.
Defined.

Lemma indent_step_keeps (st st' : pc_state) (line : pystr) :
  indent_step st line = Ok st' ->
  files_content st' = files_content st /\ current_file st' = current_file st.
Proof.
  intros H. pose proof (indent_step_agree st st line eq_refl eq_refl eq_refl) as A.
  rewrite H in A. by destruct A as (? & _ & ? & _).
Qed.

Lemma dict_set_keys {V : Type} (P : pystr -> Prop) (k : pystr) (v : V)
      (d : list (pystr * V)) :
  P k -> Forall (fun kv => P kv.1) d ->
  Forall (fun kv => P kv.1) (dict_set k v d).
Proof.
  intros Hk. induction 1 as [|[k' v'] d Hk' Hd IH]; cbn [dict_set].
  - by repeat constructor.
  - destruct (Str.eqb k k'); by constructor.
Qed.

(** The keys of the units are names read from marker lines. *)
Lemma content_loop_keys (lines : list pystr) (st st' : pc_state) :
  content_loop st lines = Ok st' ->
  Forall (fun kv => marker_name kv.1) (files_content st) ->
  (forall n, current_file st = Some n -> marker_name n) ->
  Forall (fun kv => marker_name kv.1) (save_buffer st').
Proof.
  assert (forall s, Forall (fun kv => marker_name kv.1) (files_content s) ->
                    (forall n, current_file s = Some n -> marker_name n) ->
                    Forall (fun kv => marker_name kv.1) (save_buffer s)) as Hsave.
  { intros s Hf Hc. unfold save_buffer.
    destruct (current_file s) as [n|]; [|done]. destruct (truthy (Some n)); [|done].
    apply dict_set_keys; [by apply Hc | done]. }
  revert st. induction lines as [|l lines IH]; intros st H Hf Hc.
  - injection H as <-. by apply Hsave.
  - cbn [content_loop] in H. unfold content_step in H.
    destruct (Re.search file_marker_pattern l) as [m|] eqn:E.
    + cbn in H. apply IH in H; [done | by apply Hsave |].
      cbn. intros n [= <-].
      apply search_inv in E as [pre [s' [-> E]]].
      by apply marker_match_inv in E as [name [r [_ [? ->]]]].
    + destruct (current_file st) as [n|] eqn:En.
      * destruct (indent_step st (unescape l)) as [s1|x] eqn:Es; [|done].
        cbn in H. apply indent_step_keeps in Es as [Hf1 Hc1].
        apply IH in H; [done | by rewrite Hf1 | by rewrite Hc1, En].
      * cbn in H. apply IH in H; [done | done | by rewrite En].
Qed.

(** X11. Besides the debug file, [main] writes directly inside the
    output directory only: a path whose content it changes is the debug
    file, or [docs/] followed by a name read from a marker line, which
    is a non-empty run of word characters, dots and hyphens and so has
    no slash. *)
Theorem main_writes_inside_docs (e : env) (files : list pystr)
        (fs : file_system) (p : pystr) :
  (main e files fs).1 !! p = fs !! p
  \/ p = DEBUG_PATH
  \/ exists name, p = str "docs/" ++ name
                  /\ marker_name name /\ ("/" ∉ name).
Proof.
  destruct (decide (p = DEBUG_PATH)) as [->|Hp]; [by right; left|].
  rewrite main_files.
  destruct (convert_file e) as [content|x]; [|by left]. cbv zeta.
  destruct (write_file_cases e DEBUG_PATH content fs)
    as [(_ & _ & ->) | [(_ & cut & _ & ->) | (_ & ->)]]; cbn [fst snd status].
  - destruct (process_content content (build_anchor_map content))
      as [fc|x] eqn:E; [|left; by apply lookup_insert_ne].
    destruct (write_units_touches e files (build_anchor_map content) fc
                (<[DEBUG_PATH := content]> fs) p)
      as [-> | [name [lines [Hin ->]]]].
    + left. by apply lookup_insert_ne.
    + right. right. exists name.
      assert (marker_name name) as Hn.
      { unfold process_content in E.
        destruct (content_loop pc_init (split_lines content)) as [st|] eqn:El;
          [|done].
        injection E as <-.
        pose proof (content_loop_keys _ _ _ El ltac:(constructor)
                      ltac:(done)) as Hk.
        rewrite Forall_forall in Hk. exact (Hk _ Hin). }
      destruct Hn as [Nn Hc]. destruct name as [|c name]; [done|].
      assert ("/" ∉ c :: name) as Hsl by (by apply (class_notin _ _ _ Hc)).
      split; [|done]. unfold path_join, DOCS_DIR.
      cbn [Str.startswith str list_ascii_of_string].
      apply not_elem_of_cons in Hsl as [Hsl _].
      apply char_eqb_neq in Hsl. by rewrite Hsl.
  - left. by apply lookup_insert_ne.
  - by left.
Qed.

End UnitFacts.

(** ** Block ends and runs of line feeds *)

Section LineFacts.
Import ImportDocx.

Lemma rstrip_spec (s : pystr) :
  exists ws, s = Str.rstrip s ++ ws /\ forallb Char.is_space ws = true.
Proof.
  unfold Str.rstrip. destruct (lstrip_spec (rev s)) as [ws [Hs [Hw _]]].
  exists (rev ws). split.
  - rewrite <- rev_app_distr. unfold Str.lstrip in Hs. rewrite <- Hs.
    by rewrite rev_involutive.
  - rewrite forallb_forall in *. intros x Hx. apply Hw. by apply in_rev.
Qed.

(** A line whose stripped text is the sigil: white space, the sigil,
    white space. *)
Lemma strip_sigil_inv (line : pystr) :
  Str.strip line = str "///" ->
  exists a b, line = a ++ str "///" ++ b
              /\ forallb Char.is_space a = true
              /\ forallb Char.is_space b = true.
Proof.
  intros H. destruct (lstrip_spec line) as [a [Ha [Hsa _]]].
  destruct (rstrip_spec (Str.lstrip line)) as [b [Hb Hsb]].
  unfold Str.strip in H. rewrite H in Hb. exists a, b.
  split; [|done]. by rewrite <- Hb.
Qed.

Lemma block_end_inv (line : pystr) (m : Re.rmatch) :
  Re.match_at block_end_pattern line = Some m ->
  exists a b, line = a ++ str "///" ++ b
              /\ forallb Char.is_space a = true
              /\ forallb Char.is_space b = true.
Proof.
  unfold Re.match_at, block_end_pattern.
  cbn [Re.cat Re.run Re.lits str list_ascii_of_string].
  intros [a [s1 [-> [Ha Hk]]]]%rep_greedy_inv.
  destruct s1 as [|c1 s1]; [done|]. destruct (Char.eqb "/" c1) eqn:E1; [|done].
  destruct s1 as [|c2 s1]; [done|]. destruct (Char.eqb "/" c2) eqn:E2; [|done].
  destruct s1 as [|c3 s1]; [done|]. destruct (Char.eqb "/" c3) eqn:E3; [|done].
  apply char_eqb_eq in E1 as <-, E2 as <-, E3 as <-.
  apply rep_greedy_inv in Hk as [b [s' [-> [Hb Hk]]]].
  exists a, (b ++ s'). split; [done|]. split; [done|].
  rewrite forallb_app, Hb. cbn [andb].
  destruct s' as [|[[] [] [] [] [] [] [] []] [|? ?]]; done.
Qed.

Lemma block_end_match (a b : pystr) :
  forallb Char.is_space a = true -> forallb Char.is_space b = true ->
  Re.matched (Re.match_at block_end_pattern (a ++ str "///" ++ b)) = true.
Proof.
  intros Ha Hb. unfold Re.match_at, block_end_pattern.
  cbn [Re.cat Re.run Re.lits str list_ascii_of_string app].
  erewrite rep_greedy_max; [done | exact Ha | reflexivity |].
  cbn -[length take Re.rep_greedy].
  rewrite <- (app_nil_r b) at 1.
  apply rep_greedy_max; [exact Hb | done | reflexivity].
Qed.

Lemma block_start_inv (line : pystr) (m : Re.rmatch) :
  Re.match_at block_start_pattern line = Some m ->
  exists a b d rest, line = a ++ str "///" ++ b ++ d :: rest
                     /\ forallb Char.is_space a = true
                     /\ Char.is_word d = true.
Proof.
  unfold Re.match_at, block_start_pattern.
  cbn [Re.cat Re.run Re.lits Re.plus str list_ascii_of_string].
  intros [a [s1 [-> [Ha Hk]]]]%rep_greedy_inv.
  destruct s1 as [|c1 s1]; [done|]. destruct (Char.eqb "/" c1) eqn:E1; [|done].
  destruct s1 as [|c2 s1]; [done|]. destruct (Char.eqb "/" c2) eqn:E2; [|done].
  destruct s1 as [|c3 s1]; [done|]. destruct (Char.eqb "/" c3) eqn:E3; [|done].
  apply char_eqb_eq in E1 as <-, E2 as <-, E3 as <-.
  destruct s1 as [|w s1]; [done|]. destruct (Char.is_space w); [|done].
  apply rep_greedy_inv in Hk as [b [s' [-> [Hb Hk]]]].
  destruct s' as [|d s']; [done|]. destruct (Char.is_word d) eqn:Hd; [|done].
  exists a, (w :: b), d, s'. done.
Qed.

(** X12. A line is a block end, for the reconstruction and for the
    flattening alike, exactly when its stripped text is the sigil alone,
    which is the test of the pre-pass; such a line is never a block
    start of the reconstruction, so the order of its two tests on a line
    does not matter. *)
Theorem block_end_is_bare_sigil (line : pystr) :
  Re.matched (Re.match_at block_end_pattern line)
  = Str.eqb (Str.strip line) (str "///")
  /\ Re.matched (Re.match_at ExportDocx.block_end_pattern line)
     = Str.eqb (Str.strip line) (str "///")
  /\ (Str.strip line = str "///" ->
      Re.match_at block_start_pattern line = None).
Proof.
  change ExportDocx.block_end_pattern with block_end_pattern.
  assert (Re.matched (Re.match_at block_end_pattern line)
          = Str.eqb (Str.strip line) (str "///")) as Hend.
  { destruct (Re.match_at block_end_pattern line) as [m|] eqn:E.
    - apply block_end_inv in E as [a [b [-> [Ha Hb]]]].
      cbn [Re.matched]. symmetry. apply str_eqb_eq.
      rewrite strip_sigil_line by done. unfold Str.lstrip.
      by rewrite drop_while_all.
    - cbn [Re.matched]. symmetry. apply str_eqb_neq.
      intros [a [b [-> [Ha Hb]]]]%strip_sigil_inv.
      pose proof (block_end_match a b Ha Hb) as M. by rewrite E in M. }
  split; [exact Hend|]. split; [exact Hend|].
  intros [a [b [-> [Ha Hb]]]]%strip_sigil_inv.
  destruct (Re.match_at block_start_pattern _) as [m|] eqn:E; [|done].
  exfalso. apply block_start_inv in E as [a' [b' [d [rest [E [Ha' Hd]]]]]].
  apply (f_equal Str.lstrip) in E. unfold Str.lstrip in E.
  rewrite (drop_while_all _ a), (drop_while_all _ a') in E by done.
  cbn [str list_ascii_of_string app Str.drop_while] in E.
  change (Char.is_space "/") with false in E. cbv iota in E.
  injection E as ->.
  rewrite forallb_app in Hb. apply andb_true_iff in Hb as [_ Hb].
  cbn [forallb] in Hb. apply andb_true_iff in Hb as [Hb _].
  pose proof (word_not_space d Hd). congruence.
Qed.

Lemma span_class (p : ascii -> bool) (s : pystr) :
  exists w, s = w ++ Str.drop_while p s
            /\ forallb p w = true
            /\ match Str.drop_while p s with
               | [] => True
               | c :: _ => p c = false
               end.
Proof.
  induction s as [|c s IH]; cbn [Str.drop_while].
  - by exists [].
  - destruct (p c) eqn:E.
    + destruct IH as [w [Hs [Hw Hh]]]. exists (c :: w). cbn [forallb app].
      rewrite E, Hw. split; [by f_equal | done].
    + by exists [].
Qed.

Lemma contains_suffix (p s' s : pystr) :
  s' `suffix_of` s -> Str.startswith p s' = true -> Str.contains p s = true.
Proof.
  intros [pre ->] H. induction pre as [|c pre IH]; cbn [app].
  - destruct s'; cbn [Str.contains]; by rewrite H.
  - cbn [Str.contains]. rewrite IH. apply orb_true_r.
Qed.

(** Where the pattern for a run of line feeds matches, the text starts
    with three of them. *)
Lemma blank_run_inv (s : pystr) (m : Re.rmatch) :
  Re.match_at blank_run_pattern s = Some m ->
  Str.startswith [nl; nl; nl] s = true.
Proof.
  unfold Re.match_at, blank_run_pattern. cbn [Re.cat Re.run].
  destruct s as [|c1 s]; [done|]. destruct (Char.eqb nl c1) eqn:E1; [|done].
  destruct s as [|c2 s]; [done|]. destruct (Char.eqb nl c2) eqn:E2; [|done].
  destruct s as [|c3 s]; [done|]. destruct (Char.eqb nl c3) eqn:E3; [|done].
  intros _. cbn [Str.startswith]. by rewrite E1, E2, E3.
Qed.

(** On three line feeds or more, followed by a text that does not start
    with one, the whole run is matched. *)
Lemma blank_run_match (w rest : pystr) :
  forallb (Char.only nl) w = true ->
  match rest with [] => True | c :: _ => Char.only nl c = false end ->
  Re.match_at blank_run_pattern (nl :: nl :: nl :: w ++ rest)
  = Some (Re.mkMatch (nl :: nl :: nl :: w) [] rest).
Proof.
  intros Hw Hr. unfold Re.match_at, blank_run_pattern.
  cbn [Re.cat Re.run]. rewrite !char_eqb_refl.
  apply rep_greedy_max; [exact Hw | exact Hr |].
  f_equal. f_equal.
  change (nl :: nl :: nl :: w ++ rest) with ((nl :: nl :: nl :: w) ++ rest).
  apply take_app_minus.
Qed.

(** The text after the collapse of the runs, by the start of the text. *)
Lemma collapse_no_run (s : pystr) :
  let out := Re.sub blank_run_pattern (fun _ => [nl; nl]) s in
  Str.contains [nl; nl; nl] out = false
  /\ (Str.startswith [nl] s = false -> Str.startswith [nl] out = false)
  /\ (Str.startswith [nl; nl] s = false -> Str.startswith [nl; nl] out = false).
Proof.
  remember (length s) as n eqn:Hn. revert s Hn.
  induction n as [n IH] using lt_wf_ind. intros s Hn out. subst out.
  assert (forall t, length t < n ->
            Str.contains [nl; nl; nl]
              (Re.sub blank_run_pattern (fun _ => [nl; nl]) t) = false
            /\ (Str.startswith [nl] t = false ->
                Str.startswith [nl]
                  (Re.sub blank_run_pattern (fun _ => [nl; nl]) t) = false))
    as IH'.
  { intros t Ht. destruct (IH _ Ht t eq_refl) as (? & ? & _). done. }
  assert (forall c t, Re.match_at blank_run_pattern (c :: t) = None ->
            Re.sub blank_run_pattern (fun _ => [nl; nl]) (c :: t)
            = c :: Re.sub blank_run_pattern (fun _ => [nl; nl]) t) as Hstep.
  { intros c t E. unfold Re.sub. cbn [Re.sub_from]. by rewrite E. }
  destruct s as [|c s]; [done|]. cbn [length] in Hn.
  destruct (Char.eqb nl c) eqn:Ec.
  - apply char_eqb_eq in Ec as <-.
    destruct (span_class (Char.only nl) s) as [w [Hs [Hw Hh]]].
    destruct w as [|w1 [|w2 w]].
    + (* one line feed *)
      cbn [app] in Hs.
      assert (Str.startswith [nl] s = false) as Hs1.
      { rewrite Hs. destruct (Str.drop_while _ s) as [|d r]; [done|].
        cbn [Str.startswith]. unfold Char.only in Hh. by rewrite Hh. }
      rewrite Hstep.
      2:{ destruct (Re.match_at _ _) as [m0|] eqn:E; [|done].
          apply blank_run_inv in E. cbn [Str.startswith] in *.
          rewrite char_eqb_refl in E. cbn [andb] in E.
          destruct s as [|d r]; [done|]. cbn [Str.startswith] in *.
          destruct (Char.eqb nl d); [done|done]. }
      destruct (IH' s ltac:(lia)) as [Hc Hst]. specialize (Hst Hs1).
      set (o := Re.sub _ _ s) in *.
      split; [|split].
      * cbn [Str.contains Str.startswith]. rewrite char_eqb_refl, Hc.
        destruct o as [|d r]; [done|]. cbn [Str.startswith] in Hst.
        destruct (Char.eqb nl d); [done|]. done.
      * cbn [Str.startswith]. by rewrite char_eqb_refl.
      * intros _. cbn [Str.startswith]. rewrite char_eqb_refl.
        destruct o as [|d r]; [done|]. cbn [Str.startswith] in Hst.
        destruct (Char.eqb nl d); [done|]. done.
    + (* two line feeds *)
      cbn [forallb] in Hw. rewrite andb_true_r in Hw.
      apply char_eqb_eq in Hw as <-. cbn [app] in Hs.
      set (r := Str.drop_while (Char.only nl) s) in *.
      assert (Str.startswith [nl] r = false) as Hr1.
      { destruct r as [|d r']; [done|].
        cbn [Str.startswith]. unfold Char.only in Hh. by rewrite Hh. }
      rewrite Hs. rewrite Hstep.
      2:{ destruct (Re.match_at _ _) as [m0|] eqn:E; [|done].
          apply blank_run_inv in E. cbn [Str.startswith] in E.
          rewrite !char_eqb_refl in E. cbn [andb] in E.
          destruct r as [|d r']; [done|]. cbn [Str.startswith] in *.
          destruct (Char.eqb nl d); done. }
      rewrite Hstep.
      2:{ destruct (Re.match_at _ _) as [m0|] eqn:E; [|done].
          apply blank_run_inv in E. cbn [Str.startswith] in E.
          rewrite !char_eqb_refl in E. cbn [andb] in E.
          destruct r as [|d r']; [done|]. cbn [Str.startswith] in *.
          destruct (Char.eqb nl d); done. }
      destruct (IH' r) as [Hc Hst].
      { rewrite Hs in Hn. cbn [length] in Hn. lia. }
      specialize (Hst Hr1). set (o := Re.sub _ _ r) in *.
      assert (Str.startswith [nl] o = false -> forall a b,
                Str.startswith [nl; nl; nl] (a :: b :: o) = false) as Hnn.
      { intros Ho a b. cbn [Str.startswith] in *. destruct o as [|d o'].
        - by rewrite !andb_false_r.
        - destruct (Char.eqb nl d); [done|]. by rewrite !andb_false_r. }
      split; [|split].
      * cbn [Str.contains]. rewrite (Hnn Hst), Hc.
        cbn [Str.startswith]. destruct o as [|d o']; [by rewrite andb_false_r|].
        cbn [Str.startswith] in Hst. destruct (Char.eqb nl d); [done|].
        by rewrite !andb_false_r.
      * cbn [Str.startswith]. by rewrite char_eqb_refl.
      * cbn [Str.startswith]. by rewrite !char_eqb_refl.
    + (* three line feeds or more *)
      cbn [forallb] in Hw.
      apply andb_true_iff in Hw as [H1 Hw]. apply andb_true_iff in Hw as [H2 Hw].
      apply char_eqb_eq in H1 as <-, H2 as <-. cbn [app] in Hs.
      set (r := Str.drop_while (Char.only nl) s) in *.
      assert (Str.startswith [nl] r = false) as Hr1.
      { destruct r as [|d r']; [done|].
        cbn [Str.startswith]. unfold Char.only in Hh. by rewrite Hh. }
      rewrite Hs.
      rewrite (sub_match _ _ _ r _ (blank_run_match w r Hw Hh)); [|done|done].
      destruct (IH' r) as [Hc Hst].
      { rewrite Hs in Hn. cbn [length] in Hn. rewrite length_app in Hn. lia. }
      specialize (Hst Hr1). set (o := Re.sub _ _ r) in *.
      split; [|split].
      * cbn [app Str.contains]. rewrite Hc. cbn [Str.startswith].
        destruct o as [|d o']; [by rewrite andb_false_r|].
        cbn [Str.startswith] in Hst. destruct (Char.eqb nl d); [done|].
        by rewrite !andb_false_r.
      * cbn [Str.startswith]. by rewrite char_eqb_refl.
      * cbn [Str.startswith]. by rewrite !char_eqb_refl.
  - rewrite Hstep.
    2:{ destruct (Re.match_at _ _) as [m0|] eqn:E; [|done].
        apply blank_run_inv in E. cbn [Str.startswith] in E. by rewrite Ec in E. }
    destruct (IH' s ltac:(lia)) as [Hc _].
    split; [|split].
    + cbn [Str.contains Str.startswith]. by rewrite Ec, Hc.
    + intros _. cbn [Str.startswith]. by rewrite Ec.
    + intros _. cbn [Str.startswith]. by rewrite Ec.
Qed.

(** X13. The text written for a unit never has three line feeds in a
    row, whatever the lines of the unit; and where the joined lines have
    no such run, the last step of the restoration changes nothing. *)
Theorem restored_text_has_no_blank_run (files : list pystr)
        (am : gmap pystr pystr) (filename : pystr) (lines : list pystr)
        (text : pystr) :
  Str.contains [nl; nl; nl] (restore_unit files am filename lines) = false
  /\ (Str.contains [nl; nl; nl] text = false ->
      Re.sub blank_run_pattern (fun _ => [nl; nl]) text = text).
Proof.
  split.
  - unfold restore_unit. apply collapse_no_run.
  - intros H. apply sub_no_match. intros s' Hs'.
    destruct (Re.match_at blank_run_pattern s') as [m|] eqn:E; [|done].
    apply blank_run_inv in E. by rewrite (contains_suffix _ _ _ Hs' E) in H.
Qed.

End LineFacts.

(** ** The cleaning of a unit *)

Section CleanFacts.
Import ImportDocx.

(** What the look-ahead finds: the blank lines passed over, the line
    found, and the lines after it. *)
Lemma find_next_spec (rest : list pystr) (n : nat) (x : pystr) :
  find_next_non_blank rest = Some (n, x) ->
  exists rest',
    clean_from n rest = clean_from 0 (x :: rest')
    /\ clean_from (S n) rest = clean_from 0 rest'
    /\ List.filter (fun l => negb (is_blank l)) rest
       = x :: List.filter (fun l => negb (is_blank l)) rest'
    /\ length rest' < length rest
    /\ is_blank x = false.
Proof.
  revert n. induction rest as [|l rest IH]; intros n; [done|].
  cbn [find_next_non_blank]. destruct (is_blank l) eqn:El.
  - destruct (find_next_non_blank rest) as [[k y]|] eqn:E; [|done].
    intros [= <- <-]. destruct (IH k eq_refl) as (r' & H1 & H2 & H3 & H4 & H5).
    exists r'. cbn [List.filter length]. rewrite El. cbn [negb].
    split; [exact H1|]. split; [exact H2|]. split; [exact H3|].
    split; [lia | exact H5].
  - intros [= <- <-]. exists rest. cbn [List.filter length]. rewrite El.
    cbn [negb]. split; [done|]. split; [by destruct rest|].
    split; [done|]. split; [lia | done].
Qed.

Lemma find_next_none (rest : list pystr) :
  find_next_non_blank rest = None ->
  List.filter (fun l => negb (is_blank l)) rest = [].
Proof.
  induction rest as [|l rest IH]; [done|].
  cbn [find_next_non_blank List.filter]. destruct (is_blank l); [|done].
  destruct (find_next_non_blank rest) as [[k y]|]; [done|]. intros _.
  by apply IH.
Qed.

(** The loop of [clean_buffer] keeps every line that is not blank, in
    its place among them. *)
Lemma clean_from_keeps (lines : list pystr) :
  List.filter (fun l => negb (is_blank l)) (clean_from 0 lines)
  = List.filter (fun l => negb (is_blank l)) lines.
Proof.
  remember (length lines) as n eqn:Hn. revert lines Hn.
  induction n as [n IH] using lt_wf_ind. intros lines Hn.
  destruct lines as [|line rest]; [done|]. cbn [length] in Hn.
  assert (forall t, length t <= length rest ->
            List.filter (fun l => negb (is_blank l)) (clean_from 0 t)
            = List.filter (fun l => negb (is_blank l)) t) as IH'.
  { intros t Ht. apply (IH (length t)); [lia | done]. }
  cbn [clean_from].
  destruct (find_next_non_blank rest) as [[k x]|] eqn:E.
  - destruct (find_next_spec rest k x E) as (r' & H1 & H2 & H3 & H4 & H5).
    assert (is_blank [] = true) as Hb by done.
    repeat match goal with
           | |- context [if ?b then _ else _] => destruct b
           | |- context [match rest with [] => _ | _ :: _ => _ end] =>
               destruct rest
           end;
      cbn [List.filter]; rewrite ?Hb, ?H5; cbn [negb];
      rewrite ?H1, ?H2, ?IH' by (cbn [length] in *; lia);
      cbn [List.filter]; rewrite ?H5, ?H3; cbn [negb]; reflexivity.
  - cbn [List.filter]. by rewrite IH' by lia.
Qed.

Lemma drop_leading_blank_spec (lines : list pystr) :
  List.filter (fun l => negb (is_blank l)) (drop_leading_blank lines)
  = List.filter (fun l => negb (is_blank l)) lines
  /\ match drop_leading_blank lines with
     | [] => True
     | l :: _ => is_blank l = false
     end.
Proof.
  induction lines as [|l lines [IH1 IH2]]; [done|].
  cbn [drop_leading_blank List.filter]. destruct (is_blank l) eqn:E; [done|].
  cbn [List.filter]. by rewrite E.
Qed.

Lemma clean_from_head (line : pystr) (rest : list pystr) :
  exists out, clean_from 0 (line :: rest) = line :: out.
Proof.
  cbn [clean_from].
  repeat match goal with
         | |- context [match ?o with Some _ => _ | None => _ end] => destruct o
         | |- context [let '(_, _) := ?p in _] => destruct p
         | |- context [if ?b then _ else _] => destruct b
         | |- context [match rest with [] => _ | _ :: _ => _ end] =>
             destruct rest
         end; eauto.
Qed.

(** X14. [clean_buffer] removes and adds blank lines only: the lines
    that are not blank come out as they went in, all of them and in the
    same order; and what it returns does not start with a blank line. *)
Theorem clean_buffer_keeps_text (lines : list pystr) :
  List.filter (fun l => negb (is_blank l)) (clean_buffer lines)
  = List.filter (fun l => negb (is_blank l)) lines
  /\ match clean_buffer lines with
     | [] => True
     | l :: _ => is_blank l = false
     end.
Proof.
  unfold clean_buffer. destruct (drop_leading_blank_spec lines) as [H1 H2].
  split; [by rewrite clean_from_keeps|].
  destruct (drop_leading_blank lines) as [|l ls]; [done|].
  by destruct (clean_from_head l ls) as [out ->].
Qed.

End CleanFacts.

(** ** export_to_sheets.py: the long format and the table *)

Section TableFacts.
Import LongFormat.
Context {V : Type}.

Lemma long_row_columns (r : record V) (n : pystr) (v : V) :
  map fst (long_row V r n v)
  = IDENTIFIER_COLUMNS ++ [str "pledge"; str "value"].
Proof. reflexivity. Qed.

Lemma long_row_cells (r : record V) (n : pystr) (v : V) :
  map (fun col => default PyNone (get col (long_row V r n v)))
      (take 8 (map fst (long_row V r n v)))
  = map snd (long_row V r n v).
Proof. reflexivity. Qed.

Lemma long_rows_inv (data : list (record V)) (row : list (pystr * cell V)) :
  row ∈ convert_to_long_format V data ->
  exists r n v, row = long_row V r n v.
Proof.
  unfold convert_to_long_format. destruct data as [|r0 data']; [by intros ?%elem_of_nil|].
  intros [r [_ H]]%list_elem_of_In%in_flat_map.
  apply in_map_iff in H as [[n v] [<- _]]. eauto.
Qed.

(** X15. Every row of the long format has the six identifier columns,
    [pledge] and [value], in this order; there is one row for each
    pledge column of each record; and the table sent has these eight
    names in its first line, then one line for each long row with all of
    its cells, so that the cut to eight columns removes nothing. *)
Theorem long_table_shape (data : list (record V)) :
  let columns := IDENTIFIER_COLUMNS ++ [str "pledge"; str "value"] in
  let long := convert_to_long_format V data in
  Forall (fun row => map fst row = columns) long
  /\ length long = list_sum (map (fun r => length (pledge_columns V r)) data)
  /\ sheet_values V long
     = match long with
       | [] => None
       | _ => Some (map Name columns :: map (map snd) long)
       end.
Proof.
  intros columns long. split; [|split].
  - apply Forall_forall. intros row [r [n [v ->]]]%long_rows_inv.
    apply long_row_columns.
  - subst long. unfold convert_to_long_format.
    destruct data as [|r0 data']; [done|].
    generalize (r0 :: data'). intros l.
    induction l as [|r l IH]; [done|].
    cbn [flat_map map list_sum]. by rewrite length_app, length_map, IH.
  - assert (Forall (fun row => exists r n v, row = long_row V r n v) long) as H.
    { apply Forall_forall. intros row. apply long_rows_inv. }
    destruct long as [|first rest]; [done|]. unfold sheet_values.
    pose proof (Forall_inv H) as [r [n [v Hf]]].
    assert (map fst first = columns) as ->
        by (rewrite Hf; apply long_row_columns).
    f_equal. f_equal.
    apply map_ext_Forall. eapply Forall_impl; [exact H|].
    intros row [r' [n' [v' ->]]]. exact (long_row_cells r' n' v').
Qed.

Lemma pledge_not_excluded (k : pystr) :
  Str.startswith (str "pledge_") k = true ->
  str_in k ExportSheets.EXCLUDED_COLUMNS = false.
Proof. intros [t ->]%startswith_iff. reflexivity. Qed.

Lemma get_filter {X : Type} (keep : pystr -> bool) (k : pystr)
      (r : list (pystr * X)) :
  keep k = true ->
  get k (List.filter (fun kv => keep (fst kv)) r) = get k r.
Proof.
  intros Hk. induction r as [|[k' x] r IH]; [done|].
  cbn [List.filter get fst]. destruct (keep k') eqn:E.
  - cbn [get]. by rewrite IH.
  - rewrite IH. destruct (Str.eqb k k') eqn:Ek; [|done].
    apply str_eqb_eq in Ek as ->. congruence.
Qed.

Lemma pledge_columns_filter (keep : pystr -> bool) (r : record V) :
  (forall k, Str.startswith (str "pledge_") k = true -> keep k = true) ->
  pledge_columns V (List.filter (fun kv => keep (fst kv)) r)
  = pledge_columns V r.
Proof.
  intros Hk. unfold pledge_columns. induction r as [|[k x] r IH]; [done|].
  cbn [List.filter fst]. destruct (Str.startswith (str "pledge_") k) eqn:E.
  - rewrite (Hk k E). cbn [List.filter fst]. by rewrite E, IH.
  - destruct (keep k); [|done]. cbn [List.filter fst]. by rewrite E.
Qed.

Lemma long_row_filter (keep : pystr -> bool) (r : record V)
      (n : pystr) (v : V) :
  (forall k, str_in k IDENTIFIER_COLUMNS = true -> keep k = true) ->
  long_row V (List.filter (fun kv => keep (fst kv)) r) n v = long_row V r n v.
Proof.
  intros Hk. unfold long_row, IDENTIFIER_COLUMNS. cbn [fold_left].
  by rewrite !get_filter by (by apply Hk).
Qed.

(** The long format of records from which columns it does not read
    have been removed. *)
Lemma convert_filter (keep : pystr -> bool) (data : list (record V)) :
  (forall k, is_read k = true -> keep k = true) ->
  convert_to_long_format V
    (map (List.filter (fun kv => keep (fst kv))) data)
  = convert_to_long_format V data.
Proof.
  intros Hk. unfold convert_to_long_format.
  destruct data as [|r0 data']; [done|].
  generalize (r0 :: data'). intros l.
  assert (flat_map
            (fun row => map (fun kv => long_row V row (fst kv) (snd kv))
                            (pledge_columns V row))
            (map (List.filter (fun kv => keep (fst kv))) l)
          = flat_map
              (fun row => map (fun kv => long_row V row (fst kv) (snd kv))
                              (pledge_columns V row)) l) as ->.
  { induction l as [|r l IH]; [done|]. cbn [map flat_map]. rewrite IH.
    f_equal. rewrite pledge_columns_filter.
    - apply map_ext. intros [n v]. apply long_row_filter.
      intros k Hi. apply Hk. unfold is_read. by rewrite Hi.
    - intros k Hp. apply Hk. unfold is_read. rewrite Hp. apply orb_true_r. }
  by destruct l.
Qed.

(** X16. The table depends on the identifier and pledge columns of the
    records only: records that agree on these columns give the same long
    format; so the anonymisation, which removes none of them, changes
    nothing in the table [main] sends. *)
Theorem table_reads_identifier_and_pledge_columns
        (data1 data2 : list (record V)) :
  map (List.filter (fun kv => is_read (fst kv))) data1
  = map (List.filter (fun kv => is_read (fst kv))) data2 ->
  convert_to_long_format V data1 = convert_to_long_format V data2
  /\ convert_to_long_format V (anonymize_data V (Some data1))
     = convert_to_long_format V data1
  /\ main_table V (Some data1) = main_table V (Some data2).
Proof.
  intros H.
  assert (forall d, convert_to_long_format V (anonymize_data V (Some d))
                    = convert_to_long_format V d) as Ha.
  { intros d. unfold anonymize_data, anon_row. destruct d as [|r0 d']; [done|].
    apply (convert_filter
             (fun k => negb (str_in k ExportSheets.EXCLUDED_COLUMNS))).
    intros k [Hi | Hp]%orb_true_iff.
    - apply str_in_iff in Hi.
      repeat (apply elem_of_cons in Hi as [-> | Hi]; [reflexivity|]).
      by apply elem_of_nil in Hi.
    - by rewrite pledge_not_excluded. }
  assert (convert_to_long_format V data1 = convert_to_long_format V data2) as Hc.
  { rewrite <- (convert_filter is_read data1), <- (convert_filter is_read data2)
      by done. by rewrite H. }
  split; [exact Hc|]. split; [apply Ha|].
  unfold main_table. by rewrite !Ha, Hc.
Qed.

Lemma get_lookup (r : record V) (k : pystr) :
  (list_to_map r : gmap pystr V) !! k = get k r.
Proof.
  induction r as [|[k' x] r IH]; [done|].
  cbn [list_to_map foldr get]. destruct (Str.eqb k k') eqn:E.
  - apply str_eqb_eq in E as ->. apply lookup_insert_eq.
  - apply str_eqb_neq in E. by rewrite lookup_insert_ne.
Qed.

Lemma get_filter_out {X : Type} (keep : pystr -> bool) (k : pystr)
      (r : list (pystr * X)) :
  keep k = false ->
  get k (List.filter (fun kv => keep (fst kv)) r) = None.
Proof.
  intros Hk. induction r as [|[k' x] r IH]; [done|].
  cbn [List.filter fst]. destruct (keep k') eqn:E; [|done].
  cbn [get]. destruct (Str.eqb k k') eqn:Ek; [|done].
  apply str_eqb_eq in Ek as ->. congruence.
Qed.

(** The anonymised record in column order, read as a map, is the
    anonymised map of the record. *)
Lemma anon_row_refines (r : record V) :
  list_to_map (anon_row V r)
  = ExportSheets.anon_row V (list_to_map r).
Proof.
  apply map_eq. intros k. rewrite get_lookup. unfold anon_row.
  destruct (str_in k ExportSheets.EXCLUDED_COLUMNS) eqn:E.
  - rewrite (get_filter_out
               (fun k => negb (str_in k ExportSheets.EXCLUDED_COLUMNS)))
      by (by rewrite E).
    symmetry. apply anon_row_excluded. by apply str_in_iff.
  - rewrite (get_filter
               (fun k => negb (str_in k ExportSheets.EXCLUDED_COLUMNS)))
      by (by rewrite E).
    rewrite anon_row_kept by (by apply str_in_false). by rewrite get_lookup.
Qed.

End TableFacts.

Lemma table_reads_identifier_and_pledge_columns_witness :
  LongFormat.main_table nat
    (Some [[(str "id", 1); (str "email", 7); (str "pledge_1_1", 2)]])
  = LongFormat.main_table nat
      (Some [[(str "id", 1); (str "email", 9); (str "pledge_1_1", 2)]]).
Proof.
  refine (proj2 (proj2 (table_reads_identifier_and_pledge_columns _ _ _))).
  reflexivity.
Defined.

(** ** The units and their text *)

Section TextFacts.
Import ImportDocx.

Lemma dict_set_same_keys {V W : Type} (k : pystr) (v : V) (w : W)
      (d : list (pystr * V)) (d' : list (pystr * W)) :
  map fst d = map fst d' ->
  map fst (dict_set k v d) = map fst (dict_set k w d').
Proof.
  revert d'. induction d as [|[k1 v1] d IH]; intros [|[k2 w2] d'] H;
    try discriminate H; [done|].
  cbn [map fst] in H. injection H as <- H. cbn [dict_set].
  destruct (Str.eqb k k1); cbn [map fst]; [by rewrite H|].
  by rewrite (IH d').
Qed.

Lemma dict_set_fresh {V : Type} (k : pystr) (v : V) (d : list (pystr * V)) :
  k ∉ map fst d -> map fst (dict_set k v d) = map fst d ++ [k].
Proof.
  induction d as [|[k1 v1] d IH]; [done|]. cbn [map fst dict_set].
  intros [Hk Hd]%not_elem_of_cons. apply str_eqb_neq in Hk. rewrite Hk.
  cbn [map fst app]. by rewrite IH.
Qed.

Lemma fold_dict_set_fresh (names : list pystr) (d : list (pystr * unit)) :
  NoDup (map fst d ++ names) ->
  map fst (fold_left (fun d n => dict_set n tt d) names d)
  = map fst d ++ names.
Proof.
  revert d. induction names as [|n names IH]; intros d H.
  - by rewrite app_nil_r.
  - cbn [fold_left].
    assert (n ∉ map fst d) as Hn.
    { apply NoDup_app in H as (_ & H & _). intros Hi. apply (H n Hi). left. }
    rewrite IH; rewrite dict_set_fresh by done; [by rewrite <- app_assoc|].
    by rewrite <- app_assoc.
Qed.

Lemma marker_found_name (line : pystr) (m : Re.rmatch) :
  Re.search file_marker_pattern line = Some m -> marker_name (Re.group' 1 m).
Proof.
  intros [pre [s' [-> E]]]%search_inv.
  by apply marker_match_inv in E as [name [r [_ [? ->]]]].
Qed.

Lemma marker_names_cons (l : pystr) (lines : list pystr) :
  marker_names (l :: lines)
  = match Re.search file_marker_pattern l with
    | Some m => Re.group' 1 m :: marker_names lines
    | None => marker_names lines
    end.
Proof.
  unfold marker_names. change (omap ?f (l :: lines)) with
    (match f l with Some y => y :: omap f lines | None => omap f lines end).
  cbv beta. by destruct (Re.search file_marker_pattern l).
Qed.

(** The keys of the units after the loop, from the keys before it and
    the marker names met. *)
Lemma content_loop_names (lines : list pystr) (st st' : pc_state)
      (d : list (pystr * unit)) :
  content_loop st lines = Ok st' ->
  (forall n, current_file st = Some n -> n <> []) ->
  map fst (save_buffer st) = map fst d ->
  map fst (save_buffer st')
  = map fst (fold_left (fun d n => dict_set n tt d) (marker_names lines) d).
Proof.
  revert st d. induction lines as [|l lines IH]; intros st d H Hc Hd.
  - injection H as <-. done.
  - cbn [content_loop] in H. unfold content_step in H.
    rewrite marker_names_cons.
    destruct (Re.search file_marker_pattern l) as [m|] eqn:E.
    + cbn [mbind result_bind fold_left] in *.
      destruct (marker_found_name _ _ E) as [Nn _].
      eapply IH; [exact H | by intros n [= <-] |].
      unfold save_buffer at 1. cbn [current_file current_buffer files_content].
      destruct (Re.group' 1 m) as [|c n] eqn:En; [done|]. cbn [truthy default].
      by apply dict_set_same_keys.
    + destruct (current_file st) as [n|] eqn:En.
      * destruct (indent_step st (unescape l)) as [s1|x] eqn:Es; [|done].
        cbn [mbind result_bind] in H.
        apply indent_step_keeps in Es as [Hf1 Hc1].
        eapply IH; [exact H | by rewrite Hc1, En; apply Hc |].
        rewrite <- Hd. unfold save_buffer. rewrite Hf1, Hc1, En.
        destruct (truthy (Some n)); [|done]. by apply dict_set_same_keys.
      * cbn [mbind result_bind] in H. eapply IH; [exact H | | exact Hd].
        by rewrite En.
Qed.

(** X17. The units come out under the names of the marker lines, in the
    order of the document: the keys are those of a [dict] to which the
    names found are assigned one after the other, so a name met twice
    keeps its first place; when no name occurs twice, the keys are the
    names as they follow each other in the document. *)
Theorem units_follow_markers (content : pystr) (am : gmap pystr pystr) :
  exists files_content,
    process_content content am = Ok files_content
    /\ map fst files_content
       = map fst (fold_left (fun d n => dict_set n tt d)
                            (marker_names (split_lines content)) [])
    /\ (NoDup (marker_names (split_lines content)) ->
        map fst files_content = marker_names (split_lines content)).
Proof.
  unfold process_content.
  destruct (content_loop_ok (split_lines content) pc_init stack_ok_seed)
    as [st [E _]].
  rewrite E. cbn [mbind result_bind]. eexists. split; [reflexivity|].
  pose proof (content_loop_names _ _ _ [] E ltac:(done) eq_refl) as H.
  split; [exact H|]. intros Hn. rewrite H.
  by rewrite fold_dict_set_fresh.
Qed.

Lemma stripped_text_app (a b : list pystr) :
  stripped_text (a ++ b) = stripped_text a ++ stripped_text b.
Proof. unfold stripped_text. by rewrite map_app, List.filter_app. Qed.

Lemma stripped_text_blank (a : list pystr) :
  stripped_text (a ++ [[]]) = stripped_text a.
Proof. rewrite stripped_text_app. apply app_nil_r. Qed.

Lemma strip_app_space (w s : pystr) :
  forallb Char.is_space w = true -> Str.strip (w ++ s) = Str.strip s.
Proof. intros H. unfold Str.strip, Str.lstrip. by rewrite drop_while_all. Qed.

Lemma drop_while_idem (f : ascii -> bool) (s : pystr) :
  Str.drop_while f (Str.drop_while f s) = Str.drop_while f s.
Proof.
  induction s as [|c s IH]; [done|]. cbn [Str.drop_while].
  destruct (f c) eqn:E; [done|]. cbn [Str.drop_while]. by rewrite E.
Qed.

Lemma strip_lstrip (s : pystr) : Str.strip (Str.lstrip s) = Str.strip s.
Proof. unfold Str.strip, Str.lstrip. by rewrite drop_while_idem. Qed.

Lemma rstrip_idem (s : pystr) : Str.rstrip (Str.rstrip s) = Str.rstrip s.
Proof. unfold Str.rstrip. by rewrite rev_involutive, drop_while_idem. Qed.

Lemma rstrip_head (c : ascii) (t : pystr) :
  Char.is_space c = false -> exists t', Str.rstrip (c :: t) = c :: t'.
Proof.
  intros Hc. destruct (rstrip_spec (c :: t)) as [ws [Hs Hw]].
  destruct (Str.rstrip (c :: t)) as [|d t'] eqn:E.
  - cbn [app] in Hs. subst ws. cbn [forallb] in Hw. by rewrite Hc in Hw.
  - injection Hs as <- _. eauto.
Qed.

Lemma strip_idem (s : pystr) : Str.strip (Str.strip s) = Str.strip s.
Proof.
  unfold Str.strip. destruct (lstrip_spec s) as [ws [_ [_ Hh]]].
  destruct (Str.lstrip s) as [|c t]; [reflexivity|].
  destruct (rstrip_head c t Hh) as [t' E]. rewrite E. unfold Str.lstrip.
  cbn [Str.drop_while]. rewrite Hh, <- E. apply rstrip_idem.
Qed.

Lemma stripped_text_one (x y : pystr) (a : list pystr) :
  Str.strip x = Str.strip y ->
  stripped_text (a ++ [x]) = stripped_text a ++ stripped_text [y].
Proof.
  intros H. rewrite stripped_text_app. f_equal. unfold stripped_text.
  cbn [map]. by rewrite H.
Qed.

Lemma classic_rest (n : nat) (line : pystr) :
  (exists rest, line = repeat " " n ++ rest)
  \/ ~ (exists rest, line = repeat " " n ++ rest).
Proof.
  destruct (decide (take n line = repeat " " n)) as [E|E].
  - left. exists (drop n line). by rewrite <- E, take_drop.
  - right. intros [rest ->]. apply E.
    rewrite take_app_length'; [done | by rewrite repeat_length].
Qed.

(** The content branch of the flattening changes the white space at the
    start of a line only. *)
Lemma process_line_strip (d : Z) (line : pystr) :
  (0 <= d)%Z ->
  Str.strip (ExportDocx.process_line d line) = Str.strip line.
Proof.
  intros Hd. destruct (process_line_spec d line Hd) as [H1 H2].
  destruct (classic_rest (4 * Z.to_nat d) line) as [[rest Hr] | Hn].
  - rewrite (H1 rest Hr). rewrite Hr. symmetry. apply strip_app_space.
    apply forallb_forall. by intros x ->%repeat_spec.
  - destruct (H2 Hn) as [Hb Hnb].
    destruct (forallb Char.is_space line) eqn:E.
    + rewrite (Hb eq_refl). symmetry. by apply strip_nil_iff.
    + destruct (Hnb eq_refl) as [ws [Hl [Hw _]]]. rewrite Hl at 2.
      symmetry. by apply strip_app_space.
Qed.

Lemma unindent_step_text (st : ExportDocx.flat_state) (line : pystr) :
  (0 <= ExportDocx.stack_depth st)%Z ->
  stripped_text (ExportDocx.new_lines (ExportDocx.unindent_step st line))
  = stripped_text (ExportDocx.new_lines st) ++ stripped_text [line].
Proof.
  intros Hd. unfold ExportDocx.unindent_step.
  assert (forall x, stripped_text (ExportDocx.new_lines st ++ [x; []])
                    = stripped_text (ExportDocx.new_lines st ++ [x])) as Hb.
  { intros x. change [x; []] with ([x] ++ [[]]).
    by rewrite app_assoc, stripped_text_blank. }
  destruct (Re.matched (Re.match_at ExportDocx.block_start_pattern line)).
  { cbn [ExportDocx.new_lines]. rewrite Hb.
    apply stripped_text_one, strip_idem. }
  destruct (Re.matched (Re.match_at ExportDocx.block_end_pattern line)).
  { cbn [ExportDocx.new_lines]. rewrite Hb.
    apply stripped_text_one, strip_idem. }
  destruct (ExportDocx.needs_separator _); cbn [ExportDocx.new_lines];
    rewrite ?Hb; by apply stripped_text_one, process_line_strip.
Qed.

Lemma unindent_fold_text (lines : list pystr) (st : ExportDocx.flat_state) :
  (0 <= ExportDocx.stack_depth st)%Z ->
  stripped_text
    (ExportDocx.new_lines (fold_left ExportDocx.unindent_step lines st))
  = stripped_text (ExportDocx.new_lines st) ++ stripped_text lines.
Proof.
  revert st. induction lines as [|l lines IH]; intros st Hd.
  - cbn [fold_left]. by rewrite app_nil_r.
  - cbn [fold_left]. rewrite IH by (by apply unindent_step_depth).
    rewrite unindent_step_text by done.
    change (l :: lines) with ([l] ++ lines).
    by rewrite (stripped_text_app [l]), app_assoc.
Qed.

Lemma split_no_sep (sep : ascii) (s : pystr) :
  Forall (fun l => sep ∉ l) (Str.split sep s).
Proof.
  induction s as [|c s IH]; cbn [Str.split].
  - repeat constructor. by intros ?%elem_of_nil.
  - destruct (Char.eqb sep c) eqn:E.
    + constructor; [by intros ?%elem_of_nil | done].
    + destruct (Str.split sep s) as [|w ws]; [|apply Forall_cons in IH as [Hw Hws]].
      * repeat constructor. apply char_eqb_neq in E.
        by intros [->|?%elem_of_nil]%elem_of_cons.
      * constructor; [|done]. apply char_eqb_neq in E.
        by intros [->|?]%elem_of_cons.
Qed.

Lemma split_join (sep : ascii) (ls : list pystr) :
  ls <> [] -> Forall (fun l => sep ∉ l) ls ->
  Str.split sep (Str.join [sep] ls) = ls.
Proof.
  intros Hn H. induction H as [|p ps Hp Hps IH]; [done|].
  destruct ps as [|q ps].
  - cbn [Str.join]. by apply split_notin.
  - rewrite join_cons by done. cbn [app]. rewrite split_app_sep by done.
    by rewrite IH.
Qed.

Lemma strip_elem (x : ascii) (s : pystr) : x ∈ Str.strip s -> x ∈ s.
Proof.
  intros H. destruct (lstrip_spec s) as [ws [Hs _]].
  destruct (rstrip_spec (Str.lstrip s)) as [ws' [Hs' _]].
  rewrite Hs, Hs'. unfold Str.strip in H. set_solver.
Qed.

Lemma lstrip_elem (x : ascii) (s : pystr) : x ∈ Str.lstrip s -> x ∈ s.
Proof.
  intros H. destruct (lstrip_spec s) as [ws [Hs _]]. rewrite Hs. set_solver.
Qed.

Lemma process_line_elem (x : ascii) (d : Z) (line : pystr) :
  x ∈ ExportDocx.process_line d line -> x ∈ line.
Proof.
  unfold ExportDocx.process_line, Str.slice_from.
  repeat match goal with |- context [if ?b then _ else _] => destruct b end;
    intros H; try (by apply elem_of_nil in H);
    try (by apply lstrip_elem); by apply (subseteq_drop _ _ _ H).
Qed.

Lemma unindent_fold_no_nl (lines : list pystr) (st : ExportDocx.flat_state) :
  Forall (fun l => nl ∉ l) lines ->
  Forall (fun l => nl ∉ l) (ExportDocx.new_lines st) ->
  Forall (fun l => nl ∉ l)
         (ExportDocx.new_lines (fold_left ExportDocx.unindent_step lines st)).
Proof.
  intros H. revert st. induction H as [|l lines Hl _ IH]; intros st Hst; [done|].
  cbn [fold_left]. apply IH. unfold ExportDocx.unindent_step.
  assert (nl ∉ @nil ascii) as Hnil by (by intros ?%elem_of_nil).
  assert (nl ∉ Str.strip l) as Hs by (by intros ?%strip_elem).
  assert (nl ∉ ExportDocx.process_line (ExportDocx.stack_depth st) l) as Hp
      by (by intros ?%process_line_elem).
  repeat match goal with |- context [if ?b then _ else _] => destruct b end;
    cbn [ExportDocx.new_lines]; apply Forall_app; (split; [done|]);
    by repeat constructor.
Qed.

Lemma unindent_fold_not_nil (lines : list pystr) (st : ExportDocx.flat_state) :
  lines <> [] \/ ExportDocx.new_lines st <> [] ->
  ExportDocx.new_lines (fold_left ExportDocx.unindent_step lines st) <> [].
Proof.
  revert st. induction lines as [|l lines IH]; intros st H.
  - by destruct H.
  - cbn [fold_left]. apply IH. right. unfold ExportDocx.unindent_step.
    repeat match goal with |- context [if ?b then _ else _] => destruct b end;
      cbn [ExportDocx.new_lines]; by destruct (ExportDocx.new_lines st).
Qed.

(** X18. The flattening keeps the text: the lines that are not blank
    come out as they went in, all of them and in the same order, with
    only the white space around them changed; what it adds is blank
    lines. *)
Theorem flatten_keeps_text (content : pystr) :
  stripped_text (Str.split nl (ExportDocx.unindent_blocks content))
  = stripped_text (Str.split nl content).
Proof.
  unfold ExportDocx.unindent_blocks, ExportDocx.unindent_run.
  rewrite split_join.
  - by rewrite unindent_fold_text.
  - apply unindent_fold_not_nil. left. apply split_not_nil.
  - apply unindent_fold_no_nl; [apply split_no_sep | constructor].
Qed.

Lemma spaces_space (n : Z) : forallb Char.is_space (Str.spaces n) = true.
Proof.
  unfold Str.spaces. apply forallb_forall. by intros x ->%repeat_spec.
Qed.

(** Step 3 of the loop body adds one line to the buffer, which is the
    line read up to the white space around it. *)
Lemma indent_step_text (st st' : pc_state) (line : pystr) :
  indent_step st line = Ok st' ->
  exists l', current_buffer st' = current_buffer st ++ [l']
             /\ Str.strip l' = Str.strip line.
Proof.
  unfold indent_step. destruct (indent_stack st) as [|[c t] stack]; [done|].
  cbn [top mbind result_bind].
  destruct (Re.match_at block_start_pattern line).
  { intros [= <-]. eexists. split; [reflexivity|].
    apply strip_app_space, spaces_space. }
  destruct (Re.matched _).
  { destruct (if (1 <? _)%nat then _ else _) as [|[p pt] stack']; [done|].
    cbn [top mbind result_bind]. intros [= <-]. eexists.
    split; [reflexivity|]. apply strip_app_space, spaces_space. }
  destruct (is_type t _).
  { intros [= <-]. eexists. split; [reflexivity|].
    destruct (is_metadata _); apply strip_app_space, spaces_space. }
  destruct (Str.eqb (Str.strip line) []) eqn:E.
  { intros [= <-]. eexists. split; [reflexivity|].
    apply str_eqb_eq in E. by rewrite E. }
  intros [= <-]. eexists. split; [reflexivity|].
  cbn [andb]. rewrite strip_app_space by apply spaces_space.
  apply strip_lstrip.
Qed.

Lemma content_loop_unit (ls : list pystr) (st : pc_state) (n : pystr) :
  current_file st = Some n ->
  stack_ok (indent_stack st) ->
  Forall (fun l => Re.search file_marker_pattern l = None) ls ->
  exists st',
    content_loop st ls = Ok st'
    /\ files_content st' = files_content st
    /\ current_file st' = Some n
    /\ map Str.strip (current_buffer st')
       = map Str.strip (current_buffer st)
           ++ map (fun l => Str.strip (unescape l)) ls.
Proof.
  intros Hc Hok H. revert st Hc Hok.
  induction H as [|l ls Hl _ IH]; intros st Hc Hok.
  - exists st. cbn [map]. by rewrite app_nil_r.
  - cbn [content_loop]. unfold content_step. rewrite Hl, Hc.
    destruct (indent_step_ok st (unescape l) Hok) as [s1 [E Hok1]].
    rewrite E. cbn [mbind result_bind].
    destruct (indent_step_keeps _ _ _ E) as [Hf1 Hc1].
    destruct (indent_step_text _ _ _ E) as [l' [Hb1 Hs1]].
    destruct (IH s1 ltac:(by rewrite Hc1) Hok1) as (st' & E' & Hf & Hcf & Hb).
    exists st'. split; [done|]. split; [by rewrite Hf|]. split; [done|].
    rewrite Hb, Hb1, map_app. cbn [map]. rewrite Hs1.
    by rewrite <- app_assoc.
Qed.

Lemma stripped_text_filter (ls : list pystr) :
  stripped_text ls
  = map Str.strip (List.filter (fun l => negb (is_blank l)) ls).
Proof.
  unfold stripped_text, is_blank. induction ls as [|l ls IH]; [done|].
  cbn [map List.filter]. destruct (Str.eqb (Str.strip l) []); cbn [negb map];
    by rewrite IH.
Qed.

(** X19. The reconstruction keeps the text of a unit: for a document
    that is one marker line followed by lines without marker, the unit
    saved under the name of the marker has the lines read, with the
    escapes undone, as its lines that are not blank, all of them and in
    the same order, with only the white space around them changed. *)
Theorem unit_text_kept (content : pystr) (am : gmap pystr pystr)
        (first : pystr) (ls : list pystr) :
  split_lines content = first :: ls ->
  Re.matched (Re.search file_marker_pattern first) = true ->
  Forall (fun l => Re.search file_marker_pattern l = None) ls ->
  exists name out,
    marker_names [first] = [name]
    /\ process_content content am = Ok [(name, out)]
    /\ stripped_text out = stripped_text (map unescape ls).
Proof.
  intros Hs Hm Hl. unfold process_content. rewrite Hs.
  cbn [content_loop]. unfold content_step. rewrite marker_names_cons.
  destruct (Re.search file_marker_pattern first) as [m|] eqn:E; [|done].
  destruct (marker_found_name _ _ E) as [Nn _].
  cbn [mbind result_bind].
  destruct (content_loop_unit ls
              (mkPc (save_buffer pc_init) (Some (Re.group' 1 m)) []
                    [seed_frame])
              (Re.group' 1 m) eq_refl stack_ok_seed Hl)
    as (st' & E' & Hf & Hc & Hb).
  rewrite E'. cbn [mbind result_bind].
  exists (Re.group' 1 m), (clean_buffer (current_buffer st')).
  split; [done|]. split.
  - unfold save_buffer at 1. rewrite Hc, Hf.
    destruct (Re.group' 1 m); [done|]. reflexivity.
  - rewrite stripped_text_filter. unfold clean_buffer.
    rewrite clean_from_keeps.
    destruct (drop_leading_blank_spec (current_buffer st')) as [-> _].
    rewrite <- stripped_text_filter. unfold stripped_text.
    rewrite Hb. cbn [map app]. by rewrite map_map.
Qed.

Lemma unit_text_kept_witness :
  exists name out,
    marker_names [marker_line (str "validity.md")] = [name]
    /\ process_content
         (marker_line (str "validity.md") ++ [nl] ++ str "/// details | T"
            ++ [nl] ++ str "type: info" ++ [nl] ++ str "///") ∅
       = Ok [(name, out)]
    /\ stripped_text out
       = stripped_text
           (map unescape [str "/// details | T"; str "type: info"; str "///"]).
Proof.
  apply (unit_text_kept _ ∅ (marker_line (str "validity.md"))
           [str "/// details | T"; str "type: info"; str "///"]).
  - reflexivity.
  - reflexivity.
  - repeat constructor.
Defined.

End TextFacts.

(** ** The escapes of the converter *)

Section EscapeCodes.
Import ImportDocx.

(** A text without the first character of [old] has no occurrence of
    [old]. *)
Lemma replace_absent (c : ascii) (old new s : pystr) :
  c ∉ s -> Str.replace (c :: old) new s = s.
Proof.
  unfold Str.replace. induction s as [|x s IH]; [done|].
  intros [Hx Hs]%not_elem_of_cons. apply char_eqb_neq in Hx.
  cbn [Str.replace_from Str.startswith]. rewrite Hx. cbn [andb].
  by rewrite IH.
Qed.

Lemma endswith_elem (c : ascii) (s : pystr) :
  Str.endswith [c] s = true -> c ∈ s.
Proof.
  unfold Str.endswith. cbn [rev app]. intros [t Ht]%startswith_iff.
  apply (f_equal (@rev ascii)) in Ht. rewrite rev_involutive in Ht.
  rewrite Ht. cbn [app rev]. set_solver.
Qed.

(** X20. A line without backslash and without no-break space is left as
    it is when the escapes are undone, and no line has a no-break space
    afterwards. *)
Theorem unescape_plain (line : pystr) :
  ("160" ∉ unescape line)
  /\ ("\" ∉ line -> "160" ∉ line -> unescape line = line).
Proof.
  split.
  - unfold unescape.
    set (l6 := Str.replace (str "\]") _ _).
    assert ("160" ∉ Str.replace ["160"] (str " ") l6) as H.
    { intros [H | [_ H]]%replace_one_char_elem; [|done].
      revert H. apply (bool_decide_unpack _). by vm_compute. }
    destruct (Str.endswith _ _); [|done].
    intros Hin. apply H. unfold Str.drop_last in Hin.
    by apply (subseteq_take _ _ _ Hin).
  - intros Hb Hn. unfold unescape.
    change (str "\|") with ("\" :: str "|").
    change (str "\<") with ("\" :: str "<").
    change (str "\>") with ("\" :: str ">").
    change (str "\_") with ("\" :: str "_").
    change (str "\[") with ("\" :: str "[").
    change (str "\]") with ("\" :: str "]").
    rewrite !(replace_absent "\" _ _ line) by done.
    rewrite (replace_absent "160") by done.
    destruct (Str.endswith (str "\") line) eqn:E; [|done].
    by apply endswith_elem in E.
Qed.

End EscapeCodes.
